(** * daily_wx: a shallow embedding of [daily_wx.py]

    The script reads a credential file, downloads the missing frames of
    each tracked weather model into a local cache, assembles the cached
    frames into an animation and publishes the animations to a chat
    channel.  Every function of the script is embedded below next to the
    Python it comes from; the libraries the script calls (the HTTP client,
    the image library, the chat client, the pattern matcher of [pathlib])
    are parameters of the sections that use them. *)

From Stdlib Require Import List String Ascii Bool ZArith Lia Arith.
From Stdlib Require Import Permutation Sorted.
Import ListNotations.

Local Open Scope string_scope.
Local Open Scope list_scope.

(** ** Exceptions and results *)

Definition path := list string.

Inductive exn : Type :=
| ValueError (msg : string)
| KeyError (key : string)
| StopIteration
| OverflowError
| HTTPError (status : Z)
| FileNotFoundError (p : path)
| IsADirectoryError (p : path)
| NotADirectoryError (p : path)
| FileExistsError (p : path)
| UnidentifiedImageError (p : path)
| LibraryError (msg : string).

Inductive result (A : Type) : Type :=
| Ok (a : A)
| Raise (e : exn).

Arguments Ok {A} a.
Arguments Raise {A} e.

Definition is_ok {A} (r : result A) : bool :=
  match r with Ok _ => true | Raise _ => false end.

(** ** Python strings

    A [string] is a sequence of code points below 256. *)

Module Str.

(** [str.isspace] on one character: TAB..CR, FS..US, SPACE, NEL, NBSP. *)
Definition is_space (c : ascii) : bool :=
  let n := nat_of_ascii c in
  ((9 <=? n)%nat && (n <=? 13)%nat) || ((28 <=? n)%nat && (n <=? 32)%nat)
  || (n =? 133)%nat || (n =? 160)%nat.

Fixpoint lstrip (s : string) : string :=
  match s with
  | EmptyString => EmptyString
  | String c r => if is_space c then lstrip r else s
  end.

Fixpoint rstrip (s : string) : string :=
  match s with
  | EmptyString => EmptyString
  | String c r =>
      match rstrip r with
      | EmptyString => if is_space c then EmptyString else String c EmptyString
      | r' => String c r'
      end
  end.

(** [s.strip()] *)
Definition strip (s : string) : string := rstrip (lstrip s).

(** [s.startswith(p)] *)
Definition startswith (p s : string) : bool := String.prefix p s.

(** [s.endswith(p)] *)
Fixpoint endswith (p s : string) : bool :=
  (s =? p) || match s with
              | EmptyString => false
              | String _ r => endswith p r
              end.

(** [c in s] for a one-character [c]. *)
Fixpoint contains (c : ascii) (s : string) : bool :=
  match s with
  | EmptyString => false
  | String a r => Ascii.eqb a c || contains c r
  end.

(** [s.partition(c)] without the separator: the text before the first
    [c] and the text after it, when [c] occurs. *)
Fixpoint cut (c : ascii) (s : string) : option (string * string) :=
  match s with
  | EmptyString => None
  | String a r =>
      if Ascii.eqb a c then Some (EmptyString, r)
      else match cut c r with
           | Some (h, t) => Some (String a h, t)
           | None => None
           end
  end.

(** [s.split(c, 1)] *)
Definition split_1 (c : ascii) (s : string) : list string :=
  match cut c s with
  | Some (h, t) => [h; t]
  | None => [s]
  end.

(** [s.split(c)] *)
Fixpoint split (c : ascii) (s : string) : list string :=
  match s with
  | EmptyString => [EmptyString]
  | String a r =>
      if Ascii.eqb a c then EmptyString :: split c r
      else match split c r with
           | h :: t => String a h :: t
           | [] => [String a EmptyString]
           end
  end.

(** [sep.join(parts)] *)
Fixpoint join (sep : string) (parts : list string) : string :=
  match parts with
  | [] => EmptyString
  | [p] => p
  | p :: rest => p ++ sep ++ join sep rest
  end.

(** Comparison of two strings by code point, as [str.__lt__]. *)
Fixpoint ltb (s t : string) : bool :=
  match s, t with
  | EmptyString, EmptyString => false
  | EmptyString, String _ _ => true
  | String _ _, EmptyString => false
  | String a s', String b t' =>
      (nat_of_ascii a <? nat_of_ascii b)%nat
      || ((nat_of_ascii a =? nat_of_ascii b)%nat && ltb s' t')
  end.

(** The lines of a text file opened in text mode ([f.readlines()]):
    ["\r\n"] and ["\r"] are read as ["\n"], and every line keeps its
    terminator. *)
Fixpoint readlines (s : string) : list string :=
  match s with
  | EmptyString => []
  | String c r =>
      if Ascii.eqb c "010" then String "010" EmptyString :: readlines r
      else if Ascii.eqb c "013" then
        String "010" EmptyString ::
          match r with
          | String c' r' => if Ascii.eqb c' "010" then readlines r' else readlines r
          | EmptyString => []
          end
      else match readlines r with
           | [] => [String c EmptyString]
           | l :: ls => String c l :: ls
           end
  end.

End Str.

(** ** Python dictionaries

    A [dict] keeps its keys in insertion order; assigning to a key that is
    already there keeps the key's position. *)

Definition dict (V : Type) : Type := list (string * V).

Fixpoint dict_get {V} (k : string) (d : dict V) : option V :=
  match d with
  | [] => None
  | (k', v) :: r => if k' =? k then Some v else dict_get k r
  end.

Fixpoint dict_set {V} (k : string) (v : V) (d : dict V) : dict V :=
  match d with
  | [] => [(k, v)]
  | (k', v') :: r => if k' =? k then (k', v) :: r else (k', v') :: dict_set k v r
  end.

Definition dict_keys {V} (d : dict V) : list string := map fst d.

(** [d[k]] *)
Definition dict_item {V} (k : string) (d : dict V) : result V :=
  match dict_get k d with
  | Some v => Ok v
  | None => Raise (KeyError k)
  end.

(** [x in xs] for a list of strings. *)
Definition str_in (x : string) (xs : list string) : bool :=
  existsb (String.eqb x) xs.

(** ** The file system

    Paths are sequences of components below the script's directory
    [ROOT].  The order of the entries stands for the order in which the
    operating system lists them. *)

Inductive node : Type :=
| File (content : string)
| Dir.

Definition filesystem : Type := list (path * node).

Fixpoint path_eqb (p q : path) : bool :=
  match p, q with
  | [], [] => true
  | a :: p', b :: q' => (a =? b) && path_eqb p' q'
  | _, _ => false
  end.

Fixpoint fs_lookup (fs : filesystem) (p : path) : option node :=
  match fs with
  | [] => None
  | (q, n) :: r => if path_eqb q p then Some n else fs_lookup r p
  end.

(** [p.is_file()] *)
Definition is_file (fs : filesystem) (p : path) : bool :=
  match fs_lookup fs p with
  | Some (File _) => true
  | _ => false
  end.

(** [p.open('r').read()] and [p.open('rb').read()] *)
Definition fs_read (fs : filesystem) (p : path) : result string :=
  match fs_lookup fs p with
  | Some (File c) => Ok c
  | Some Dir => Raise (IsADirectoryError p)
  | None => Raise (FileNotFoundError p)
  end.

(** [p.name] *)
Definition path_name (p : path) : string := last p EmptyString.

Definition ROOT : path := [].
Definition SECRETS_FILE : path := ROOT ++ ["secretprops.properties"].
Definition DATA_DIR : path := ROOT ++ ["data"].
Definition BASE_URL : string := "https://weather.ral.ucar.edu".

(** ** [read_secrets] *)

(** The test of the loop's [continue]:
    [item.strip().startswith('#') or item.strip() == ''] *)
Definition skipped (item : string) : bool :=
  Str.startswith "#" (Str.strip item) || (Str.strip item =? "").

(** The body of [for item in f.readlines()], threading [secrets]. *)
Fixpoint read_secrets_loop (items : list string) (secrets : dict string)
  : result (dict string) :=
  match items with
  | [] => Ok secrets
  | item :: rest =>
      if skipped item then read_secrets_loop rest secrets
      else
        match Str.split_1 "=" item with
        | [k; v] => read_secrets_loop rest (dict_set k (Str.strip v) secrets)
        | _ => Raise (ValueError "not enough values to unpack (expected 2, got 1)")
        end
  end.

Definition read_secrets (fs : filesystem) (path_obj : path)
  : result (dict string) :=
  match fs_read fs path_obj with
  | Ok text => read_secrets_loop (Str.readlines text) []
  | Raise e => Raise e
  end.

(** ** Calendar dates: the [datetime] module

    A [datetime] is kept as its proleptic Gregorian ordinal
    ([toordinal()], day 1 is 0001-01-01) and its time of day; the
    arithmetic of the module goes through the ordinal too. *)

Module Datetime.

Local Open Scope Z_scope.

Record datetime : Type := mk_datetime
  { ordinal : Z;          (* date.toordinal() *)
    microsecond_of_day : Z }.

Definition MAXORDINAL : Z := 3652059.   (* 9999-12-31 *)
Definition DI400Y : Z := 146097.
Definition DI100Y : Z := 36524.
Definition DI4Y : Z := 1461.

Definition valid (t : datetime) : Prop :=
  1 <= ordinal t <= MAXORDINAL.

Definition is_leap (year : Z) : bool :=
  (year mod 4 =? 0) && (negb (year mod 100 =? 0) || (year mod 400 =? 0)).

Definition DAYS_IN_MONTH (month : Z) : Z :=
  match month with
  | 1 => 31 | 2 => 28 | 3 => 31 | 4 => 30 | 5 => 31 | 6 => 30
  | 7 => 31 | 8 => 31 | 9 => 30 | 10 => 31 | 11 => 30 | 12 => 31
  | _ => -1
  end.

Definition DAYS_BEFORE_MONTH (month : Z) : Z :=
  match month with
  | 1 => 0 | 2 => 31 | 3 => 59 | 4 => 90 | 5 => 120 | 6 => 151
  | 7 => 181 | 8 => 212 | 9 => 243 | 10 => 273 | 11 => 304 | 12 => 334
  | _ => -1
  end.

Definition days_before_year (year : Z) : Z :=
  let y := year - 1 in
  y * 365 + y / 4 - y / 100 + y / 400.

Definition days_before_month (year month : Z) : Z :=
  DAYS_BEFORE_MONTH month
  + (if (2 <? month) && is_leap year then 1 else 0).

(** [_ymd2ord] *)
Definition ymd2ord (year month day : Z) : Z :=
  days_before_year year + days_before_month year month + day.

(** [_ord2ymd] *)
Definition ord2ymd (n : Z) : Z * Z * Z :=
  let n := n - 1 in
  let n400 := n / DI400Y in
  let n := n mod DI400Y in
  let year := n400 * 400 + 1 in
  let n100 := n / DI100Y in
  let n := n mod DI100Y in
  let n4 := n / DI4Y in
  let n := n mod DI4Y in
  let n1 := n / 365 in
  let n := n mod 365 in
  let year := year + n100 * 100 + n4 * 4 + n1 in
  if (n1 =? 4) || (n100 =? 4) then (year - 1, 12, 31)
  else
    let leapyear := (n1 =? 3) && (negb (n4 =? 24) || (n100 =? 3)) in
    let month := Z.shiftr (n + 50) 5 in
    let preceding :=
      DAYS_BEFORE_MONTH month
      + (if (2 <? month) && leapyear then 1 else 0) in
    if n <? preceding then
      let month := month - 1 in
      let preceding :=
        preceding
        - (DAYS_IN_MONTH month
           + (if (month =? 2) && leapyear then 1 else 0)) in
      (year, month, n - preceding + 1)
    else (year, month, n - preceding + 1).

(** The last part of [_ord2ymd] on its own: month and day of the
    [n]-th day (from 0) of a year. *)
Definition month_day (leapyear : bool) (n : Z) : Z * Z :=
  let month := Z.shiftr (n + 50) 5 in
  let preceding :=
    DAYS_BEFORE_MONTH month + (if (2 <? month) && leapyear then 1 else 0) in
  if n <? preceding then
    let month := month - 1 in
    let preceding :=
      preceding
      - (DAYS_IN_MONTH month + (if (month =? 2) && leapyear then 1 else 0)) in
    (month, n - preceding + 1)
  else (month, n - preceding + 1).

(** A month and a day of the calendar that count back to [n]. *)
Definition month_day_ok (leapyear : bool) (n : Z) : bool :=
  let '(m, d) := month_day leapyear n in
  (1 <=? m) && (m <=? 12) && (1 <=? d) && (d <=? 31)
  && (DAYS_BEFORE_MONTH m + (if (2 <? m) && leapyear then 1 else 0) + d
      =? n + 1).

(** One decimal digit, and numbers padded with zeros to two and to
    four digits (the fields [%m], [%d] and [%Y] of [strftime]). *)
Definition digit (d : Z) : ascii := ascii_of_nat (48 + Z.to_nat d).

Definition pad2 (n : Z) : string :=
  String (digit (n / 10 mod 10)) (String (digit (n mod 10)) EmptyString).

Definition pad4 (n : Z) : string :=
  String (digit (n / 1000 mod 10))
    (String (digit (n / 100 mod 10)) (pad2 n)).

(** [t.year] *)
Definition year (t : datetime) : Z := fst (fst (ord2ymd (ordinal t))).

(** [t.strftime('%Y%m%d')].  The year is written with four digits; the C
    library of Linux writes a year below 1000 without the zeros in
    front, so this is the text of the program from the year 1000 on. *)
Definition strftime_Ymd (t : datetime) : string :=
  let '(y, m, d) := ord2ymd (ordinal t) in
  (pad4 y ++ pad2 m ++ pad2 d)%string.

(** [f'{t:%F}'], that is [t.strftime('%Y-%m-%d')] *)
Definition strftime_F (t : datetime) : string :=
  let '(y, m, d) := ord2ymd (ordinal t) in
  (pad4 y ++ "-" ++ pad2 m ++ "-" ++ pad2 d)%string.

(** [t - datetime.timedelta(days=x)] *)
Definition sub_days (t : datetime) (x : Z) : result datetime :=
  let days := ordinal t - x in
  if (0 <? days) && (days <=? MAXORDINAL)
  then Ok (mk_datetime days (microsecond_of_day t))
  else Raise OverflowError.

(** The same time of day, [x] days earlier. *)
Definition days_ago (t : datetime) (x : Z) : datetime :=
  mk_datetime (ordinal t - x) (microsecond_of_day t).

(** [datetime.datetime(year, month, day)] for a date of the calendar. *)
Definition of_ymd (year month day : Z) : datetime :=
  mk_datetime (ymd2ord year month day) 0.

End Datetime.

Import Datetime.

(** [range(n, 0, -1)] *)
Fixpoint countdown (n : nat) : list Z :=
  match n with
  | O => []
  | S k => Z.of_nat n :: countdown k
  end.

Definition range_down (n : Z) : list Z := countdown (Z.to_nat n).

(** A list comprehension whose element expression may raise. *)
Fixpoint traverse {A B} (f : A -> result B) (xs : list A) : result (list B) :=
  match xs with
  | [] => Ok []
  | x :: r =>
      match f x with
      | Raise e => Raise e
      | Ok y =>
          match traverse f r with
          | Raise e => Raise e
          | Ok ys => Ok (y :: ys)
          end
      end
  end.

(** ** Effects: the file system and what the script does to the world

    The logger's calls are left out: they neither read nor change
    anything modelled here. *)

Record response : Type := mk_response
  { status_code : Z;
    content : string }.

Inductive block : Type :=
| HeaderBlock (text : string)
| ImageBlock (title slack_file_id alt_text : string)
| DividerBlock.

Inductive event : Type :=
| Get (url : string)
| Mkdir (p : path)
| Write (p : path)
| Sleep (seconds : Z)
| Upload (channel : option string) (file title : string)
| Post (channel text : string) (blocks : list block).

Record world : Type := mk_world
  { w_fs : filesystem;
    w_trace : list event }.

(** A computation changes the world and returns or raises; what it did
    before raising stays done. *)
Definition M (A : Type) : Type := world -> result A * world.

Definition ret {A} (a : A) : M A := fun w => (Ok a, w).

Definition raise {A} (e : exn) : M A := fun w => (Raise e, w).

Definition bind {A B} (m : M A) (k : A -> M B) : M B :=
  fun w =>
    match m w with
    | (Ok a, w') => k a w'
    | (Raise e, w') => (Raise e, w')
    end.

Declare Scope prog_scope.
Delimit Scope prog_scope with prog.
Notation "x <- m ;; k" := (bind m (fun x => k))
  (at level 61, m at next level, right associativity) : prog_scope.
Notation "m ;; k" := (bind m (fun _ => k))
  (at level 61, right associativity) : prog_scope.

Definition lift {A} (r : result A) : M A := fun w => (r, w).

Definition emit (e : event) : M unit :=
  fun w => (Ok tt, mk_world (w_fs w) (w_trace w ++ [e])).

Definition get_fs : M filesystem := fun w => (Ok (w_fs w), w).

(** [time.sleep(seconds)] *)
Definition sleep (seconds : Z) : M unit := emit (Sleep seconds).

Fixpoint fs_set (fs : filesystem) (p : path) (n : node) : filesystem :=
  match fs with
  | [] => [(p, n)]
  | (q, m) :: r =>
      if path_eqb q p then (q, n) :: r else (q, m) :: fs_set r p n
  end.

Definition fs_remove (fs : filesystem) (p : path) : filesystem :=
  filter (fun e => negb (path_eqb (fst e) p)) fs.

Definition is_dir (fs : filesystem) (p : path) : bool :=
  match p with
  | [] => true
  | _ => match fs_lookup fs p with
         | Some Dir => true
         | _ => false
         end
  end.

Definition fs_exists (fs : filesystem) (p : path) : bool :=
  match p with
  | [] => true
  | _ => match fs_lookup fs p with
         | Some _ => true
         | None => false
         end
  end.

(** [p.parent] *)
Definition parent (p : path) : path := removelast p.

(** What opening [p] for writing does before anything is written: the
    file is created or emptied, inside a directory that exists. *)
Definition fs_open_w (fs : filesystem) (p : path) : result filesystem :=
  if is_dir fs p then Raise (IsADirectoryError p)
  else if is_file fs p then Ok (fs_set fs p (File EmptyString))
  else if is_dir fs (parent p) then Ok (fs_set fs p (File EmptyString))
  else if fs_exists fs (parent p) then Raise (NotADirectoryError p)
  else Raise (FileNotFoundError p).

(** [with p.open('wb') as f: f.write(data)] *)
Definition write_file (p : path) (data : string) : M unit :=
  fun w =>
    match fs_open_w (w_fs w) p with
    | Raise e => (Raise e, w)
    | Ok fs => (Ok tt, mk_world (fs_set fs p (File data)) (w_trace w ++ [Write p]))
    end.

(** [p.mkdir(parents=True, exist_ok=True)], one component after the
    other, [done] being the part of [p] already known to be a directory. *)
Fixpoint mkdir_from (fs : filesystem) (done : path) (todo : list string)
  : result filesystem :=
  match todo with
  | [] => Ok fs
  | c :: rest =>
      let q := done ++ [c] in
      match fs_lookup fs q with
      | Some Dir => mkdir_from fs q rest
      | Some (File _) =>
          match rest with
          | [] => Raise (FileExistsError q)
          | _ => Raise (NotADirectoryError (q ++ rest))
          end
      | None => mkdir_from (fs ++ [(q, Dir)]) q rest
      end
  end.

Definition mkdir_parents (p : path) : M unit :=
  fun w =>
    match mkdir_from (w_fs w) [] p with
    | Raise e => (Raise e, w)
    | Ok fs => (Ok tt, mk_world fs (w_trace w ++ [Mkdir p]))
    end.

(** ** [pathlib] globbing

    The matcher of one path component against a pattern
    ([fnmatch.fnmatch(name, pat)]) belongs to the Python library and is a
    parameter.  Model identifiers and file types hold no path separator,
    so that joining them to a directory adds whole components. *)

Class Pathlib : Type :=
  { fnmatch : string -> string -> bool }.

Fixpoint is_below (base p : path) : bool :=
  match base, p with
  | [], _ :: _ => true
  | b :: base', c :: p' => (b =? c) && is_below base' p'
  | _, _ => false
  end.

Definition is_child (base p : path) : bool :=
  match p with
  | [] => false
  | _ => path_eqb base (parent p)
  end.

Section Glob.

Context {pathlib : Pathlib}.

(** [base.glob('**/' + pat)]: every entry below [base], at any depth,
    whose name matches [pat]. *)
Definition glob_rec (fs : filesystem) (base : path) (pat : string)
  : list path :=
  filter (fun p => is_below base p && fnmatch (path_name p) pat)
    (map fst fs).

(** [base.glob(pat)] for a pattern of one component. *)
Definition glob_dir (fs : filesystem) (base : path) (pat : string)
  : list path :=
  filter (fun p => is_child base p && fnmatch (path_name p) pat)
    (map fst fs).

End Glob.

(** Order on paths, component by component, and [sorted] on paths. *)
Fixpoint path_ltb (p q : path) : bool :=
  match p, q with
  | [], [] => false
  | [], _ :: _ => true
  | _ :: _, [] => false
  | a :: p', b :: q' => Str.ltb a b || ((a =? b) && path_ltb p' q')
  end.

Definition path_leb (p q : path) : bool := negb (path_ltb q p).

Fixpoint insert_path (p : path) (l : list path) : list path :=
  match l with
  | [] => [p]
  | q :: r => if path_ltb q p then q :: insert_path p r else p :: q :: r
  end.

Fixpoint sorted (l : list path) : list path :=
  match l with
  | [] => []
  | p :: r => insert_path p (sorted r)
  end.

(** ** [retrieve_imgs] *)

(** [requests.get(url)]: what the remote archive answers, or the error
    of the HTTP client. *)
Class Requests : Type :=
  { requests_get : string -> result response }.

(** [resp.raise_for_status()]: raises for the client and server error
    statuses, 400 to 599. *)
Definition raise_for_status (resp : response) : M unit :=
  if ((400 <=? status_code resp) && (status_code resp <? 600))%Z
  then raise (HTTPError (status_code resp))
  else ret tt.

(** [f'{dt}_{tod}0000_{model}{filetype}'] *)
Definition remote_filename (dt tod model filetype : string) : string :=
  dt ++ "_" ++ tod ++ "0000_" ++ model ++ filetype.

(** [f'{BASE_URL}/data/upper/{dt}/{filename}'] *)
Definition remote_url (dt filename : string) : string :=
  BASE_URL ++ "/data/upper/" ++ dt ++ "/" ++ filename.

(** [[(TODAY - timedelta(days=x)).strftime('%Y%m%d')
      for x in range(span_days, 0, -1)]] *)
Definition dates_str (TODAY : datetime) (span_days : Z) : result (list string) :=
  traverse
    (fun x => match sub_days TODAY x with
              | Ok t => Ok (strftime_Ymd t)
              | Raise e => Raise e
              end)
    (range_down span_days).

(** The two run times of a day. *)
Definition run_times : list string := ["00"; "12"].

(** The body of [for tod in ['00', '12']]. *)
Definition add_url (model filetype : string) (filenames : list string)
  (dt : string) (url_dict : dict string) (tod : string) : dict string :=
  let filename := remote_filename dt tod model filetype in
  if str_in filename filenames then url_dict
  else dict_set filename (remote_url dt filename) url_dict.

(** The two nested loops that fill [url_dict]. *)
Definition build_url_dict (model filetype : string) (filenames : list string)
  (dates : list string) : dict string :=
  fold_left
    (fun url_dict dt =>
       fold_left (add_url model filetype filenames dt) run_times url_dict)
    dates [].

Section Retrieve.

Context {pathlib : Pathlib} {requests : Requests}.

Local Open Scope prog_scope.

(** [[x.name for x in DATA_DIR.glob(f'**/*{model}{filetype}')
      if x.is_file()]] *)
Definition cached_filenames (fs : filesystem) (model filetype : string)
  : list string :=
  map path_name
    (filter (is_file fs)
       (glob_rec fs DATA_DIR ("*" ++ model ++ filetype)%string)).

(** One turn of [for i, (filename, url) in enumerate(url_dict.items())]. *)
Definition fetch_one (model : string) (i : nat) (filename url : string)
  : M unit :=
  let filepath := DATA_DIR ++ [model; filename] in
  (if Nat.eqb i 0 then mkdir_parents (parent filepath) else ret tt) ;;
  emit (Get url) ;;
  resp <- lift (requests_get url) ;;
  if (status_code resp =? 200)%Z then
    write_file filepath (content resp) ;;
    sleep 3
  else
    raise_for_status resp.

Fixpoint fetch_loop (model : string) (i : nat) (items : dict string)
  : M unit :=
  match items with
  | [] => ret tt
  | (filename, url) :: rest =>
      fetch_one model i filename url ;;
      fetch_loop model (S i) rest
  end.

Definition retrieve_imgs (TODAY : datetime) (model filetype : string)
  (span_days : Z) : M unit :=
  dates <- lift (dates_str TODAY span_days) ;;
  fs <- get_fs ;;
  let filenames := cached_filenames fs model filetype in
  let url_dict := build_url_dict model filetype filenames dates in
  fetch_loop model 0 url_dict.

End Retrieve.

(** The requests issued and the files written, read off a trace. *)
Definition gets (tr : list event) : list string :=
  flat_map (fun e => match e with Get u => [u] | _ => [] end) tr.

Definition writes (tr : list event) : list path :=
  flat_map (fun e => match e with Write p => [p] | _ => [] end) tr.

(** ** [build_gif] *)

(** [PIL.Image]: decoding the bytes of a file into an image; the
    pictures an opened image holds, one for a still image and several
    for an animated one ([ImageSequence.Iterator]); the comparison by
    which the GIF writer finds that a picture does not differ from the
    frame before it; the bytes the writer produces for the frames it
    keeps, each with the number of pictures it stands for, the duration
    of a picture and the number of loops; and the pictures that a stored
    animation shows, one per frame written. *)
Class Pillow : Type :=
  { image : Type;
    image_decode : string -> option image;
    picture : Type;
    image_frames : image -> list picture;
    same_picture : picture -> picture -> bool;
    gif_write : list (picture * nat) -> Z -> Z -> string;
    gif_pictures : string -> list picture;
    gif_pictures_write :
      forall runs duration loop,
        gif_pictures (gif_write runs duration loop) = map fst runs }.

(** The frames the GIF writer keeps ([im_frames] of
    [_write_multiple_frames]): a picture that does not differ from the
    last frame kept is not written, its duration is added to that of
    that frame; [count] is the number of pictures [previous] stands for
    so far. *)
Fixpoint merge_frames {pillow : Pillow} (previous : picture) (count : nat)
  (rest : list picture) : list (picture * nat) :=
  match rest with
  | [] => [(previous, count)]
  | im_frame :: rest' =>
      if same_picture previous im_frame
      then merge_frames previous (S count) rest'
      else (previous, count) :: merge_frames im_frame 1 rest'
  end.

Definition im_frames {pillow : Pillow} (pics : list picture)
  : list (picture * nat) :=
  match pics with
  | [] => []
  | im_frame :: rest => merge_frames im_frame 1 rest
  end.

(** The bytes of [img.save(fp, format='GIF', save_all=True,
    append_images=imgs, duration=duration, loop=loop)] for the images
    [img :: imgs]: all the pictures of all the images, in turn, go
    through the writer. *)
Definition gif_encode {pillow : Pillow} (imgs : list image)
  (duration loop : Z) : string :=
  gif_write (im_frames (flat_map image_frames imgs)) duration loop.

Section BuildGif.

Context {pathlib : Pathlib} {pillow : Pillow}.

(** [Image.open(f)] *)
Definition image_open (fs : filesystem) (f : path) : result image :=
  match fs_read fs f with
  | Raise e => Raise e
  | Ok bytes =>
      match image_decode bytes with
      | Some img => Ok img
      | None => Raise (UnidentifiedImageError f)
      end
  end.

(** [sorted(DATA_DIR.joinpath(model).glob('**/*'))] *)
Definition frame_files (fs : filesystem) (model : string) : list path :=
  sorted (glob_rec fs (DATA_DIR ++ [model]) "*").

(** [DATA_DIR.joinpath(f'gifs/{model}_{TODAY:%F}.gif')] *)
Definition gif_path (TODAY : datetime) (model : string) : path :=
  DATA_DIR ++ ["gifs"; (model ++ "_" ++ strftime_F TODAY ++ ".gif")%string].

(** [img.save(fp, format='GIF', append_images=imgs, save_all=True,
    duration=300, loop=3)], where [imgs] opens the files of [rest]
    one after the other while the encoder asks for them.  [save] opens
    [fp] first; when a frame fails to open it removes [fp] if it had
    created it, and raises. *)
Definition save_gif (fp : path) (img : image) (rest : list path) : M unit :=
  fun w =>
    let fs := w_fs w in
    let created := negb (fs_exists fs fp) in
    match fs_open_w fs fp with
    | Raise e => (Raise e, w)
    | Ok fs1 =>
        match traverse (image_open fs1) rest with
        | Raise e =>
            (Raise e,
             mk_world (if created then fs_remove fs1 fp else fs1) (w_trace w))
        | Ok imgs =>
            (Ok tt,
             mk_world (fs_set fs1 fp (File (gif_encode (img :: imgs) 300 3)))
               (w_trace w ++ [Write fp]))
        end
    end.

Definition build_gif (TODAY : datetime) (model : string) : M unit :=
  fun w =>
    match frame_files (w_fs w) model with
    | [] => (Raise StopIteration, w)                  (* next(imgs) *)
    | f :: rest =>
        match image_open (w_fs w) f with
        | Raise e => (Raise e, w)
        | Ok img => save_gif (gif_path TODAY model) img rest w
        end
    end.

End BuildGif.

(** ** [send_slack_message_blocks] *)

Record WebClient : Type := mk_WebClient
  { token : string }.

(** The [data] of the answer to an upload: [data['ok']] and
    [data['file']['id']], when there is one. *)
Record upload_response : Type := mk_upload_response
  { ok : bool;
    file_id : option string }.

(** The two calls of the chat platform's client. *)
Class SlackApi : Type :=
  { files_upload_v2 :
      WebClient -> option string -> string -> string -> result upload_response;
    chat_postMessage :
      WebClient -> string -> string -> list block -> result unit }.

(** The model result map: for each model identifier, a dictionary with
    ['name'], ['filetype'] and, after its upload, ['gif-file-id']. *)
Definition model_map_t : Type := dict (dict string).

(** ['_'.join(name.split('_')[:-1])] *)
Definition model_of_gif_name (name : string) : string :=
  Str.join "_" (removelast (Str.split "_" name)).

(** The two blocks appended for one model. *)
Definition model_blocks (model_dict : dict string) : result (list block) :=
  match dict_item "name" model_dict with
  | Raise e => Raise e
  | Ok name =>
      match dict_item "gif-file-id" model_dict with
      | Raise e => Raise e
      | Ok id => Ok [ImageBlock name id "poopie"; DividerBlock]
      end
  end.

(** [for mname, model_dict in model_map.items(): blocks.append(...)] *)
Fixpoint append_model_blocks (items : model_map_t) (blocks : list block)
  : result (list block) :=
  match items with
  | [] => Ok blocks
  | (_, model_dict) :: rest =>
      match model_blocks model_dict with
      | Raise e => Raise e
      | Ok bs => append_model_blocks rest (blocks ++ bs)
      end
  end.

Definition compose_blocks (TODAY : datetime) (model_map : model_map_t)
  : result (list block) :=
  append_model_blocks model_map
    [HeaderBlock ("WX Report for " ++ strftime_F TODAY)%string].

Section Publish.

Context {pathlib : Pathlib} {slack : SlackApi}.

Local Open Scope prog_scope.

(** [[x for x in DATA_DIR.joinpath('gifs').glob(f'*{TODAY:%F}.gif')
      if x.is_file()]] *)
Definition todays_gifs (TODAY : datetime) (fs : filesystem) : list path :=
  filter (is_file fs)
    (glob_dir fs (DATA_DIR ++ ["gifs"])
       ("*" ++ strftime_F TODAY ++ ".gif")%string).

(** One turn of [for gif in gifs]. *)
Definition upload_one (props : dict string) (bot_client : WebClient)
  (model_map : model_map_t) (gif : path) : M model_map_t :=
  let mname := model_of_gif_name (path_name gif) in
  fs <- get_fs ;;
  bytes <- lift (fs_read fs gif) ;;
  emit (Upload (dict_get "private-chan" props) bytes mname) ;;
  fupld_resp <-
    lift (files_upload_v2 bot_client (dict_get "private-chan" props)
            bytes mname) ;;
  if ok fupld_resp then
    id <- lift (match file_id fupld_resp with
                | Some id => Ok id
                | None => Raise (KeyError "file")
                end) ;;
    model_dict <- lift (dict_item mname model_map) ;;
    ret (dict_set mname (dict_set "gif-file-id" id model_dict) model_map)
  else
    ret model_map.

Fixpoint upload_loop (props : dict string) (bot_client : WebClient)
  (model_map : model_map_t) (gifs : list path) : M model_map_t :=
  match gifs with
  | [] => ret model_map
  | gif :: rest =>
      model_map' <- upload_one props bot_client model_map gif ;;
      upload_loop props bot_client model_map' rest
  end.

(** The function returns nothing; the model map it has changed in place
    is returned here. *)
Definition send_slack_message_blocks (TODAY : datetime)
  (props : dict string) (bot_client : WebClient) (model_map : model_map_t)
  : M model_map_t :=
  fs <- get_fs ;;
  model_map' <- upload_loop props bot_client model_map (todays_gifs TODAY fs) ;;
  blocks <- lift (compose_blocks TODAY model_map') ;;
  sleep 3 ;;
  channel <- lift (dict_item "public-chan" props) ;;
  emit (Post channel "Daily WX report incoming!" blocks) ;;
  lift (chat_postMessage bot_client channel "Daily WX report incoming!" blocks) ;;
  ret model_map'.

End Publish.

(** ** The script's entry point *)

Definition model_map_0 : model_map_t :=
  [ ("upaCNTR_200", [("name", "Winds @ 200mb"); ("filetype", ".gif")]);
    ("KFWD", [("name", "Skew-T/Log-P"); ("filetype", ".png")]) ].

Section Main.

Context {pathlib : Pathlib} {requests : Requests} {pillow : Pillow}
  {slack : SlackApi}.

Local Open Scope prog_scope.

(** [for model_name, model_dict in model_map.items()] *)
Fixpoint per_model (TODAY : datetime) (items : model_map_t) : M unit :=
  match items with
  | [] => ret tt
  | (model_name, model_dict) :: rest =>
      filetype <- lift (dict_item "filetype" model_dict) ;;
      retrieve_imgs TODAY model_name filetype 5 ;;
      build_gif TODAY model_name ;;
      per_model TODAY rest
  end.

Definition main (TODAY : datetime) : M unit :=
  fs <- get_fs ;;
  props <- lift (read_secrets fs SECRETS_FILE) ;;
  bot_token <- lift (dict_item "bot-token" props) ;;
  user_token <- lift (dict_item "user-token" props) ;;
  let bot_client := mk_WebClient bot_token in
  per_model TODAY model_map_0 ;;
  send_slack_message_blocks TODAY props bot_client model_map_0 ;;
  ret tt.

End Main.

(** ** Concrete libraries, for running the embedding

    A matcher for patterns made of literal characters, [*] and [?]; an
    archive that answers every request with the same status; images that
    are their own bytes, every byte a picture, and animations that are
    the bytes of their frames; a chat platform that refuses the uploads
    titled with one given model. *)

Fixpoint wildcard_match (pat name : string) {struct pat} : bool :=
  match pat with
  | EmptyString => name =? ""
  | String c pat' =>
      if Ascii.eqb c "*" then
        (fix any_suffix (n : string) : bool :=
           wildcard_match pat' n
           || match n with
              | EmptyString => false
              | String _ n' => any_suffix n'
              end) name
      else
        match name with
        | EmptyString => false
        | String d name' =>
            (Ascii.eqb c "?" || Ascii.eqb c d) && wildcard_match pat' name'
        end
  end.

Definition wildcard_pathlib : Pathlib :=
  {| fnmatch name pat := wildcard_match pat name |}.

Definition constant_archive (status : Z) : Requests :=
  {| requests_get url := Ok (mk_response status "frame") |}.

Definition bytes_pillow : Pillow :=
  {| image := string;
     image_decode bytes := if bytes =? "" then None else Some bytes;
     picture := ascii;
     image_frames img := list_ascii_of_string img;
     same_picture := Ascii.eqb;
     gif_write runs duration loop := string_of_list_ascii (map fst runs);
     gif_pictures := list_ascii_of_string;
     gif_pictures_write runs duration loop :=
       list_ascii_of_string_of_list_ascii (map fst runs) |}.

Definition refusing_slack (refused : string) : SlackApi :=
  {| files_upload_v2 client channel bytes title :=
       if title =? refused then Ok (mk_upload_response false None)
       else Ok (mk_upload_response true (Some ("F-" ++ title)%string));
     chat_postMessage client channel text blocks := Ok tt |}.

(** A credential file with a comment and a blank line. *)
Definition secrets_text : string :=
  "# tokens" ++ String "010"
  ("bot-token=xoxb-1" ++ String "010"
  ("user-token= xoxp-2 " ++ String "010"
  (String "010"
  ("private-chan=C1" ++ String "010"
  ("public-chan=C2" ++ String "010" ""))))).

(** A credential file whose second key is written with blanks around it. *)
Definition secrets_text_padded : string :=
  "bot-token=xoxb-1" ++ String "010"
  (" user-token = xoxp-2 " ++ String "010" "").

Definition fs_padded_key : filesystem :=
  [ (["secretprops.properties"], File secrets_text_padded) ].

(** A cache holding the four frames of two days of the model [KFWD]. *)
Definition fs_two_days : filesystem :=
  [ (["secretprops.properties"], File secrets_text);
    (["data"], Dir);
    (["data"; "gifs"], Dir);
    (["data"; "KFWD"], Dir);
    (["data"; "KFWD"; "20240109_120000_KFWD.png"], File "d");
    (["data"; "KFWD"; "20240108_000000_KFWD.png"], File "a");
    (["data"; "KFWD"; "20240109_000000_KFWD.png"], File "c");
    (["data"; "KFWD"; "20240108_120000_KFWD.png"], File "b") ].

(** A cache of three frames of the model [KFWD], the second with the
    bytes of the first. *)
Definition fs_repeated_frame : filesystem :=
  [ (["data"], Dir);
    (["data"; "gifs"], Dir);
    (["data"; "KFWD"], Dir);
    (["data"; "KFWD"; "20240108_000000_KFWD.png"], File "a");
    (["data"; "KFWD"; "20240108_120000_KFWD.png"], File "a");
    (["data"; "KFWD"; "20240109_000000_KFWD.png"], File "b") ].

(** The same cache with the animations of 2024-01-10 of both models. *)
Definition fs_with_gifs : filesystem :=
  fs_two_days
  ++ [ (["data"; "gifs"; "upaCNTR_200_2024-01-10.gif"], File "winds");
       (["data"; "gifs"; "KFWD_2024-01-10.gif"], File "skewt") ].

Definition props_0 : dict string :=
  [("bot-token", "xoxb-1"); ("user-token", "xoxp-2");
   ("private-chan", "C1"); ("public-chan", "C2")].

Definition today_2024_01_10 : datetime := of_ymd 2024 1 10.

Definition world_two_days : world := mk_world fs_two_days [].

(** ** Predicates used in the statements *)

(** No white space at either end. *)
Definition trimmed (s : string) : Prop :=
  (forall c r, s = String c r -> Str.is_space c = false)
  /\ (forall r c, s = (r ++ String c EmptyString)%string -> Str.is_space c = false).

(** The date window of [retrieve_imgs] for [span_days = 5]: five distinct
    dates, the last one yesterday, the first one [oldest] days before
    today, today not among them. *)
Definition five_day_window (TODAY : datetime) (oldest : Z) : Prop :=
  exists dates,
    dates_str TODAY 5 = Ok dates
    /\ List.length dates = 5%nat
    /\ NoDup dates
    /\ last dates EmptyString = strftime_Ymd (days_ago TODAY 1)
    /\ hd EmptyString dates = strftime_Ymd (days_ago TODAY oldest)
    /\ ~ In (strftime_Ymd TODAY) dates.

(** The first statement of the loop body of [retrieve_imgs] on its own:
    the first turn makes the model's directory. *)
Definition prepare (model : string) (i : nat) (filename : string) : M unit :=
  if Nat.eqb i 0 then mkdir_parents (parent (DATA_DIR ++ [model; filename]))
  else ret tt.

(** The remote file name and the remote URL as the specification writes
    them, [{d:YYYYMMDD}_{HH}0000_{model}{ext}] and
    [{base_url}/data/upper/{YYYYMMDD}/{YYYYMMDD}_{HH}0000_{model}{ext}],
    for the date of [t]. *)
Definition spec_filename (t : datetime) (hh model ext : string) : string :=
  let '(y, m, d) := ord2ymd (ordinal t) in
  pad4 y ++ pad2 m ++ pad2 d ++ "_" ++ hh ++ "0000_" ++ model ++ ext.

Definition spec_url (t : datetime) (hh model ext : string) : string :=
  let '(y, m, d) := ord2ymd (ordinal t) in
  "https://weather.ral.ucar.edu" ++ "/data/upper/"
  ++ pad4 y ++ pad2 m ++ pad2 d ++ "/"
  ++ pad4 y ++ pad2 m ++ pad2 d ++ "_" ++ hh ++ "0000_" ++ model ++ ext.

(** One turn of the inner loop of [retrieve_imgs], for a pair of a date
    and a run time. *)
Definition visit (model filetype : string) (filenames : list string)
  (url_dict : dict string) (p : string * string) : dict string :=
  add_url model filetype filenames (fst p) url_dict (snd p).

(** The pairs of a date and a run time in the order the nested loops of
    [retrieve_imgs] visit them. *)
Definition date_run_times (dates : list string) : list (string * string) :=
  flat_map (fun dt => map (pair dt) run_times) dates.

(** A text without the wildcards [*] and [?]. *)
Definition literal (s : string) : bool :=
  negb (Str.contains "*" s) && negb (Str.contains "?" s).

(** [p <= q] in the order of paths. *)
Definition path_le (p q : path) : Prop := path_leb p q = true.

(** The messages posted, read off a trace. *)
Definition posts (tr : list event) : list (string * string * list block) :=
  flat_map (fun e => match e with
                     | Post channel text blocks => [(channel, text, blocks)]
                     | _ => []
                     end) tr.

(** The image block and the divider that the message holds for a model
    whose entry has a display name and an uploaded file identifier. *)
Definition blocks_of_model (item : string * dict string) : list block :=
  match dict_get "name" (snd item), dict_get "gif-file-id" (snd item) with
  | Some name, Some id => [ImageBlock name id "poopie"; DividerBlock]
  | _, _ => []
  end.

(** ** Further notions used in the statements *)

(** The entry of the URL dictionary for a pair of a date and a run time. *)
Definition queue_entry (model filetype : string) (p : string * string)
  : string * string :=
  (remote_filename (fst p) (snd p) model filetype,
   remote_url (fst p) (remote_filename (fst p) (snd p) model filetype)).

(** The entries of the pairs whose file name is not among [filenames], in
    the order of the pairs. *)
Definition window_queue (model filetype : string) (filenames : list string)
  (dates : list string) : dict string :=
  map (queue_entry model filetype)
    (filter
       (fun p => negb (str_in (remote_filename (fst p) (snd p) model filetype)
                         filenames))
       (date_run_times dates)).

(** The pauses, read off a trace. *)
Definition sleeps (tr : list event) : list Z :=
  flat_map (fun e => match e with Sleep s => [s] | _ => [] end) tr.

(** What one successful download adds to the trace. *)
Definition download_events (model : string) (item : string * string)
  : list event :=
  [Get (snd item); Write (DATA_DIR ++ [model; fst item]); Sleep 3].

(** The uploads, read off a trace. *)
Definition uploads (tr : list event) : list (option string * string * string) :=
  flat_map (fun e => match e with
                     | Upload channel file title => [(channel, file, title)]
                     | _ => []
                     end) tr.

(** No picture of the list is the same, for the writer, as the one before
    it. *)
Fixpoint adjacent_differ {pillow : Pillow} (pics : list picture) : bool :=
  match pics with
  | [] => true
  | p :: rest =>
      match rest with
      | [] => true
      | q :: _ => negb (same_picture p q) && adjacent_differ rest
      end
  end.

(** [frames] cuts [pics] into consecutive blocks: a frame is the first
    picture of its block with the length of the block, and the other
    pictures of the block are the same as it, for the writer. *)
Definition frames_of_blocks {pillow : Pillow} (pics : list picture)
  (frames : list (picture * nat)) : Prop :=
  exists blocks : list (list picture),
    pics = List.concat blocks
    /\ Forall2
         (fun frame block =>
            exists others,
              block = fst frame :: others
              /\ snd frame = List.length block
              /\ Forall (fun p => same_picture (fst frame) p = true) others)
         frames blocks.

(** [C7] as the specification words it: the animation that [build_gif]
    leaves at its output path shows as many frames as there are entries
    under the model's directory. *)
Definition one_frame_per_file {pathlib : Pathlib} {pillow : Pillow}
  (TODAY : datetime) (model : string) (w : world) : Prop :=
  exists bytes,
    fs_read (w_fs (snd (build_gif TODAY model w))) (gif_path TODAY model)
    = Ok bytes
    /\ List.length (gif_pictures bytes)
       = List.length (glob_rec (w_fs w) (DATA_DIR ++ [model]) "*").

(** [_days_in_month] *)
Definition days_in_month (year month : Z) : Z :=
  if (month =? 2)%Z && is_leap year then 29%Z else DAYS_IN_MONTH month.

(** The day of [month_day] is a day of its month, and the month and the
    day count back to [n]. *)
Definition month_day_fits (leapyear : bool) (n : Z) : bool :=
  let '(m, d) := month_day leapyear n in
  ((1 <=? m) && (m <=? 12) && (1 <=? d)
   && (d <=? (if (m =? 2) && leapyear then 29 else DAYS_IN_MONTH m))
   && (DAYS_BEFORE_MONTH m + (if (2 <? m) && leapyear then 1 else 0) + d
       =? n + 1))%Z.

(** The order of dates as triples of year, month and day. *)
Definition ymd_lt (a b : Z * Z * Z) : Prop :=
  let '(y1, m1, d1) := a in
  let '(y2, m2, d2) := b in
  (y1 < y2 \/ (y1 = y2 /\ (m1 < m2 \/ (m1 = m2 /\ d1 < d2))))%Z.

(** * Properties *)

(** ** Strings and dictionaries *)

Lemma cut_none (c : ascii) (s : string) :
  Str.cut c s = None <-> Str.contains c s = false.
Proof.
  induction s as [|a r IH]; simpl.
  - tauto.
  - destruct (Ascii.eqb a c); simpl.
    + split; discriminate.
    + destruct (Str.cut c r) as [[h t]|].
      * split; [discriminate|]. intros H. apply IH in H. discriminate.
      * split; [intros _; now apply IH | reflexivity].
Qed.

Lemma cut_some (c : ascii) (s h t : string) :
  Str.cut c s = Some (h, t) ->
  s = (h ++ String c t)%string /\ Str.contains c h = false.
Proof.
  revert h t. induction s as [|a r IH]; simpl; intros h t H.
  - discriminate.
  - destruct (Ascii.eqb a c) eqn:E.
    + apply Ascii.eqb_eq in E. subst a. inversion H; subst. now split.
    + destruct (Str.cut c r) as [[h' t']|]; [|discriminate].
      inversion H; subst. destruct (IH _ _ eq_refl) as [-> Hc].
      simpl. rewrite E. now split.
Qed.

Lemma cut_app (c : ascii) (h t : string) :
  Str.contains c h = false ->
  Str.cut c (h ++ String c t) = Some (h, t).
Proof.
  induction h as [|a r IH]; simpl; intros H.
  - now rewrite Ascii.eqb_refl.
  - apply orb_false_iff in H as [Ha Hr]. rewrite Ha, (IH Hr). reflexivity.
Qed.

Lemma lstrip_head (s : string) (c : ascii) (r : string) :
  Str.lstrip s = String c r -> Str.is_space c = false.
Proof.
  induction s as [|a s' IH]; simpl; [discriminate|].
  destruct (Str.is_space a) eqn:E; [exact IH|].
  intros H. inversion H; subst. exact E.
Qed.

Lemma rstrip_head (s : string) (c : ascii) (r : string) :
  Str.rstrip s = String c r -> exists r0, s = String c r0.
Proof.
  destruct s as [|a s']; simpl; [discriminate|].
  destruct (Str.rstrip s'); [destruct (Str.is_space a)|];
    intros H; inversion H; subst; eauto.
Qed.

Lemma rstrip_last (s r : string) (c : ascii) :
  Str.rstrip s = (r ++ String c EmptyString)%string -> Str.is_space c = false.
Proof.
  revert r. induction s as [|a s' IH]; simpl; intros r H.
  - destruct r; discriminate.
  - destruct (Str.rstrip s') as [|b t] eqn:E.
    + destruct (Str.is_space a) eqn:Ea.
      * destruct r; discriminate.
      * destruct r as [|x r']; simpl in H.
        -- inversion H; subst. exact Ea.
        -- inversion H as [[Hx Hr]]. destruct r'; discriminate.
    + destruct r as [|x r']; simpl in H.
      * inversion H.
      * inversion H as [[Hx Hr]]. apply (IH r'). exact Hr.
Qed.

Lemma strip_trimmed (s : string) : trimmed (Str.strip s).
Proof.
  unfold trimmed, Str.strip. split.
  - intros c r H. destruct (rstrip_head _ _ _ H) as [r0 H0].
    now apply lstrip_head in H0.
  - intros r c H. now apply rstrip_last in H.
Qed.

Lemma dict_set_In {V} (k k' : string) (v v' : V) (d : dict V) :
  In (k, v) (dict_set k' v' d) -> (k = k' /\ v = v') \/ In (k, v) d.
Proof.
  induction d as [|[q w] r IH]; simpl.
  - intros [H|[]]. inversion H; auto.
  - destruct (q =? k') eqn:E.
    + apply String.eqb_eq in E. subst q.
      intros [H|H]; [inversion H; auto | auto].
    + intros [H|H]; [auto|]. destruct (IH H); auto.
Qed.

Lemma dict_get_set_same {V} (k : string) (v : V) (d : dict V) :
  dict_get k (dict_set k v d) = Some v.
Proof.
  induction d as [|[q w] r IH]; simpl.
  - now rewrite String.eqb_refl.
  - destruct (q =? k) eqn:E; simpl; rewrite E; auto.
Qed.

Lemma dict_get_set_other {V} (k k' : string) (v : V) (d : dict V) :
  k <> k' -> dict_get k (dict_set k' v d) = dict_get k d.
Proof.
  intros Hne. induction d as [|[q w] r IH]; simpl.
  - destruct (k' =? k) eqn:E; [apply String.eqb_eq in E; congruence | reflexivity].
  - destruct (q =? k') eqn:E; simpl.
    + apply String.eqb_eq in E. subst q.
      destruct (k' =? k) eqn:E'; [apply String.eqb_eq in E'; congruence | reflexivity].
    + destruct (q =? k); auto.
Qed.

Lemma dict_keys_set {V} (k : string) (v : V) (d : dict V) :
  dict_keys (dict_set k v d)
  = if str_in k (dict_keys d) then dict_keys d else dict_keys d ++ [k].
Proof.
  unfold dict_keys, str_in. induction d as [|[q w] r IH]; simpl.
  - reflexivity.
  - rewrite (String.eqb_sym k q). destruct (q =? k) eqn:E; simpl.
    + reflexivity.
    + rewrite IH. destruct (existsb (String.eqb k) (map fst r)); reflexivity.
Qed.

Lemma str_in_In (x : string) (xs : list string) :
  str_in x xs = true <-> In x xs.
Proof.
  unfold str_in. rewrite existsb_exists. split.
  - intros [y [Hy E]]. apply String.eqb_eq in E. now subst.
  - intros H. exists x. split; [exact H | apply String.eqb_refl].
Qed.

(** ** [read_secrets] *)

Lemma read_secrets_loop_filter (items : list string) (secrets : dict string) :
  read_secrets_loop items secrets
  = read_secrets_loop (filter (fun item => negb (skipped item)) items) secrets.
Proof.
  revert secrets. induction items as [|item rest IH]; intros secrets; simpl.
  - reflexivity.
  - destruct (skipped item) eqn:E; simpl.
    + apply IH.
    + rewrite E. unfold Str.split_1.
      destruct (Str.cut "=" item) as [[k v]|]; [apply IH | reflexivity].
Qed.

Lemma read_secrets_loop_raises (items : list string) (secrets : dict string) :
  (exists item, In item items /\ skipped item = false
                /\ Str.contains "=" item = false)
  <-> (exists e, read_secrets_loop items secrets = Raise e).
Proof.
  revert secrets. induction items as [|item rest IH]; intros secrets; simpl.
  - split; [intros [i [[] _]] | intros [e H]; discriminate].
  - destruct (skipped item) eqn:E.
    + rewrite <- IH. split.
      * intros [i [[->|Hi] [Hs Hc]]]; [congruence | eauto].
      * intros [i [Hi H]]. eauto.
    + unfold Str.split_1. destruct (Str.cut "=" item) as [[k v]|] eqn:Ec.
      * rewrite <- IH. split.
        -- intros [i [[->|Hi] [Hs Hc]]]; [|eauto].
           apply cut_none in Hc. congruence.
        -- intros [i [Hi H]]. eauto.
      * split; [eauto|]. intros _. exists item.
        apply cut_none in Ec. auto.
Qed.

Lemma read_secrets_loop_error_kind (items : list string) (secrets : dict string)
  (e : exn) :
  read_secrets_loop items secrets = Raise e -> exists msg, e = ValueError msg.
Proof.
  revert secrets. induction items as [|item rest IH]; intros secrets; simpl.
  - discriminate.
  - destruct (skipped item); [apply IH|].
    unfold Str.split_1. destruct (Str.cut "=" item) as [[k v]|]; [apply IH|].
    intros H. inversion H. eauto.
Qed.

Lemma read_secrets_loop_entries (items : list string) (secrets d : dict string) :
  read_secrets_loop items secrets = Ok d ->
  forall k v, In (k, v) d ->
    In (k, v) secrets
    \/ exists item rest,
         In item items /\ skipped item = false
         /\ item = (k ++ "=" ++ rest)%string
         /\ Str.contains "=" k = false /\ v = Str.strip rest.
Proof.
  revert secrets. induction items as [|item rest IH]; intros secrets; simpl.
  - intros H k v Hin. inversion H; subst. auto.
  - destruct (skipped item) eqn:E.
    + intros H k v Hin. destruct (IH _ H k v Hin) as [?|[i [r [Hi Hr]]]]; [auto|].
      right. exists i, r. tauto.
    + unfold Str.split_1. destruct (Str.cut "=" item) as [[k0 v0]|] eqn:Ec;
        [|discriminate].
      intros H k v Hin. destruct (IH _ H k v Hin) as [Hs|[i [r [Hi Hr]]]].
      * apply dict_set_In in Hs as [[-> ->]|Hs]; [|auto].
        right. apply cut_some in Ec as [-> Hc]. exists (k0 ++ "=" ++ v0)%string, v0.
        simpl. auto.
      * right. exists i, r. tauto.
Qed.

Lemma dict_get_In {V} (k : string) (v : V) (d : dict V) :
  dict_get k d = Some v -> In (k, v) d.
Proof.
  induction d as [|[q w] r IH]; simpl; [discriminate|].
  destruct (q =? k) eqn:E.
  - apply String.eqb_eq in E. intros H. inversion H; subst. auto.
  - auto.
Qed.

Lemma dict_item_Ok {V} (k : string) (v : V) (d : dict V) :
  dict_item k d = Ok v <-> dict_get k d = Some v.
Proof.
  unfold dict_item. destruct (dict_get k d); split; congruence.
Qed.

(** C6.  Given the path of a readable file, [read_secrets] returns what
    it would return had every line whose stripped form starts with [#]
    or is empty been left out of the file; it raises the unpacking
    [ValueError] exactly when one of the other lines holds no [=], and
    returns a map otherwise. *)
Theorem read_secrets_skips_comments_and_raises_without_separator
  (fs : filesystem) (path_obj : path) (text : string) :
  fs_read fs path_obj = Ok text ->
  read_secrets fs path_obj
  = read_secrets_loop
      (filter (fun item => negb (skipped item)) (Str.readlines text)) []
  /\ ((exists item, In item (Str.readlines text) /\ skipped item = false
                    /\ Str.contains "=" item = false)
      <-> exists msg, read_secrets fs path_obj = Raise (ValueError msg))
  /\ ((forall item, In item (Str.readlines text) -> skipped item = false ->
                    Str.contains "=" item = true)
      <-> exists secrets, read_secrets fs path_obj = Ok secrets).
Proof.
  intros Hread. unfold read_secrets. rewrite Hread.
  split; [apply read_secrets_loop_filter|]. split.
  - rewrite (read_secrets_loop_raises _ []). split.
    + intros [e H]. destruct (read_secrets_loop_error_kind _ _ _ H) as [msg ->].
      eauto.
    + intros [msg H]. eauto.
  - split.
    + intros Hall.
      destruct (read_secrets_loop (Str.readlines text) []) as [d|e] eqn:E;
        [eauto|].
      assert (Hex : exists e, read_secrets_loop (Str.readlines text) [] = Raise e)
        by eauto.
      apply read_secrets_loop_raises in Hex as [item [Hin [Hs Hc]]].
      rewrite (Hall item Hin Hs) in Hc. discriminate.
    + intros [d Hd] item Hin Hs.
      destruct (Str.contains "=" item) eqn:Hc; [reflexivity|].
      assert (Hex : exists e, read_secrets_loop (Str.readlines text) [] = Raise e).
      { apply read_secrets_loop_raises. eauto. }
      destruct Hex as [e He]. congruence.
Qed.

Lemma read_secrets_skips_comments_and_raises_without_separator_witness :
  fs_read fs_two_days SECRETS_FILE = Ok secrets_text
  /\ read_secrets fs_two_days SECRETS_FILE
     = Ok [("bot-token", "xoxb-1"); ("user-token", "xoxp-2");
           ("private-chan", "C1"); ("public-chan", "C2")]
  /\ read_secrets fs_two_days SECRETS_FILE
     = read_secrets_loop
         (filter (fun item => negb (skipped item)) (Str.readlines secrets_text))
         [].
Proof.
  split; [reflexivity|]. split; [reflexivity|].
  apply (read_secrets_skips_comments_and_raises_without_separator
           fs_two_days SECRETS_FILE secrets_text).
  reflexivity.
Defined.

(** A line that is neither a comment nor blank and holds no [=] makes
    the whole load fail. *)
Example read_secrets_parse_error :
  read_secrets_loop ["a=1"; "# note"; "novalue"; "b=2"] []
  = Raise (ValueError "not enough values to unpack (expected 2, got 1)").
Proof. reflexivity. Qed.

(** C10.  Whenever looking a key up in the credential map succeeds, the
    value found is stripped of surrounding white space, and the key is,
    character for character, the text that some line of the file has
    before its first [=]: white space around a key is kept, so only a key
    written exactly as in the file is found. *)
Theorem read_secrets_strips_values_keeps_keys
  (fs : filesystem) (path_obj : path) (text : string)
  (secrets : dict string) (k v : string) :
  fs_read fs path_obj = Ok text ->
  read_secrets fs path_obj = Ok secrets ->
  dict_item k secrets = Ok v ->
  trimmed v
  /\ exists item rest,
       In item (Str.readlines text) /\ skipped item = false
       /\ item = (k ++ "=" ++ rest)%string
       /\ Str.contains "=" k = false
       /\ v = Str.strip rest.
Proof.
  intros Hread Hsecrets Hk. unfold read_secrets in Hsecrets.
  rewrite Hread in Hsecrets.
  apply dict_item_Ok, dict_get_In in Hk.
  destruct (read_secrets_loop_entries _ _ _ Hsecrets k v Hk)
    as [[]|[item [rest [Hin [Hs [Hi [Hc Hv]]]]]]].
  split.
  - subst v. apply strip_trimmed.
  - exists item, rest. auto.
Qed.

Lemma read_secrets_strips_values_keeps_keys_witness :
  fs_read fs_padded_key SECRETS_FILE = Ok secrets_text_padded
  /\ read_secrets fs_padded_key SECRETS_FILE
     = Ok [("bot-token", "xoxb-1"); (" user-token ", "xoxp-2")]
  /\ dict_item " user-token " [("bot-token", "xoxb-1"); (" user-token ", "xoxp-2")]
     = Ok "xoxp-2"
  /\ dict_item "user-token" [("bot-token", "xoxb-1"); (" user-token ", "xoxp-2")]
     = Raise (KeyError "user-token")
  /\ trimmed "xoxp-2"
  /\ exists item rest,
       In item (Str.readlines secrets_text_padded) /\ skipped item = false
       /\ item = (" user-token " ++ "=" ++ rest)%string
       /\ Str.contains "=" " user-token " = false
       /\ "xoxp-2" = Str.strip rest.
Proof.
  split; [reflexivity|]. split; [reflexivity|].
  split; [reflexivity|]. split; [reflexivity|].
  apply (read_secrets_strips_values_keeps_keys fs_padded_key SECRETS_FILE
           secrets_text_padded
           [("bot-token", "xoxb-1"); (" user-token ", "xoxp-2")]
           " user-token " "xoxp-2");
    reflexivity.
Defined.

(** The line [" bot-token =x"] stores its key with the blanks, and the
    lookup [props['bot-token']] raises. *)
Example read_secrets_key_keeps_whitespace :
  read_secrets_loop [" bot-token =x"] [] = Ok [(" bot-token ", "x")]
  /\ dict_item "bot-token" [(" bot-token ", "x")] = Raise (KeyError "bot-token")
  /\ dict_item " bot-token " [(" bot-token ", "x")] = Ok "x".
Proof. repeat split. Qed.

(** ** The calendar *)

Section Calendar.

Local Open Scope Z_scope.

Lemma forallb_range (P : Z -> bool) (k : nat) :
  forallb P (map Z.of_nat (seq 0 k)) = true ->
  forall n, 0 <= n < Z.of_nat k -> P n = true.
Proof.
  intros H n Hn. rewrite forallb_forall in H. apply H.
  apply in_map_iff. exists (Z.to_nat n). split; [lia|].
  apply in_seq. lia.
Qed.

Lemma month_day_spec (leapyear : bool) (n : Z) :
  0 <= n < (if leapyear then 366 else 365) -> month_day_ok leapyear n = true.
Proof.
  destruct leapyear; intros Hn.
  - apply (forallb_range (month_day_ok true) 366);
      [vm_compute; reflexivity | lia].
  - apply (forallb_range (month_day_ok false) 365);
      [vm_compute; reflexivity | lia].
Qed.

Lemma ord2ymd_unfold (n : Z) :
  ord2ymd n =
    let n0 := n - 1 in
    let n400 := n0 / 146097 in
    let r1 := n0 mod 146097 in
    let n100 := r1 / 36524 in
    let r2 := r1 mod 36524 in
    let n4 := r2 / 1461 in
    let r3 := r2 mod 1461 in
    let n1 := r3 / 365 in
    let r4 := r3 mod 365 in
    let year := n400 * 400 + 1 + n100 * 100 + n4 * 4 + n1 in
    if (n1 =? 4) || (n100 =? 4) then (year - 1, 12, 31)
    else
      let '(m, d) :=
        month_day ((n1 =? 3) && (negb (n4 =? 24) || (n100 =? 3))) r4 in
      (year, m, d).
Proof.
  unfold ord2ymd, month_day, DI400Y, DI100Y, DI4Y. cbv zeta.
  destruct ((_ =? 4) || (_ =? 4)); [reflexivity|].
  match goal with |- context [if ?c then _ else _] => destruct c end;
    reflexivity.
Qed.

Ltac euclid := Z.div_mod_to_equations; lia.

(** [_ymd2ord] undoes [_ord2ymd], which yields a date of the calendar. *)
Lemma ymd2ord_ord2ymd (n : Z) :
  1 <= n ->
  let '(y, m, d) := ord2ymd n in
  ymd2ord y m d = n /\ 1 <= y /\ 1 <= m <= 12 /\ 1 <= d <= 31.
Proof.
  intros Hn. rewrite ord2ymd_unfold. cbv zeta.
  set (n0 := n - 1).
  set (n400 := n0 / 146097). set (r1 := n0 mod 146097).
  set (n100 := r1 / 36524). set (r2 := r1 mod 36524).
  set (n4 := r2 / 1461). set (r3 := r2 mod 1461).
  set (n1 := r3 / 365). set (r4 := r3 mod 365).
  assert (H0 : 0 <= n0) by (unfold n0; lia).
  assert (E1 : n0 = 146097 * n400 + r1 /\ 0 <= r1 < 146097 /\ 0 <= n400)
    by (unfold n400, r1; euclid).
  assert (E2 : r1 = 36524 * n100 + r2 /\ 0 <= r2 < 36524 /\ 0 <= n100 <= 4)
    by (unfold n100, r2; euclid).
  assert (E3 : r2 = 1461 * n4 + r3 /\ 0 <= r3 < 1461 /\ 0 <= n4 <= 24)
    by (unfold n4, r3; euclid).
  assert (E4 : r3 = 365 * n1 + r4 /\ 0 <= r4 < 365 /\ 0 <= n1 <= 4)
    by (unfold n1, r4; euclid).
  clearbody n400 r1 n100 r2 n4 r3 n1 r4.
  destruct ((n1 =? 4) || (n100 =? 4)) eqn:Eedge.
  - unfold ymd2ord, days_before_year, days_before_month.
    simpl DAYS_BEFORE_MONTH. apply orb_true_iff in Eedge.
    assert (Hleap :
              is_leap (n400 * 400 + 1 + n100 * 100 + n4 * 4 + n1 - 1) = true).
    { unfold is_leap. destruct Eedge as [E|E]; apply Z.eqb_eq in E.
      - apply andb_true_iff; split; [apply Z.eqb_eq; euclid|].
        apply orb_true_iff; left. apply negb_true_iff, Z.eqb_neq. euclid.
      - apply andb_true_iff; split; [apply Z.eqb_eq; euclid|].
        apply orb_true_iff; right. apply Z.eqb_eq. euclid. }
    rewrite Hleap. change (2 <? 12) with true. cbv beta iota delta [andb].
    destruct Eedge as [E|E]; apply Z.eqb_eq in E; euclid.
  - apply orb_false_iff in Eedge as [Ea Eb].
    apply Z.eqb_neq in Ea, Eb.
    set (leap := (n1 =? 3) && (negb (n4 =? 24) || (n100 =? 3))).
    assert (Hr4 : 0 <= r4 < (if leap then 366 else 365))
      by (destruct leap; lia).
    pose proof (month_day_spec leap r4 Hr4) as Hmd.
    unfold month_day_ok in Hmd.
    destruct (month_day leap r4) as [m d].
    repeat (apply andb_true_iff in Hmd; destruct Hmd as [Hmd ?]).
    assert (Hleap :
              is_leap (n400 * 400 + 1 + n100 * 100 + n4 * 4 + n1) = leap).
    { unfold is_leap, leap.
      destruct (n1 =? 3) eqn:E1';
        [apply Z.eqb_eq in E1' | apply Z.eqb_neq in E1'].
      - destruct (n4 =? 24) eqn:E4';
          [apply Z.eqb_eq in E4' | apply Z.eqb_neq in E4'].
        + destruct (n100 =? 3) eqn:E100;
            [apply Z.eqb_eq in E100 | apply Z.eqb_neq in E100]; simpl.
          * apply andb_true_iff; split; [apply Z.eqb_eq; euclid|].
            apply orb_true_iff; right. apply Z.eqb_eq. euclid.
          * apply andb_false_iff; right. apply orb_false_iff. split.
            -- apply negb_false_iff, Z.eqb_eq. euclid.
            -- apply Z.eqb_neq. euclid.
        + simpl. apply andb_true_iff; split; [apply Z.eqb_eq; euclid|].
          apply orb_true_iff; left. apply negb_true_iff, Z.eqb_neq. euclid.
      - simpl. apply andb_false_iff; left. apply Z.eqb_neq. euclid. }
    unfold ymd2ord, days_before_year, days_before_month. rewrite Hleap.
    apply Z.eqb_eq in H. euclid.
Qed.

Lemma ord2ymd_year_bound (n : Z) :
  1 <= n <= MAXORDINAL -> fst (fst (ord2ymd n)) <= 9999.
Proof.
  intros [Hlo Hhi]. pose proof (ymd2ord_ord2ymd n Hlo) as H.
  destruct (ord2ymd n) as [[y m] d]. simpl.
  destruct H as [Hn [Hy [Hm Hd]]].
  unfold ymd2ord, days_before_year, days_before_month, MAXORDINAL in *.
  assert (0 <= DAYS_BEFORE_MONTH m).
  { assert (Hc : m = 1 \/ m = 2 \/ m = 3 \/ m = 4 \/ m = 5 \/ m = 6 \/ m = 7
                 \/ m = 8 \/ m = 9 \/ m = 10 \/ m = 11 \/ m = 12) by lia.
    repeat (destruct Hc as [->|Hc]; [simpl; lia|]). subst. simpl. lia. }
  destruct ((2 <? m) && is_leap y); euclid.
Qed.

Lemma digit_inj (a b : Z) :
  0 <= a < 10 -> 0 <= b < 10 -> digit a = digit b -> a = b.
Proof.
  intros Ha Hb H. unfold digit in H.
  apply (f_equal nat_of_ascii) in H.
  rewrite !nat_ascii_embedding in H by lia. lia.
Qed.

Lemma pad2_inj (a b : Z) :
  0 <= a < 100 -> 0 <= b < 100 -> pad2 a = pad2 b -> a = b.
Proof.
  intros Ha Hb H. unfold pad2 in H. injection H as H1 H2.
  apply digit_inj in H1; [|euclid|euclid].
  apply digit_inj in H2; [|euclid|euclid].
  euclid.
Qed.

Lemma pad4_inj (a b : Z) :
  0 <= a < 10000 -> 0 <= b < 10000 -> pad4 a = pad4 b -> a = b.
Proof.
  intros Ha Hb H. unfold pad4, pad2 in H. injection H as H1 H2 H3 H4.
  apply digit_inj in H1; [|euclid|euclid].
  apply digit_inj in H2; [|euclid|euclid].
  apply digit_inj in H3; [|euclid|euclid].
  apply digit_inj in H4; [|euclid|euclid].
  euclid.
Qed.

Lemma strftime_Ymd_length (t : datetime) :
  String.length (strftime_Ymd t) = 8%nat.
Proof.
  unfold strftime_Ymd. destruct (ord2ymd (ordinal t)) as [[y m] d].
  reflexivity.
Qed.

(** Two dates with the same [%Y%m%d] text are the same day. *)
Lemma strftime_Ymd_inj (t1 t2 : datetime) :
  valid t1 -> valid t2 ->
  strftime_Ymd t1 = strftime_Ymd t2 -> ordinal t1 = ordinal t2.
Proof.
  unfold valid. intros V1 V2 H.
  pose proof (ymd2ord_ord2ymd (ordinal t1) (proj1 V1)) as R1.
  pose proof (ymd2ord_ord2ymd (ordinal t2) (proj1 V2)) as R2.
  pose proof (ord2ymd_year_bound _ V1) as B1.
  pose proof (ord2ymd_year_bound _ V2) as B2.
  unfold strftime_Ymd in H.
  destruct (ord2ymd (ordinal t1)) as [[y1 m1] d1].
  destruct (ord2ymd (ordinal t2)) as [[y2 m2] d2].
  simpl in B1, B2.
  destruct R1 as [<- [Hy1 [Hm1 Hd1]]]. destruct R2 as [<- [Hy2 [Hm2 Hd2]]].
  assert (Hy : pad4 y1 = pad4 y2 /\ pad2 m1 = pad2 m2 /\ pad2 d1 = pad2 d2).
  { unfold pad4, pad2 in *. simpl in H.
    injection H as e1 e2 e3 e4 e5 e6 e7 e8.
    repeat split; congruence. }
  destruct Hy as [Ey [Em Ed]].
  apply pad4_inj in Ey; [|lia|lia].
  apply pad2_inj in Em; [|lia|lia].
  apply pad2_inj in Ed; [|lia|lia].
  congruence.
Qed.

End Calendar.

(** ** The date window *)

Section Window.

Local Open Scope Z_scope.

Lemma sub_days_ok (t : datetime) (x : Z) :
  0 < ordinal t - x <= MAXORDINAL -> sub_days t x = Ok (days_ago t x).
Proof.
  intros H. unfold sub_days, days_ago.
  assert (E : (0 <? ordinal t - x) && (ordinal t - x <=? MAXORDINAL) = true).
  { apply andb_true_iff. split; [apply Z.ltb_lt | apply Z.leb_le]; lia. }
  now rewrite E.
Qed.

Lemma countdown_bounds (n : nat) (x : Z) :
  In x (countdown n) <-> 1 <= x <= Z.of_nat n.
Proof.
  induction n as [|k IH].
  - simpl. lia.
  - change (countdown (S k)) with (Z.of_nat (S k) :: countdown k).
    simpl In. rewrite IH. lia.
Qed.

Lemma range_down_bounds (n x : Z) :
  In x (range_down n) <-> 1 <= x <= n.
Proof.
  unfold range_down. rewrite countdown_bounds. lia.
Qed.

Lemma countdown_NoDup (n : nat) : NoDup (countdown n).
Proof.
  induction n as [|k IH].
  - constructor.
  - change (countdown (S k)) with (Z.of_nat (S k) :: countdown k).
    constructor; [|exact IH]. rewrite countdown_bounds. lia.
Qed.

Lemma traverse_map {A B} (f : A -> result B) (g : A -> B) (xs : list A) :
  (forall x, In x xs -> f x = Ok (g x)) -> traverse f xs = Ok (map g xs).
Proof.
  induction xs as [|x r IH]; simpl; intros H.
  - reflexivity.
  - rewrite (H x) by auto. rewrite IH by auto. reflexivity.
Qed.

(** On a day from which [span_days] days can be counted back, the window
    is the list of the days [span_days], ..., 1 days ago. *)
Lemma dates_str_window (TODAY : datetime) (span_days : Z) :
  valid TODAY -> span_days < ordinal TODAY ->
  dates_str TODAY span_days
  = Ok (map (fun x => strftime_Ymd (days_ago TODAY x)) (range_down span_days)).
Proof.
  intros [Hlo Hhi] Hspan. unfold dates_str.
  apply (traverse_map _ (fun x => strftime_Ymd (days_ago TODAY x))).
  intros x Hx. apply range_down_bounds in Hx.
  rewrite sub_days_ok by lia. reflexivity.
Qed.

Lemma days_ago_valid (TODAY : datetime) (x : Z) :
  valid TODAY -> 0 <= x < ordinal TODAY -> valid (days_ago TODAY x).
Proof.
  unfold valid, days_ago. simpl. lia.
Qed.

Lemma window_NoDup (TODAY : datetime) (span_days : Z) :
  valid TODAY -> span_days < ordinal TODAY ->
  NoDup (map (fun x => strftime_Ymd (days_ago TODAY x)) (range_down span_days)).
Proof.
  intros HV Hspan. unfold range_down.
  assert (Hb : forall x, In x (countdown (Z.to_nat span_days)) ->
                         0 <= x < ordinal TODAY).
  { intros x Hx. apply countdown_bounds in Hx. lia. }
  induction (countdown_NoDup (Z.to_nat span_days)) as [|x l Hnin Hnd IH]; simpl.
  - constructor.
  - constructor.
    + intros Hin. apply in_map_iff in Hin as [y [Hy Hyl]].
      apply strftime_Ymd_inj in Hy;
        [| apply days_ago_valid; auto with datatypes
         | apply days_ago_valid; auto with datatypes ].
      simpl in Hy. assert (y = x) by lia. subst y. contradiction.
    + apply IH. intros y Hy. apply Hb. now right.
Qed.

Lemma window_excludes_today (TODAY : datetime) (span_days : Z) :
  valid TODAY -> span_days < ordinal TODAY ->
  ~ In (strftime_Ymd TODAY)
      (map (fun x => strftime_Ymd (days_ago TODAY x)) (range_down span_days)).
Proof.
  intros HV Hspan Hin. apply in_map_iff in Hin as [x [Hx Hin]].
  apply range_down_bounds in Hin.
  apply strftime_Ymd_inj in Hx; [| apply days_ago_valid; auto; lia | exact HV].
  simpl in Hx. lia.
Qed.

End Window.

(** C2, as the code has it.  For [span_days = 5] and any [TODAY] from
    which five days can be counted back, the window holds five distinct
    dates, the last one yesterday and the first one five days before
    today (four days before yesterday); today is not among them. *)
Theorem date_window_five_days_ending_yesterday (TODAY : datetime) :
  valid TODAY -> (5 < ordinal TODAY)%Z ->
  dates_str TODAY 5
  = Ok [ strftime_Ymd (days_ago TODAY 5); strftime_Ymd (days_ago TODAY 4);
         strftime_Ymd (days_ago TODAY 3); strftime_Ymd (days_ago TODAY 2);
         strftime_Ymd (days_ago TODAY 1) ]
  /\ five_day_window TODAY 5.
Proof.
  intros HV H5.
  pose proof (dates_str_window TODAY 5 HV H5) as Hw.
  pose proof (window_NoDup TODAY 5 HV H5) as Hnd.
  pose proof (window_excludes_today TODAY 5 HV H5) as Hex.
  change (range_down 5) with [5; 4; 3; 2; 1]%Z in *. simpl map in *.
  split; [exact Hw|].
  eexists. split; [exact Hw|]. repeat split; assumption.
Qed.

Lemma date_window_five_days_ending_yesterday_witness :
  valid today_2024_01_10 /\ (5 < ordinal today_2024_01_10)%Z
  /\ dates_str today_2024_01_10 5
     = Ok ["20240105"; "20240106"; "20240107"; "20240108"; "20240109"]
  /\ five_day_window today_2024_01_10 5.
Proof.
  assert (HV : valid today_2024_01_10) by (vm_compute; split; discriminate).
  assert (H5 : (5 < ordinal today_2024_01_10)%Z) by reflexivity.
  split; [exact HV|]. split; [exact H5|]. split; [reflexivity|].
  exact (proj2 (date_window_five_days_ending_yesterday today_2024_01_10 HV H5)).
Defined.

(** C2, as the specification states it, fails: on 2024-01-10 the oldest
    date of the window is 2024-01-05, not 2024-01-04, which lies six days
    back. *)
Lemma date_window_oldest_is_not_six_days_back :
  ~ five_day_window today_2024_01_10 6.
Proof.
  intros [dates [Hd [_ [_ [_ [Hhd _]]]]]].
  vm_compute in Hd. injection Hd as <-.
  vm_compute in Hhd. discriminate.
Qed.

(** ** The URL dictionary *)

Lemma string_app_assoc (a b c : string) :
  ((a ++ b) ++ c)%string = (a ++ (b ++ c))%string.
Proof.
  induction a as [|x a IH]; simpl; [reflexivity | now rewrite IH].
Qed.

Lemma string_app_inj_length (a a' b b' : string) :
  String.length a = String.length a' ->
  (a ++ b)%string = (a' ++ b')%string -> a = a' /\ b = b'.
Proof.
  revert a'. induction a as [|x a IH]; intros [|x' a']; simpl;
    try discriminate.
  - auto.
  - intros Hl H. injection Hl as Hl. injection H as -> H.
    destruct (IH a' Hl H) as [-> ->]. auto.
Qed.

Lemma build_url_dict_flat (model filetype : string) (filenames : list string)
  (dates : list string) (d : dict string) :
  fold_left
    (fun url_dict dt =>
       fold_left (add_url model filetype filenames dt) run_times url_dict)
    dates d
  = fold_left (visit model filetype filenames) (date_run_times dates) d.
Proof.
  revert d. induction dates as [|dt rest IH]; intros d; simpl.
  - reflexivity.
  - rewrite IH. reflexivity.
Qed.

Section UrlDict.

Variables (model filetype : string) (filenames : list string).

(** Every entry comes from a pair visited by the loops, has the file
    name and the URL built from that pair, and is not in the cache. *)
Lemma url_dict_sound (pairs : list (string * string)) (d : dict string)
  (filename url : string) :
  In (filename, url) (fold_left (visit model filetype filenames) pairs d) ->
  In (filename, url) d
  \/ exists dt tod,
       In (dt, tod) pairs
       /\ filename = remote_filename dt tod model filetype
       /\ url = remote_url dt filename
       /\ ~ In filename filenames.
Proof.
  revert d. induction pairs as [|[dt tod] rest IH]; intros d; simpl.
  - auto.
  - intros H. destruct (IH _ H) as [Hd|[dt' [tod' [Hin Hrest]]]].
    + unfold visit, add_url in Hd. simpl in Hd.
      destruct (str_in (remote_filename dt tod model filetype) filenames) eqn:E;
        [auto|].
      apply dict_set_In in Hd as [[-> ->]|Hd]; [|auto].
      right. exists dt, tod. repeat split; auto.
      intros Hc. apply str_in_In in Hc. congruence.
    + right. exists dt', tod'. tauto.
Qed.

Lemma url_dict_keeps (pairs : list (string * string)) (d : dict string)
  (dt tod : string) :
  (forall dt' tod', In (dt', tod') pairs -> String.length dt' = String.length dt) ->
  dict_get (remote_filename dt tod model filetype) d
  = Some (remote_url dt (remote_filename dt tod model filetype)) ->
  dict_get (remote_filename dt tod model filetype)
    (fold_left (visit model filetype filenames) pairs d)
  = Some (remote_url dt (remote_filename dt tod model filetype)).
Proof.
  revert d. induction pairs as [|[dt' tod'] rest IH]; intros d Hlen Hd; simpl.
  - exact Hd.
  - apply IH; [intros; eapply Hlen; right; eauto|].
    unfold visit, add_url. simpl.
    destruct (str_in (remote_filename dt' tod' model filetype) filenames);
      [exact Hd|].
    destruct (string_dec (remote_filename dt tod model filetype)
                (remote_filename dt' tod' model filetype)) as [E|E].
    + assert (dt' = dt) as ->.
      { unfold remote_filename in E. symmetry in E.
        apply string_app_inj_length in E; [tauto|].
        apply (Hlen dt' tod'). now left. }
      rewrite <- E. apply dict_get_set_same.
    + rewrite dict_get_set_other by exact E. exact Hd.
Qed.

(** Every pair visited whose file name is not in the cache is in the
    dictionary, with its URL. *)
Lemma url_dict_complete (pairs : list (string * string)) (d : dict string)
  (dt tod : string) :
  (forall dt1 tod1 dt2 tod2,
      In (dt1, tod1) pairs -> In (dt2, tod2) pairs ->
      String.length dt1 = String.length dt2) ->
  In (dt, tod) pairs ->
  ~ In (remote_filename dt tod model filetype) filenames ->
  dict_get (remote_filename dt tod model filetype)
    (fold_left (visit model filetype filenames) pairs d)
  = Some (remote_url dt (remote_filename dt tod model filetype)).
Proof.
  revert d. induction pairs as [|[dt' tod'] rest IH]; intros d Hlen Hin Hnc.
  - destruct Hin.
  - simpl. destruct Hin as [E|Hin].
    + injection E as -> ->. apply url_dict_keeps.
      * intros dt1 tod1 H1. apply (Hlen dt1 tod1 dt tod); simpl; auto.
      * unfold visit, add_url. simpl.
        destruct (str_in (remote_filename dt tod model filetype) filenames) eqn:Ec.
        -- apply str_in_In in Ec. contradiction.
        -- apply dict_get_set_same.
    + apply IH; auto. intros dt1 tod1 dt2 tod2 H1 H2.
      apply (Hlen dt1 tod1 dt2 tod2); simpl; auto.
Qed.

(** When every file name of the window is in the cache, nothing is
    queued. *)
Lemma url_dict_empty (pairs : list (string * string)) :
  (forall dt tod, In (dt, tod) pairs ->
                  In (remote_filename dt tod model filetype) filenames) ->
  fold_left (visit model filetype filenames) pairs [] = [].
Proof.
  induction pairs as [|[dt tod] rest IH]; intros H; simpl.
  - reflexivity.
  - unfold visit at 2, add_url. simpl.
    assert (E : str_in (remote_filename dt tod model filetype) filenames = true)
      by (apply str_in_In, H; now left).
    rewrite E. apply IH. intros; apply H; now right.
Qed.

End UrlDict.

Lemma in_date_run_times (dates : list string) (dt tod : string) :
  In (dt, tod) (date_run_times dates) <-> In dt dates /\ In tod run_times.
Proof.
  unfold date_run_times. rewrite in_flat_map. split.
  - intros [x [Hx Hin]]. apply in_map_iff in Hin as [t [E Ht]].
    injection E as -> ->. auto.
  - intros [Hd Ht]. exists dt. split; [exact Hd|].
    apply in_map_iff. eauto.
Qed.

Lemma spec_filename_eq (t : datetime) (hh model ext : string) :
  spec_filename t hh model ext = remote_filename (strftime_Ymd t) hh model ext.
Proof.
  unfold spec_filename, remote_filename, strftime_Ymd.
  destruct (ord2ymd (ordinal t)) as [[y m] d].
  now rewrite !string_app_assoc.
Qed.

Lemma spec_url_eq (t : datetime) (hh model ext : string) :
  spec_url t hh model ext
  = remote_url (strftime_Ymd t) (remote_filename (strftime_Ymd t) hh model ext).
Proof.
  unfold spec_url, remote_url, remote_filename, strftime_Ymd, BASE_URL.
  destruct (ord2ymd (ordinal t)) as [[y m] d].
  now rewrite !string_app_assoc.
Qed.

(** C4.  For every date of the window and each of the run times ["00"]
    and ["12"], the file name [retrieve_imgs] builds is
    [{d:YYYYMMDD}_{t}0000_{model}{ext}], year, month and day padded with
    zeros; unless that name is in the cache, the URL dictionary maps it
    to [{base_url}/data/upper/{YYYYMMDD}/{filename}].  The dictionary
    holds nothing else. *)
Theorem remote_filename_and_url_format
  (TODAY : datetime) (model filetype : string) (filenames : list string)
  (span_days : Z) :
  valid TODAY -> (span_days < ordinal TODAY)%Z ->
  exists dates,
    dates_str TODAY span_days = Ok dates
    /\ (forall x tod,
           (1 <= x <= span_days)%Z -> In tod run_times ->
           let d := days_ago TODAY x in
           In (strftime_Ymd d) dates
           /\ remote_filename (strftime_Ymd d) tod model filetype
              = spec_filename d tod model filetype
           /\ remote_url (strftime_Ymd d) (spec_filename d tod model filetype)
              = spec_url d tod model filetype
           /\ (In (spec_filename d tod model filetype) filenames
               \/ dict_get (spec_filename d tod model filetype)
                    (build_url_dict model filetype filenames dates)
                  = Some (spec_url d tod model filetype)))
    /\ (forall filename url,
           In (filename, url) (build_url_dict model filetype filenames dates) ->
           exists x tod,
             (1 <= x <= span_days)%Z /\ In tod run_times
             /\ filename = spec_filename (days_ago TODAY x) tod model filetype
             /\ url = spec_url (days_ago TODAY x) tod model filetype
             /\ ~ In filename filenames).
Proof.
  intros HV Hspan. eexists. split; [apply dates_str_window; assumption|].
  set (dates := map (fun x => strftime_Ymd (days_ago TODAY x))
                  (range_down span_days)).
  unfold build_url_dict. rewrite build_url_dict_flat. split.
  - intros x tod Hx Ht. cbv zeta. set (d := days_ago TODAY x).
    assert (Hin : In (strftime_Ymd d) dates).
    { apply in_map_iff. exists x. split; [reflexivity|].
      now apply range_down_bounds. }
    rewrite spec_url_eq, spec_filename_eq.
    repeat split; [exact Hin|].
    destruct (in_dec string_dec
                (remote_filename (strftime_Ymd d) tod model filetype) filenames)
      as [Hc|Hc]; [now left | right].
    apply url_dict_complete; [| now apply in_date_run_times | exact Hc].
    intros dt1 tod1 dt2 tod2 H1 H2.
    apply in_date_run_times in H1 as [H1 _], H2 as [H2 _].
    apply in_map_iff in H1 as [x1 [<- _]], H2 as [x2 [<- _]].
    now rewrite !strftime_Ymd_length.
  - intros filename url Hin.
    apply url_dict_sound in Hin as [[]|[dt [tod [Hp [Hf [Hu Hc]]]]]].
    apply in_date_run_times in Hp as [Hd Ht].
    apply in_map_iff in Hd as [x [<- Hx]]. apply range_down_bounds in Hx.
    exists x, tod. rewrite spec_url_eq, spec_filename_eq. subst. auto.
Qed.

Lemma remote_filename_and_url_format_witness :
  valid today_2024_01_10 /\ (2 < ordinal today_2024_01_10)%Z
  /\ spec_filename (days_ago today_2024_01_10 2) "12" "KFWD" ".png"
     = "20240108_120000_KFWD.png"
  /\ spec_url (days_ago today_2024_01_10 2) "12" "KFWD" ".png"
     = "https://weather.ral.ucar.edu/data/upper/20240108/20240108_120000_KFWD.png"
  /\ exists dates,
       dates_str today_2024_01_10 2 = Ok dates
       /\ (forall x tod,
              (1 <= x <= 2)%Z -> In tod run_times ->
              let d := days_ago today_2024_01_10 x in
              In (strftime_Ymd d) dates
              /\ remote_filename (strftime_Ymd d) tod "KFWD" ".png"
                 = spec_filename d tod "KFWD" ".png"
              /\ remote_url (strftime_Ymd d) (spec_filename d tod "KFWD" ".png")
                 = spec_url d tod "KFWD" ".png"
              /\ (In (spec_filename d tod "KFWD" ".png") ["20240108_000000_KFWD.png"]
                  \/ dict_get (spec_filename d tod "KFWD" ".png")
                       (build_url_dict "KFWD" ".png" ["20240108_000000_KFWD.png"]
                          dates)
                     = Some (spec_url d tod "KFWD" ".png")))
       /\ (forall filename url,
              In (filename, url)
                (build_url_dict "KFWD" ".png" ["20240108_000000_KFWD.png"] dates) ->
              exists x tod,
                (1 <= x <= 2)%Z /\ In tod run_times
                /\ filename
                   = spec_filename (days_ago today_2024_01_10 x) tod "KFWD" ".png"
                /\ url = spec_url (days_ago today_2024_01_10 x) tod "KFWD" ".png"
                /\ ~ In filename ["20240108_000000_KFWD.png"]).
Proof.
  assert (HV : valid today_2024_01_10) by (vm_compute; split; discriminate).
  split; [exact HV|]. split; [reflexivity|].
  split; [reflexivity|]. split; [reflexivity|].
  apply (remote_filename_and_url_format today_2024_01_10 "KFWD" ".png"
           ["20240108_000000_KFWD.png"] 2 HV).
  reflexivity.
Defined.

(** The queue built on 2024-01-10 for two days back, with one frame of
    2024-01-08 in the cache. *)
Example build_url_dict_run :
  build_url_dict "KFWD" ".png" ["20240108_000000_KFWD.png"]
    ["20240108"; "20240109"]
  = [ ("20240108_120000_KFWD.png",
       "https://weather.ral.ucar.edu/data/upper/20240108/20240108_120000_KFWD.png");
      ("20240109_000000_KFWD.png",
       "https://weather.ral.ucar.edu/data/upper/20240109/20240109_000000_KFWD.png");
      ("20240109_120000_KFWD.png",
       "https://weather.ral.ucar.edu/data/upper/20240109/20240109_120000_KFWD.png") ].
Proof. reflexivity. Qed.

(** ** The file system *)

Lemma path_eqb_eq (p q : path) : path_eqb p q = true <-> p = q.
Proof.
  revert q. induction p as [|a p IH]; intros [|b q]; simpl;
    try (split; congruence).
  rewrite andb_true_iff, String.eqb_eq, IH. split.
  - intros [-> ->]. reflexivity.
  - intros H. injection H as -> ->. auto.
Qed.

Lemma path_eqb_refl (p : path) : path_eqb p p = true.
Proof. now apply path_eqb_eq. Qed.

Lemma path_eqb_neq (p q : path) : p <> q -> path_eqb p q = false.
Proof.
  intros H. destruct (path_eqb p q) eqn:E; [|reflexivity].
  apply path_eqb_eq in E. contradiction.
Qed.

Lemma fs_lookup_set_same (fs : filesystem) (p : path) (n : node) :
  fs_lookup (fs_set fs p n) p = Some n.
Proof.
  induction fs as [|[q m] r IH]; simpl.
  - now rewrite path_eqb_refl.
  - destruct (path_eqb q p) eqn:E; simpl; now rewrite E.
Qed.

Lemma fs_lookup_set_other (fs : filesystem) (p q : path) (n : node) :
  p <> q -> fs_lookup (fs_set fs p n) q = fs_lookup fs q.
Proof.
  intros Hne. induction fs as [|[x m] r IH]; simpl.
  - now rewrite (path_eqb_neq p q Hne).
  - destruct (path_eqb x p) eqn:E; simpl.
    + apply path_eqb_eq in E. subst x. now rewrite (path_eqb_neq p q Hne).
    + now rewrite IH.
Qed.

Lemma fs_open_w_spec (fs fs1 : filesystem) (p : path) :
  fs_open_w fs p = Ok fs1 -> fs1 = fs_set fs p (File EmptyString).
Proof.
  unfold fs_open_w.
  destruct (is_dir fs p); [discriminate|].
  destruct (is_file fs p); [congruence|].
  destruct (is_dir fs (parent p)); [congruence|].
  destruct (fs_exists fs (parent p)); discriminate.
Qed.

Lemma fs_set_set (fs : filesystem) (p : path) (n m : node) :
  fs_set (fs_set fs p n) p m = fs_set fs p m.
Proof.
  induction fs as [|[q x] r IH]; simpl.
  - now rewrite path_eqb_refl.
  - destruct (path_eqb q p) eqn:E; simpl; rewrite E; [reflexivity|].
    now rewrite IH.
Qed.

Lemma fs_lookup_In (fs : filesystem) (p : path) (n : node) :
  fs_lookup fs p = Some n -> In p (map fst fs).
Proof.
  induction fs as [|[q m] r IH]; simpl; [discriminate|].
  destruct (path_eqb q p) eqn:E.
  - apply path_eqb_eq in E. auto.
  - auto.
Qed.

Lemma fs_lookup_app (fs l : filesystem) (p : path) (n : node) :
  fs_lookup fs p = Some n -> fs_lookup (fs ++ l) p = Some n.
Proof.
  induction fs as [|[q m] r IH]; simpl; [discriminate|].
  destruct (path_eqb q p); auto.
Qed.

(** Making directories leaves what is there as it is. *)
Lemma mkdir_from_keeps (todo : list string) (fs fs' : filesystem)
  (done p : path) (n : node) :
  mkdir_from fs done todo = Ok fs' ->
  fs_lookup fs p = Some n -> fs_lookup fs' p = Some n.
Proof.
  revert fs done. induction todo as [|c rest IH]; intros fs done; simpl.
  - congruence.
  - destruct (fs_lookup fs (done ++ [c])) as [[|]|] eqn:E.
    + destruct rest; discriminate.
    + apply IH.
    + intros H Hp. eapply IH; [exact H|]. now apply fs_lookup_app.
Qed.

Lemma is_file_set_file (fs : filesystem) (p q : path) (c : string) :
  is_file fs q = true -> is_file (fs_set fs p (File c)) q = true.
Proof.
  unfold is_file. destruct (list_eq_dec string_dec p q) as [->|Hne].
  - now rewrite fs_lookup_set_same.
  - now rewrite fs_lookup_set_other.
Qed.

Lemma traverse_ext {A B} (f g : A -> result B) (xs : list A) :
  (forall x, In x xs -> f x = g x) -> traverse f xs = traverse g xs.
Proof.
  induction xs as [|x r IH]; simpl; intros H; [reflexivity|].
  rewrite (H x) by auto. rewrite IH by auto. reflexivity.
Qed.

Lemma traverse_Forall2 {A B} (f : A -> result B) (xs : list A) (ys : list B) :
  traverse f xs = Ok ys -> Forall2 (fun x y => f x = Ok y) xs ys.
Proof.
  revert ys. induction xs as [|x r IH]; simpl; intros ys H.
  - injection H as <-. constructor.
  - destruct (f x) as [y|] eqn:E; [|discriminate].
    destruct (traverse f r) as [ys'|]; [|discriminate].
    injection H as <-. constructor; auto.
Qed.

(** ** [retrieve_imgs]: requests and writes *)

Section Fetch.

Context {pathlib : Pathlib} {requests : Requests}.

Lemma prepare_trace (model : string) (i : nat) (filename : string) (w : world) :
  exists evs,
    w_trace (snd (prepare model i filename w)) = w_trace w ++ evs
    /\ gets evs = [] /\ writes evs = [].
Proof.
  unfold prepare. destruct (Nat.eqb i 0).
  - unfold mkdir_parents. destruct (mkdir_from _ _ _); simpl.
    + exists [Mkdir (parent (DATA_DIR ++ [model; filename]))]. auto.
    + exists []. now rewrite app_nil_r.
  - exists []. simpl. now rewrite app_nil_r.
Qed.

Lemma prepare_raise_world (model : string) (i : nat) (filename : string)
  (w w1 : world) (e : exn) :
  prepare model i filename w = (Raise e, w1) -> w1 = w.
Proof.
  unfold prepare. destruct (Nat.eqb i 0).
  - unfold mkdir_parents. destruct (mkdir_from _ _ _); simpl; congruence.
  - unfold ret. congruence.
Qed.

(** One turn of the loop, case by case. *)
Lemma fetch_one_prepare_fails (model : string) (i : nat) (filename url : string)
  (w w1 : world) (e : exn) :
  prepare model i filename w = (Raise e, w1) ->
  fetch_one model i filename url w = (Raise e, w).
Proof.
  intros H. pose proof (prepare_raise_world _ _ _ _ _ _ H) as ->.
  unfold fetch_one, bind. fold (prepare model i filename). now rewrite H.
Qed.

Lemma fetch_one_get_fails (model : string) (i : nat) (filename url : string)
  (w w1 : world) (e : exn) :
  prepare model i filename w = (Ok tt, w1) ->
  requests_get url = Raise e ->
  fetch_one model i filename url w
  = (Raise e, mk_world (w_fs w1) (w_trace w1 ++ [Get url])).
Proof.
  intros Hp Hg. unfold fetch_one, bind. fold (prepare model i filename).
  rewrite Hp. simpl. unfold lift. now rewrite Hg.
Qed.

Lemma fetch_one_200 (model : string) (i : nat) (filename url : string)
  (w w1 : world) (resp : response) :
  prepare model i filename w = (Ok tt, w1) ->
  requests_get url = Ok resp ->
  status_code resp = 200%Z ->
  fetch_one model i filename url w
  = match fs_open_w (w_fs w1) (DATA_DIR ++ [model; filename]) with
    | Raise e => (Raise e, mk_world (w_fs w1) (w_trace w1 ++ [Get url]))
    | Ok fs =>
        (Ok tt,
         mk_world (fs_set fs (DATA_DIR ++ [model; filename]) (File (content resp)))
           (w_trace w1
            ++ [Get url; Write (DATA_DIR ++ [model; filename]); Sleep 3]))
    end.
Proof.
  intros Hp Hg Hs. unfold fetch_one, bind. fold (prepare model i filename).
  rewrite Hp. simpl. unfold lift. rewrite Hg, Hs. simpl.
  unfold write_file, sleep, emit. simpl.
  destruct (fs_open_w _ _); simpl; [now rewrite <- !app_assoc | reflexivity].
Qed.

(** A status other than 200: nothing is written, and what happens next
    is up to [raise_for_status]. *)
Lemma fetch_one_not_200 (model : string) (i : nat) (filename url : string)
  (w w1 : world) (resp : response) :
  prepare model i filename w = (Ok tt, w1) ->
  requests_get url = Ok resp ->
  status_code resp <> 200%Z ->
  fetch_one model i filename url w
  = (if ((400 <=? status_code resp) && (status_code resp <? 600))%Z
     then Raise (HTTPError (status_code resp))
     else Ok tt,
     mk_world (w_fs w1) (w_trace w1 ++ [Get url])).
Proof.
  intros Hp Hg Hs. unfold fetch_one, bind. fold (prepare model i filename).
  rewrite Hp. simpl. unfold lift. rewrite Hg.
  apply Z.eqb_neq in Hs. rewrite Hs. unfold raise_for_status.
  destruct ((400 <=? status_code resp)%Z && (status_code resp <? 600)%Z);
    reflexivity.
Qed.

Lemma gets_app (a b : list event) : gets (a ++ b) = gets a ++ gets b.
Proof. apply flat_map_app. Qed.

Lemma writes_app (a b : list event) : writes (a ++ b) = writes a ++ writes b.
Proof. apply flat_map_app. Qed.

Lemma fetch_one_trace (model : string) (i : nat) (filename url : string)
  (w : world) :
  exists evs,
    w_trace (snd (fetch_one model i filename url w)) = w_trace w ++ evs
    /\ (gets evs = [] \/ gets evs = [url])
    /\ incl (writes evs) [DATA_DIR ++ [model; filename]]
    /\ (fst (fetch_one model i filename url w) = Ok tt -> gets evs = [url]).
Proof.
  destruct (prepare_trace model i filename w) as [evs0 [Ht0 [Hg0 Hw0]]].
  destruct (prepare model i filename w) as [[[]|e] w1] eqn:Hp; simpl in Ht0.
  - destruct (requests_get url) as [resp|e] eqn:Hg.
    + destruct (Z.eq_dec (status_code resp) 200) as [Hs|Hs].
      * rewrite (fetch_one_200 _ _ _ _ _ _ _ Hp Hg Hs).
        destruct (fs_open_w _ _); simpl; rewrite Ht0, <- app_assoc;
          eexists; (split; [reflexivity|]);
          rewrite gets_app, writes_app, Hg0, Hw0; simpl;
          repeat split; auto using incl_refl, incl_nil_l.
      * rewrite (fetch_one_not_200 _ _ _ _ _ _ _ Hp Hg Hs). simpl.
        rewrite Ht0, <- app_assoc. eexists. split; [reflexivity|].
        rewrite gets_app, writes_app, Hg0, Hw0; simpl.
        repeat split; auto using incl_refl, incl_nil_l.
    + rewrite (fetch_one_get_fails _ _ _ _ _ _ _ Hp Hg). simpl.
      rewrite Ht0, <- app_assoc. eexists. split; [reflexivity|].
      rewrite gets_app, writes_app, Hg0, Hw0; simpl.
      repeat split; auto using incl_refl, incl_nil_l.
  - rewrite (fetch_one_prepare_fails _ _ _ _ _ _ _ Hp). simpl.
    exists []. rewrite app_nil_r. simpl.
    repeat split; auto using incl_nil_l. discriminate.
Qed.

(** The requests of a run of the loop are a prefix of the queue's URLs,
    the whole of them when the loop returns; the files written are
    among the queue's. *)
Lemma fetch_loop_trace (model : string) (items : dict string) (i : nat)
  (w : world) :
  exists evs,
    w_trace (snd (fetch_loop model i items w)) = w_trace w ++ evs
    /\ (exists k, gets evs = firstn k (map snd items))
    /\ incl (writes evs) (map (fun f => DATA_DIR ++ [model; f]) (map fst items))
    /\ (fst (fetch_loop model i items w) = Ok tt -> gets evs = map snd items).
Proof.
  revert i w. induction items as [|[filename url] rest IH]; intros i w.
  - exists []. simpl. rewrite app_nil_r.
    repeat split; auto using incl_nil_l. now exists 0%nat.
  - simpl. unfold bind.
    destruct (fetch_one_trace model i filename url w)
      as [e1 [Ht1 [Hg1 [Hw1 Hok1]]]].
    destruct (fetch_one model i filename url w) as [[[]|e] w1]; simpl in *.
    + destruct (IH (S i) w1) as [e2 [Ht2 [[k Hk] [Hw2 Hok2]]]].
      exists (e1 ++ e2). rewrite Ht2, Ht1, app_assoc.
      rewrite gets_app, writes_app, (Hok1 eq_refl). repeat split.
      * exists (S k). simpl. now rewrite Hk.
      * apply incl_app; [|now apply incl_tl].
        intros p Hp. apply Hw1 in Hp as [<-|[]]. now left.
      * intros H. now rewrite (Hok2 H).
    + exists e1. repeat split; auto.
      * destruct Hg1 as [Hc|Hc]; rewrite Hc;
          [exists 0%nat | exists 1%nat]; reflexivity.
      * intros p Hp. apply Hw1 in Hp as [<-|[]]. now left.
      * discriminate.
Qed.

Lemma prepare_keeps_files (model : string) (i : nat) (filename : string)
  (w : world) (p : path) :
  is_file (w_fs w) p = true ->
  is_file (w_fs (snd (prepare model i filename w))) p = true.
Proof.
  unfold prepare. destruct (Nat.eqb i 0); [|auto].
  unfold mkdir_parents.
  destruct (mkdir_from (w_fs w) [] _) as [fs'|] eqn:E; [|auto].
  cbn [snd w_fs]. unfold is_file.
  destruct (fs_lookup (w_fs w) p) as [[c|]|] eqn:El; try discriminate.
  intros _. now rewrite (mkdir_from_keeps _ _ _ _ _ _ E El).
Qed.

(** Files stay files through a turn of the loop, and what the turn
    writes is a file afterwards. *)
Lemma fetch_one_files (model : string) (i : nat) (filename url : string)
  (w : world) :
  exists evs,
    w_trace (snd (fetch_one model i filename url w)) = w_trace w ++ evs
    /\ (forall p, is_file (w_fs w) p = true ->
                  is_file (w_fs (snd (fetch_one model i filename url w))) p = true)
    /\ (forall p, In p (writes evs) ->
                  is_file (w_fs (snd (fetch_one model i filename url w))) p = true).
Proof.
  destruct (prepare_trace model i filename w) as [evs0 [Ht0 [Hg0 Hw0]]].
  pose proof (prepare_keeps_files model i filename w) as Hk0.
  destruct (prepare model i filename w) as [[[]|e] w1] eqn:Hp;
    cbn [snd] in Ht0, Hk0.
  - destruct (requests_get url) as [resp|e] eqn:Hg.
    + destruct (Z.eq_dec (status_code resp) 200) as [Hs|Hs].
      * rewrite (fetch_one_200 _ _ _ _ _ _ _ Hp Hg Hs).
        destruct (fs_open_w (w_fs w1) (DATA_DIR ++ [model; filename]))
          as [fs1|] eqn:Eo; cbn [snd w_fs w_trace];
          rewrite Ht0, <- app_assoc; eexists; (split; [reflexivity|]);
          rewrite writes_app, Hw0.
        -- apply fs_open_w_spec in Eo. subst fs1. rewrite fs_set_set. split.
           ++ intros p Hf. apply is_file_set_file. auto.
           ++ intros p [<-|[]]. unfold is_file. now rewrite fs_lookup_set_same.
        -- split; [auto | intros p []].
      * rewrite (fetch_one_not_200 _ _ _ _ _ _ _ Hp Hg Hs).
        cbn [snd w_fs w_trace]. rewrite Ht0, <- app_assoc.
        eexists. split; [reflexivity|]. rewrite writes_app, Hw0.
        split; [auto | intros p []].
    + rewrite (fetch_one_get_fails _ _ _ _ _ _ _ Hp Hg).
      cbn [snd w_fs w_trace]. rewrite Ht0, <- app_assoc.
      eexists. split; [reflexivity|]. rewrite writes_app, Hw0.
      split; [auto | intros p []].
  - rewrite (fetch_one_prepare_fails _ _ _ _ _ _ _ Hp). cbn [snd].
    exists []. rewrite app_nil_r. split; [reflexivity|].
    split; [auto | intros p []].
Qed.

Lemma fetch_loop_files (model : string) (items : dict string) (i : nat)
  (w : world) :
  exists evs,
    w_trace (snd (fetch_loop model i items w)) = w_trace w ++ evs
    /\ (forall p, is_file (w_fs w) p = true ->
                  is_file (w_fs (snd (fetch_loop model i items w))) p = true)
    /\ (forall p, In p (writes evs) ->
                  is_file (w_fs (snd (fetch_loop model i items w))) p = true).
Proof.
  revert i w. induction items as [|[filename url] rest IH]; intros i w.
  - exists []. simpl. rewrite app_nil_r. split; [reflexivity|].
    split; [auto | intros p []].
  - simpl. unfold bind.
    destruct (fetch_one_files model i filename url w) as [e1 [Ht1 [Hk1 Hw1]]].
    destruct (fetch_one model i filename url w) as [[[]|e] w1]; cbn [snd] in *.
    + destruct (IH (S i) w1) as [e2 [Ht2 [Hk2 Hw2]]].
      exists (e1 ++ e2). rewrite Ht2, Ht1, app_assoc. split; [reflexivity|].
      split; [auto|]. intros p Hp. rewrite writes_app in Hp.
      apply in_app_or in Hp as [Hp|Hp]; auto.
    + exists e1. auto.
Qed.

End Fetch.

Section Retrieval.

Context {pathlib : Pathlib} {requests : Requests}.

Lemma retrieve_imgs_unfold (TODAY : datetime) (model filetype : string)
  (span_days : Z) (w : world) :
  retrieve_imgs TODAY model filetype span_days w
  = match dates_str TODAY span_days with
    | Raise e => (Raise e, w)
    | Ok dates =>
        fetch_loop model 0
          (build_url_dict model filetype
             (cached_filenames (w_fs w) model filetype) dates) w
    end.
Proof.
  unfold retrieve_imgs, bind, lift, get_fs.
  destruct (dates_str TODAY span_days); reflexivity.
Qed.

Lemma In_firstn {A} (x : A) (k : nat) (l : list A) :
  In x (firstn k l) -> In x l.
Proof.
  revert l. induction k as [|k IH]; intros [|a l]; simpl; try tauto.
  intros [H|H]; auto.
Qed.

Lemma url_dict_entry (model filetype : string) (filenames dates : list string)
  (filename url : string) :
  In (filename, url) (build_url_dict model filetype filenames dates) ->
  exists dt tod,
    In dt dates /\ In tod run_times
    /\ filename = remote_filename dt tod model filetype
    /\ url = remote_url dt filename
    /\ ~ In filename filenames.
Proof.
  unfold build_url_dict. rewrite build_url_dict_flat. intros H.
  apply url_dict_sound in H as [[]|[dt [tod [Hp Hrest]]]].
  apply in_date_run_times in Hp as [Hd Ht]. exists dt, tod. tauto.
Qed.

Lemma string_app_inv_head (a b c : string) :
  (a ++ b)%string = (a ++ c)%string -> b = c.
Proof.
  induction a as [|x a IH]; simpl; [auto|]. intros H. injection H as H. auto.
Qed.

Lemma remote_url_inj (dt dt' f f' : string) :
  String.length dt = String.length dt' ->
  remote_url dt f = remote_url dt' f' -> dt = dt' /\ f = f'.
Proof.
  unfold remote_url. intros Hl H.
  apply string_app_inv_head, string_app_inv_head in H.
  apply string_app_inj_length in H as [-> H]; [|exact Hl].
  apply string_app_inv_head in H. auto.
Qed.

Lemma traverse_In {A B} (f : A -> result B) (xs : list A) (ys : list B) (y : B) :
  traverse f xs = Ok ys -> In y ys -> exists x, In x xs /\ f x = Ok y.
Proof.
  intros H. apply traverse_Forall2 in H.
  induction H as [|x y' xs' ys' Hxy HF IH]; intros Hin.
  - destruct Hin.
  - destruct Hin as [<-|Hin].
    + exists x. split; [now left | exact Hxy].
    + destruct (IH Hin) as [x0 [Hx0 Hf]]. exists x0. split; [now right | exact Hf].
Qed.

Lemma dates_str_length (TODAY : datetime) (span_days : Z) (dates : list string)
  (dt : string) :
  dates_str TODAY span_days = Ok dates -> In dt dates ->
  String.length dt = 8%nat.
Proof.
  intros H Hin. destruct (traverse_In _ _ _ _ H Hin) as [x [_ Hx]].
  destruct (sub_days TODAY x) as [t|]; [|discriminate].
  injection Hx as <-. apply strftime_Ymd_length.
Qed.

Lemma cached_filenames_spec (fs : filesystem) (model filetype : string)
  (p : path) :
  is_file fs p = true -> is_below DATA_DIR p = true ->
  fnmatch (path_name p) ("*" ++ model ++ filetype) = true ->
  In (path_name p) (cached_filenames fs model filetype).
Proof.
  intros Hf Hb Hm. unfold cached_filenames. apply in_map.
  apply filter_In. split; [|exact Hf].
  unfold glob_rec. apply filter_In. split.
  - unfold is_file in Hf. destruct (fs_lookup fs p) eqn:E; [|discriminate].
    eapply fs_lookup_In; eauto.
  - now rewrite Hb, Hm.
Qed.

(** What a run requests and writes.  Every request is for a date of the
    window and a run time whose file name the scan of the cache did not
    report; the frame of a date and run time whose file name the scan
    reported is not requested, and its file is not written; a file the
    run writes is reported by the scan of the cache it leaves behind, as
    long as the matcher lets its name through. *)
Lemma retrieve_imgs_events (TODAY : datetime)
  (model filetype : string) (span_days : Z) (w : world) :
  exists evs,
    w_trace (snd (retrieve_imgs TODAY model filetype span_days w))
    = w_trace w ++ evs
    /\ (forall url,
           In url (gets evs) ->
           exists dt tod,
             url = remote_url dt (remote_filename dt tod model filetype)
             /\ ~ In (remote_filename dt tod model filetype)
                  (cached_filenames (w_fs w) model filetype))
    /\ (forall d tod,
           In (spec_filename d tod model filetype)
             (cached_filenames (w_fs w) model filetype) ->
           ~ In (spec_url d tod model filetype) (gets evs))
    /\ (forall filename,
           In filename (cached_filenames (w_fs w) model filetype) ->
           ~ In (DATA_DIR ++ [model; filename]) (writes evs))
    /\ (forall filename,
           In (DATA_DIR ++ [model; filename]) (writes evs) ->
           fnmatch filename ("*" ++ model ++ filetype) = true ->
           In filename
             (cached_filenames
                (w_fs (snd (retrieve_imgs TODAY model filetype span_days w)))
                model filetype)).
Proof.
  rewrite retrieve_imgs_unfold.
  destruct (dates_str TODAY span_days) as [dates|e] eqn:Hdates.
  - set (cached := cached_filenames (w_fs w) model filetype).
    set (items := build_url_dict model filetype cached dates).
    destruct (fetch_loop_trace model items 0 w) as [evs [Ht [[k Hk] [Hw _]]]].
    destruct (fetch_loop_files model items 0 w) as [evs' [Ht' [_ Hw']]].
    assert (evs' = evs) as ->.
    { rewrite Ht in Ht'. now apply app_inv_head in Ht'. }
    assert (Hget : forall url, In url (gets evs) ->
              exists dt tod,
                In dt dates
                /\ url = remote_url dt (remote_filename dt tod model filetype)
                /\ ~ In (remote_filename dt tod model filetype) cached).
    { intros url Hin. rewrite Hk in Hin. apply In_firstn in Hin.
      apply in_map_iff in Hin as [[f u] [Hu Hin]]. simpl in Hu. subst u.
      apply url_dict_entry in Hin as [dt [tod [Hd [_ [Hf [Hu Hc]]]]]].
      exists dt, tod. subst f. auto. }
    exists evs. split; [exact Ht|]. split; [|split; [|split]].
    + intros url Hin. destruct (Hget url Hin) as [dt [tod [_ H]]]. eauto.
    + intros d tod Hc Hin. rewrite spec_filename_eq in Hc.
      rewrite spec_url_eq in Hin.
      destruct (Hget _ Hin) as [dt [tod' [Hd [Hu Hn]]]].
      apply remote_url_inj in Hu as [_ Hf].
      * rewrite <- Hf in Hn. contradiction.
      * rewrite strftime_Ymd_length. symmetry.
        eapply dates_str_length; eauto.
    + intros filename Hc Hin. apply Hw in Hin.
      apply in_map_iff in Hin as [f [Hf Hin]].
      apply app_inv_head in Hf. injection Hf as ->.
      apply in_map_iff in Hin as [[f u] [Hf Hin]]. simpl in Hf. subst f.
      apply url_dict_entry in Hin as [dt [tod [_ [_ [_ [_ Hn]]]]]].
      contradiction.
    + intros filename Hin Hm. apply Hw' in Hin.
      apply (cached_filenames_spec _ model filetype
               (DATA_DIR ++ [model; filename])); auto.
  - exists []. cbn [snd]. rewrite app_nil_r. split; [reflexivity|].
    split; [intros url []|]. split; [intros d tod _ []|].
    split; [intros filename _ [] | intros filename []].
Qed.

Lemma retrieve_imgs_all_cached (TODAY : datetime) (model filetype : string)
  (span_days : Z) (w : world) :
  (forall dates dt tod,
      dates_str TODAY span_days = Ok dates -> In dt dates -> In tod run_times ->
      In (remote_filename dt tod model filetype)
        (cached_filenames (w_fs w) model filetype)) ->
  snd (retrieve_imgs TODAY model filetype span_days w) = w.
Proof.
  intros H. rewrite retrieve_imgs_unfold.
  destruct (dates_str TODAY span_days) as [dates|e]; [|reflexivity].
  unfold build_url_dict. rewrite build_url_dict_flat, url_dict_empty.
  - reflexivity.
  - intros dt tod Hp. apply in_date_run_times in Hp as [Hd Ht].
    now apply (H dates).
Qed.

End Retrieval.

(** C1.  A run of [retrieve_imgs] requests and writes only file names
    that the scan of the cache did not report: the frame of a date and a
    run time whose file name is found in the cache is never fetched
    again, and a file that the run writes is found by the scan of the
    cache it leaves behind, provided the matcher lets its name through.
    When the scan reports every file name of the date window, the run
    leaves the world as it found it, with no request issued and no file
    written, and so does every run after it. *)
Theorem retrieve_imgs_never_refetches_cached
  {pathlib : Pathlib} {requests : Requests}
  (TODAY : datetime) (model filetype : string) (span_days : Z) (w : world) :
  (exists evs,
      w_trace (snd (retrieve_imgs TODAY model filetype span_days w))
      = w_trace w ++ evs
      /\ (forall url,
             In url (gets evs) ->
             exists dt tod,
               url = remote_url dt (remote_filename dt tod model filetype)
               /\ ~ In (remote_filename dt tod model filetype)
                    (cached_filenames (w_fs w) model filetype))
      /\ (forall d tod,
             In (spec_filename d tod model filetype)
               (cached_filenames (w_fs w) model filetype) ->
             ~ In (spec_url d tod model filetype) (gets evs))
      /\ (forall filename,
             In filename (cached_filenames (w_fs w) model filetype) ->
             ~ In (DATA_DIR ++ [model; filename]) (writes evs))
      /\ (forall filename,
             In (DATA_DIR ++ [model; filename]) (writes evs) ->
             fnmatch filename ("*" ++ model ++ filetype) = true ->
             In filename
               (cached_filenames
                  (w_fs (snd (retrieve_imgs TODAY model filetype span_days w)))
                  model filetype)))
  /\ ((forall dates dt tod,
          dates_str TODAY span_days = Ok dates ->
          In dt dates -> In tod run_times ->
          In (remote_filename dt tod model filetype)
            (cached_filenames (w_fs w) model filetype)) ->
      snd (retrieve_imgs TODAY model filetype span_days w) = w
      /\ gets (w_trace (snd (retrieve_imgs TODAY model filetype span_days w)))
         = gets (w_trace w)
      /\ writes (w_trace (snd (retrieve_imgs TODAY model filetype span_days w)))
         = writes (w_trace w)
      /\ retrieve_imgs TODAY model filetype span_days
           (snd (retrieve_imgs TODAY model filetype span_days w))
         = retrieve_imgs TODAY model filetype span_days w).
Proof.
  split; [apply retrieve_imgs_events|].
  intros H. rewrite (retrieve_imgs_all_cached _ _ _ _ _ H). auto.
Qed.

Lemma retrieve_imgs_never_refetches_cached_witness :
  (forall dates dt tod,
      dates_str today_2024_01_10 2 = Ok dates ->
      In dt dates -> In tod run_times ->
      In (remote_filename dt tod "KFWD" ".png")
        (@cached_filenames wildcard_pathlib fs_two_days "KFWD" ".png"))
  /\ @retrieve_imgs wildcard_pathlib (constant_archive 200)
       today_2024_01_10 "KFWD" ".png" 2 world_two_days
     = (Ok tt, world_two_days)
  /\ snd (@retrieve_imgs wildcard_pathlib (constant_archive 200)
            today_2024_01_10 "KFWD" ".png" 2 world_two_days)
     = world_two_days.
Proof.
  assert (H : forall dates dt tod,
             dates_str today_2024_01_10 2 = Ok dates ->
             In dt dates -> In tod run_times ->
             In (remote_filename dt tod "KFWD" ".png")
               (@cached_filenames wildcard_pathlib fs_two_days "KFWD" ".png")).
  { intros dates dt tod Hd Hdt Htod. vm_compute in Hd. injection Hd as <-.
    simpl in Hdt, Htod.
    destruct Hdt as [<-|[<-|[]]]; destruct Htod as [<-|[<-|[]]];
      vm_compute; tauto. }
  split; [exact H|]. split; [reflexivity|].
  exact (proj1 (proj2 (@retrieve_imgs_never_refetches_cached
                         wildcard_pathlib (constant_archive 200)
                         today_2024_01_10 "KFWD" ".png" 2 world_two_days) H)).
Defined.

(** The end-to-end scenario of the specification: with the two frames of
    one day in the cache and a window of one more day, the run requests
    the two frames of that day and the cache then holds four files. *)
Example retrieve_imgs_one_new_day :
  let fs :=
    [ (["data"], Dir);
      (["data"; "M1"], Dir);
      (["data"; "M1"; "20240101_000000_M1.png"], File "a");
      (["data"; "M1"; "20240101_120000_M1.png"], File "b") ] in
  let run :=
    @retrieve_imgs wildcard_pathlib (constant_archive 200)
      (of_ymd 2024 1 3) "M1" ".png" 1 (mk_world fs []) in
  dates_str (of_ymd 2024 1 3) 1 = Ok ["20240102"]
  /\ fst run = Ok tt
  /\ gets (w_trace (snd run))
     = [ "https://weather.ral.ucar.edu/data/upper/20240102/20240102_000000_M1.png";
         "https://weather.ral.ucar.edu/data/upper/20240102/20240102_120000_M1.png" ]
  /\ @cached_filenames wildcard_pathlib (w_fs (snd run)) "M1" ".png"
     = [ "20240101_000000_M1.png"; "20240101_120000_M1.png";
         "20240102_000000_M1.png"; "20240102_120000_M1.png" ].
Proof. vm_compute. repeat split. Qed.

(** ** The wildcard matcher *)

Lemma wildcard_match_literal (lit name : string) :
  literal lit = true -> wildcard_match lit name = (name =? lit).
Proof.
  revert name. induction lit as [|c lit IH]; intros name Hl.
  - reflexivity.
  - unfold literal in Hl. simpl in Hl.
    apply andb_true_iff in Hl as [H1 H2].
    apply negb_true_iff, orb_false_iff in H1 as [Hc1 Hl1].
    apply negb_true_iff, orb_false_iff in H2 as [Hc2 Hl2].
    simpl. rewrite Hc1. destruct name as [|d name]; [reflexivity|].
    rewrite Hc2. simpl. rewrite IH.
    + now rewrite Ascii.eqb_sym.
    + unfold literal. now rewrite Hl1, Hl2.
Qed.

Lemma wildcard_match_star_literal (lit name : string) :
  literal lit = true ->
  wildcard_match (String "*" lit) name = Str.endswith lit name.
Proof.
  intros Hl. simpl. induction name as [|d name IH].
  - simpl. now rewrite wildcard_match_literal.
  - simpl. rewrite wildcard_match_literal by exact Hl. now rewrite IH.
Qed.

Lemma endswith_app (a s : string) : Str.endswith s (a ++ s) = true.
Proof.
  induction a as [|c a IH]; simpl.
  - destruct s; cbn [Str.endswith append]; now rewrite String.eqb_refl.
  - cbn [Str.endswith append]. rewrite IH. apply orb_true_r.
Qed.

Lemma remote_filename_ends (dt tod model filetype : string) :
  Str.endswith (model ++ filetype) (remote_filename dt tod model filetype) = true.
Proof.
  unfold remote_filename.
  replace (dt ++ "_" ++ tod ++ "0000_" ++ model ++ filetype)%string
    with ((dt ++ "_" ++ tod ++ "0000_") ++ (model ++ filetype))%string
    by (now rewrite !string_app_assoc).
  apply endswith_app.
Qed.

(** With the wildcard matcher and an identifier and a file type free of
    wildcards, every file a run has written is found by the scan of the
    next run, which therefore does not request it. *)
Lemma retrieve_imgs_downloads_are_cached {requests : Requests}
  (TODAY : datetime) (model filetype : string) (span_days : Z) (w : world) :
  literal (model ++ filetype) = true ->
  exists evs,
    w_trace (snd (@retrieve_imgs wildcard_pathlib requests
                    TODAY model filetype span_days w))
    = w_trace w ++ evs
    /\ forall filename,
         In (DATA_DIR ++ [model; filename]) (writes evs) ->
         In filename
           (@cached_filenames wildcard_pathlib
              (w_fs (snd (@retrieve_imgs wildcard_pathlib requests
                            TODAY model filetype span_days w)))
              model filetype).
Proof.
  intros Hl.
  destruct (@retrieve_imgs_events wildcard_pathlib requests
              TODAY model filetype span_days w)
    as [evs [Ht [_ [_ [_ Hw]]]]].
  exists evs. split; [exact Ht|]. intros filename Hin. apply Hw; [exact Hin|].
  (* the file written is one of the queue, hence a canonical name *)
  rewrite retrieve_imgs_unfold in Ht.
  destruct (dates_str TODAY span_days) as [dates|e].
  - destruct (fetch_loop_trace model
                (build_url_dict model filetype
                   (@cached_filenames wildcard_pathlib (w_fs w) model filetype)
                   dates) 0 w) as [evs' [Ht' [_ [Hw' _]]]].
    rewrite Ht in Ht'. apply app_inv_head in Ht'. subst evs'.
    apply Hw' in Hin. apply in_map_iff in Hin as [f [Hf Hin]].
    apply app_inv_head in Hf. injection Hf as ->.
    apply in_map_iff in Hin as [[f u] [Hf Hin]]. simpl in Hf. subst f.
    apply url_dict_entry in Hin as [dt [tod [_ [_ [-> _]]]]].
    change (wildcard_match (String "*" (model ++ filetype))
              (remote_filename dt tod model filetype) = true).
    rewrite wildcard_match_star_literal by exact Hl.
    apply remote_filename_ends.
  - cbn [snd] in Ht. rewrite <- (app_nil_r (w_trace w)) in Ht at 1.
    apply app_inv_head in Ht. subst evs. destruct Hin.
Qed.

(** The second of two runs in a row finds everything in the cache. *)
Example retrieve_imgs_second_run_fetches_nothing :
  let run1 :=
    @retrieve_imgs wildcard_pathlib (constant_archive 200)
      today_2024_01_10 "KFWD" ".png" 5 world_two_days in
  fst run1 = Ok tt
  /\ List.length (gets (w_trace (snd run1))) = 6%nat
  /\ @retrieve_imgs wildcard_pathlib (constant_archive 200)
       today_2024_01_10 "KFWD" ".png" 5 (snd run1)
     = (Ok tt, snd run1).
Proof. vm_compute. repeat split. Qed.

(** ** Statuses other than 200 *)

Section Statuses.

Context {pathlib : Pathlib} {requests : Requests}.

(** X11.  A client or server error status, 400 to 599: [HTTPError] is
    raised, nothing is written, and the rest of the queue is not
    requested. *)
Lemma error_status_aborts_queue (model : string) (i : nat)
  (filename url : string) (rest : dict string) (w w1 : world) (resp : response) :
  prepare model i filename w = (Ok tt, w1) ->
  requests_get url = Ok resp ->
  (400 <= status_code resp < 600)%Z ->
  fetch_loop model i ((filename, url) :: rest) w
  = (Raise (HTTPError (status_code resp)),
     mk_world (w_fs w1) (w_trace w1 ++ [Get url])).
Proof.
  intros Hp Hg Hs. simpl. unfold bind.
  rewrite (fetch_one_not_200 _ _ _ _ _ _ _ Hp Hg) by lia.
  assert (E : ((400 <=? status_code resp) && (status_code resp <? 600))%Z = true).
  { apply andb_true_iff. split; [apply Z.leb_le | apply Z.ltb_lt]; lia. }
  now rewrite E.
Qed.

(** X12.  Any other status that is not 200: nothing is written, nothing
    is raised, and the loop goes on with the rest of the queue. *)
Lemma other_status_continues_queue (model : string) (i : nat)
  (filename url : string) (rest : dict string) (w w1 : world) (resp : response) :
  prepare model i filename w = (Ok tt, w1) ->
  requests_get url = Ok resp ->
  status_code resp <> 200%Z ->
  ~ (400 <= status_code resp < 600)%Z ->
  fetch_loop model i ((filename, url) :: rest) w
  = fetch_loop model (S i) rest (mk_world (w_fs w1) (w_trace w1 ++ [Get url])).
Proof.
  intros Hp Hg Hs Hn. simpl. unfold bind.
  rewrite (fetch_one_not_200 _ _ _ _ _ _ _ Hp Hg Hs).
  assert (E : ((400 <=? status_code resp) && (status_code resp <? 600))%Z = false).
  { apply andb_false_iff.
    destruct (Z.leb_spec 400 (status_code resp)); [right | now left].
    apply Z.ltb_ge. lia. }
  now rewrite E.
Qed.

End Statuses.

(** C3 at status 204.  The archive answers every request with 204: the
    run of [retrieve_imgs] raises nothing and, having written nothing
    for the first queued file, goes on to request the second one. *)
Theorem retrieve_imgs_status_204_is_not_raised :
  @retrieve_imgs wildcard_pathlib (constant_archive 204)
    today_2024_01_10 "KFWD" ".png" 3 world_two_days
  = (Ok tt,
     mk_world fs_two_days
       [ Mkdir ["data"; "KFWD"];
         Get "https://weather.ral.ucar.edu/data/upper/20240107/20240107_000000_KFWD.png";
         Get "https://weather.ral.ucar.edu/data/upper/20240107/20240107_120000_KFWD.png" ]).
Proof. reflexivity. Qed.

(** At status 404 the same run raises on the first queued file and
    requests nothing more. *)
Example retrieve_imgs_status_404_aborts :
  @retrieve_imgs wildcard_pathlib (constant_archive 404)
    today_2024_01_10 "KFWD" ".png" 3 world_two_days
  = (Raise (HTTPError 404),
     mk_world fs_two_days
       [ Mkdir ["data"; "KFWD"];
         Get "https://weather.ral.ucar.edu/data/upper/20240107/20240107_000000_KFWD.png" ]).
Proof. reflexivity. Qed.

(** ** Sorting paths *)

Lemma str_ltb_irrefl (s : string) : Str.ltb s s = false.
Proof.
  induction s as [|a s IH]; simpl; [reflexivity|].
  now rewrite Nat.ltb_irrefl, Nat.eqb_refl, IH.
Qed.

Lemma nat_of_ascii_inj (a b : ascii) : nat_of_ascii a = nat_of_ascii b -> a = b.
Proof.
  intros H. rewrite <- (ascii_nat_embedding a), <- (ascii_nat_embedding b).
  now rewrite H.
Qed.

Lemma str_ltb_asym (s t : string) : Str.ltb s t = true -> Str.ltb t s = false.
Proof.
  revert t. induction s as [|a s IH]; intros [|b t]; simpl; try congruence.
  intros H. apply orb_true_iff in H as [H|H].
  - apply Nat.ltb_lt in H.
    assert (E1 : (nat_of_ascii b <? nat_of_ascii a)%nat = false)
      by (apply Nat.ltb_ge; lia).
    assert (E2 : (nat_of_ascii b =? nat_of_ascii a)%nat = false)
      by (apply Nat.eqb_neq; lia).
    now rewrite E1, E2.
  - apply andb_true_iff in H as [He Hl]. apply Nat.eqb_eq in He.
    rewrite He, Nat.ltb_irrefl, Nat.eqb_refl. simpl. now apply IH.
Qed.

Lemma str_ltb_trans (s t u : string) :
  Str.ltb s t = true -> Str.ltb t u = true -> Str.ltb s u = true.
Proof.
  revert t u. induction s as [|a s IH]; intros [|b t] [|c u]; simpl;
    try congruence.
  intros H1 H2.
  apply orb_true_iff in H1. apply orb_true_iff in H2. apply orb_true_iff.
  destruct H1 as [H1|H1], H2 as [H2|H2].
  - left. apply Nat.ltb_lt in H1, H2. apply Nat.ltb_lt. lia.
  - apply andb_true_iff in H2 as [He _]. apply Nat.eqb_eq in He.
    left. now rewrite <- He.
  - apply andb_true_iff in H1 as [He _]. apply Nat.eqb_eq in He.
    left. now rewrite He.
  - apply andb_true_iff in H1 as [He1 Hl1], H2 as [He2 Hl2].
    apply Nat.eqb_eq in He1, He2. right. apply andb_true_iff. split.
    + apply Nat.eqb_eq. congruence.
    + eapply IH; eauto.
Qed.

Lemma str_ltb_total (s t : string) :
  Str.ltb s t = false -> Str.ltb t s = false -> s = t.
Proof.
  revert t. induction s as [|a s IH]; intros [|b t]; simpl; try congruence.
  intros H1 H2.
  apply orb_false_iff in H1 as [L1 R1], H2 as [L2 R2].
  apply Nat.ltb_ge in L1, L2.
  assert (E : nat_of_ascii a = nat_of_ascii b) by lia.
  rewrite E, Nat.eqb_refl in R1, R2. simpl in R1, R2.
  apply nat_of_ascii_inj in E. subst b. f_equal. now apply IH.
Qed.

Lemma path_ltb_asym (p q : path) : path_ltb p q = true -> path_ltb q p = false.
Proof.
  revert q. induction p as [|a p IH]; intros [|b q]; simpl; try congruence.
  intros H. apply orb_true_iff in H as [H|H].
  - rewrite (str_ltb_asym _ _ H). simpl.
    destruct (b =? a) eqn:E; [|reflexivity].
    apply String.eqb_eq in E. subst b. rewrite str_ltb_irrefl in H. discriminate.
  - apply andb_true_iff in H as [He Hl]. apply String.eqb_eq in He. subst b.
    rewrite str_ltb_irrefl, String.eqb_refl. simpl. now apply IH.
Qed.

Lemma path_ltb_trans (p q r : path) :
  path_ltb p q = true -> path_ltb q r = true -> path_ltb p r = true.
Proof.
  revert q r. induction p as [|a p IH]; intros [|b q] [|c r]; simpl;
    try congruence.
  intros H1 H2.
  apply orb_true_iff in H1. apply orb_true_iff in H2. apply orb_true_iff.
  destruct H1 as [H1|H1], H2 as [H2|H2].
  - left. eapply str_ltb_trans; eauto.
  - apply andb_true_iff in H2 as [He _]. apply String.eqb_eq in He. subst c.
    now left.
  - apply andb_true_iff in H1 as [He _]. apply String.eqb_eq in He. subst b.
    now left.
  - apply andb_true_iff in H1 as [He1 Hl1], H2 as [He2 Hl2].
    apply String.eqb_eq in He1, He2. subst b c. right.
    rewrite String.eqb_refl. simpl. eapply IH; eauto.
Qed.

Lemma path_ltb_total (p q : path) :
  path_ltb p q = false -> path_ltb q p = false -> p = q.
Proof.
  revert q. induction p as [|a p IH]; intros [|b q]; simpl; try congruence.
  intros H1 H2.
  apply orb_false_iff in H1 as [L1 R1], H2 as [L2 R2].
  pose proof (str_ltb_total _ _ L1 L2) as ->.
  rewrite String.eqb_refl in R1, R2. simpl in R1, R2.
  f_equal. now apply IH.
Qed.

Lemma path_le_trans (p q r : path) : path_le p q -> path_le q r -> path_le p r.
Proof.
  unfold path_le, path_leb. intros H1 H2.
  apply negb_true_iff in H1, H2. apply negb_true_iff.
  destruct (path_ltb r p) eqn:E; [|reflexivity].
  destruct (path_ltb q r) eqn:E2.
  - rewrite (path_ltb_trans _ _ _ E2 E) in H1. discriminate.
  - pose proof (path_ltb_total _ _ E2 H2) as ->. congruence.
Qed.

Lemma insert_path_perm (p : path) (l : list path) :
  Permutation (p :: l) (insert_path p l).
Proof.
  induction l as [|q r IH]; simpl.
  - reflexivity.
  - destruct (path_ltb q p); [|reflexivity].
    rewrite perm_swap. now constructor.
Qed.

Lemma sorted_perm (l : list path) : Permutation l (sorted l).
Proof.
  induction l as [|p r IH]; simpl.
  - reflexivity.
  - rewrite <- insert_path_perm. now constructor.
Qed.

Lemma insert_path_sorted (p : path) (l : list path) :
  Sorted path_le l -> Sorted path_le (insert_path p l).
Proof.
  induction l as [|q r IH]; simpl; intros Hs.
  - repeat constructor.
  - destruct (path_ltb q p) eqn:E.
    + inversion Hs as [|? ? Hr Hhd]; subst. constructor; [now apply IH|].
      destruct r as [|q' r']; simpl.
      * constructor. unfold path_le, path_leb.
        now rewrite (path_ltb_asym _ _ E).
      * destruct (path_ltb q' p).
        -- inversion Hhd; subst. now constructor.
        -- constructor. unfold path_le, path_leb.
           now rewrite (path_ltb_asym _ _ E).
    + constructor; [exact Hs|]. constructor. unfold path_le, path_leb.
      now rewrite E.
Qed.

(** [sorted] returns its argument rearranged in increasing order. *)
Lemma sorted_is_sorted (l : list path) : StronglySorted path_le (sorted l).
Proof.
  apply Sorted_StronglySorted.
  - intros p q r. apply path_le_trans.
  - induction l as [|p r IH]; simpl; [constructor|].
    now apply insert_path_sorted.
Qed.

(** ** [build_gif] *)

Section GifProofs.

Context {pathlib : Pathlib} {pillow : Pillow}.

Lemma glob_rec_below (fs : filesystem) (base : path) (pat : string) (p : path) :
  In p (glob_rec fs base pat) -> is_below base p = true.
Proof.
  unfold glob_rec. intros H. apply filter_In in H as [_ H].
  now apply andb_true_iff in H as [H _].
Qed.

Lemma glob_rec_nothing_below (fs : filesystem) (base : path) (pat : string) :
  (forall p n, In (p, n) fs -> is_below base p = false) ->
  glob_rec fs base pat = [].
Proof.
  unfold glob_rec. induction fs as [|[p n] r IH]; intros H;
    cbn [map filter fst]; [reflexivity|].
  rewrite (H p n) by (now left). cbn [andb].
  apply IH. intros q m Hq. apply (H q m). now right.
Qed.

Lemma gif_path_not_a_frame (TODAY : datetime) (model : string)
  (fs : filesystem) :
  model <> "gifs" -> ~ In (gif_path TODAY model) (frame_files fs model).
Proof.
  intros Hne Hin. unfold frame_files in Hin.
  apply (Permutation_in _ (Permutation_sym (sorted_perm _))) in Hin.
  apply glob_rec_below in Hin. unfold gif_path, DATA_DIR, ROOT in Hin.
  simpl in Hin. destruct (model =? "gifs") eqn:E; [|discriminate].
  apply String.eqb_eq in E. contradiction.
Qed.

Lemma image_open_after_set (fs : filesystem) (p f : path) (n : node) :
  p <> f -> image_open (fs_set fs p n) f = image_open fs f.
Proof.
  intros H. unfold image_open, fs_read. now rewrite fs_lookup_set_other.
Qed.

Lemma build_gif_saves (TODAY : datetime) (model : string) (w : world)
  (fs1 : filesystem) (imgs : list image) :
  frame_files (w_fs w) model <> [] ->
  model <> "gifs" ->
  fs_open_w (w_fs w) (gif_path TODAY model) = Ok fs1 ->
  traverse (image_open (w_fs w)) (frame_files (w_fs w) model) = Ok imgs ->
  build_gif TODAY model w
  = (Ok tt,
     mk_world
       (fs_set (w_fs w) (gif_path TODAY model) (File (gif_encode imgs 300 3)))
       (w_trace w ++ [Write (gif_path TODAY model)])).
Proof.
  intros Hne Hm Hopen Htr. unfold build_gif.
  pose proof (gif_path_not_a_frame TODAY model (w_fs w) Hm) as Hnin.
  destruct (frame_files (w_fs w) model) as [|f rest]; [contradiction|].
  simpl in Htr. destruct (image_open (w_fs w) f) as [img|]; [|discriminate].
  destruct (traverse (image_open (w_fs w)) rest) as [imgs'|] eqn:Er;
    [|discriminate].
  injection Htr as <-. unfold save_gif. rewrite Hopen.
  apply fs_open_w_spec in Hopen. subst fs1.
  rewrite (traverse_ext _ (image_open (w_fs w))), Er.
  - now rewrite fs_set_set.
  - intros x Hx. apply image_open_after_set.
    intros E. apply Hnin. rewrite E. now right.
Qed.

End GifProofs.

(** ** The frames the GIF writer keeps *)

Section Frames.

Context {pillow : Pillow}.

Lemma merge_frames_blocks (previous : picture) (others rest : list picture) :
  Forall (fun p => same_picture previous p = true) others ->
  frames_of_blocks (previous :: others ++ rest)
    (merge_frames previous (S (List.length others)) rest).
Proof.
  revert previous others. induction rest as [|q r IH]; intros p others Hsame.
  - exists [p :: others]. split.
    + cbn [List.concat]. now rewrite !app_nil_r.
    + constructor; [|constructor]. exists others. cbn [fst snd List.length].
      auto.
  - cbn [merge_frames]. destruct (same_picture p q) eqn:E.
    + assert (Hsame' : Forall (fun x => same_picture p x = true) (others ++ [q])).
      { apply Forall_app. split; [exact Hsame|]. constructor; [exact E|constructor]. }
      specialize (IH p (others ++ [q]) Hsame').
      rewrite <- app_assoc in IH. cbn [app] in IH.
      rewrite length_app in IH. cbn [List.length] in IH.
      now replace (List.length others + 1)%nat with (S (List.length others))
        in IH by lia.
    + destruct (IH q [] (Forall_nil _)) as [blocks [Hc HF]].
      cbn [app List.length] in Hc, HF.
      exists ((p :: others) :: blocks). split.
      * cbn [List.concat]. rewrite <- Hc. cbn [app]. reflexivity.
      * constructor; [|exact HF]. exists others. cbn [fst snd List.length].
        auto.
Qed.

Lemma merge_frames_head (previous : picture) (count : nat)
  (rest : list picture) :
  exists n tl, merge_frames previous count rest = (previous, n) :: tl.
Proof.
  revert count. induction rest as [|q r IH]; intros count; cbn [merge_frames].
  - eauto.
  - destruct (same_picture previous q); [apply IH | eauto].
Qed.

Lemma merge_frames_adjacent (previous : picture) (count : nat)
  (rest : list picture) :
  adjacent_differ (map fst (merge_frames previous count rest)) = true.
Proof.
  revert previous count. induction rest as [|q r IH]; intros p count;
    cbn [merge_frames].
  - reflexivity.
  - destruct (same_picture p q) eqn:E; [apply IH|].
    specialize (IH q 1%nat).
    destruct (merge_frames_head q 1 r) as [n [tl Hm]]. rewrite Hm in *.
    cbn [map fst adjacent_differ] in *. now rewrite E.
Qed.

Lemma merge_frames_length_le (previous : picture) (count : nat)
  (rest : list picture) :
  (1 <= List.length (merge_frames previous count rest) <= S (List.length rest))%nat.
Proof.
  revert previous count. induction rest as [|q r IH]; intros p count;
    cbn [merge_frames List.length].
  - lia.
  - destruct (same_picture p q).
    + specialize (IH p (S count)). lia.
    + specialize (IH q 1%nat). cbn [List.length]. lia.
Qed.

Lemma merge_frames_length_eq (previous : picture) (count : nat)
  (rest : list picture) :
  List.length (merge_frames previous count rest) = S (List.length rest)
  <-> adjacent_differ (previous :: rest) = true.
Proof.
  revert previous count. induction rest as [|q r IH]; intros p count.
  - cbn. tauto.
  - cbn [merge_frames]. change (adjacent_differ (p :: q :: r))
      with (negb (same_picture p q) && adjacent_differ (q :: r)).
    destruct (same_picture p q); cbn [negb andb List.length].
    + pose proof (merge_frames_length_le p (S count) r). split; [lia|discriminate].
    + rewrite <- (IH q 1%nat). split; lia.
Qed.

(** The frames kept cut the pictures into blocks of pictures that are the
    same as the first of the block. *)
Lemma im_frames_blocks (pics : list picture) :
  frames_of_blocks pics (im_frames pics).
Proof.
  destruct pics as [|p rest].
  - exists []. split; [reflexivity|constructor].
  - apply (merge_frames_blocks p [] rest). constructor.
Qed.

(** No frame kept is the same as the frame kept before it. *)
Lemma im_frames_adjacent (pics : list picture) :
  adjacent_differ (map fst (im_frames pics)) = true.
Proof.
  destruct pics as [|p rest]; [reflexivity|]. apply merge_frames_adjacent.
Qed.

Lemma im_frames_length_le (pics : list picture) :
  (List.length (im_frames pics) <= List.length pics)%nat.
Proof.
  destruct pics as [|p rest]; [cbn; lia|].
  apply (merge_frames_length_le p 1 rest).
Qed.

Lemma im_frames_length_eq (pics : list picture) :
  List.length (im_frames pics) = List.length pics
  <-> adjacent_differ pics = true.
Proof.
  destruct pics as [|p rest]; [cbn; tauto|].
  apply (merge_frames_length_eq p 1 rest).
Qed.

Lemma still_images_pictures (imgs : list image) :
  (forall img, In img imgs -> List.length (image_frames img) = 1%nat) ->
  List.length (flat_map image_frames imgs) = List.length imgs.
Proof.
  induction imgs as [|img r IH]; intros H; cbn [flat_map List.length].
  - reflexivity.
  - rewrite length_app, (H img (or_introl eq_refl)), IH; [reflexivity|].
    intros i Hi. apply H. now right.
Qed.

End Frames.

(** C7.  For a model whose cache directory is not empty and holds only
    files that open as images, [build_gif] opens one image per path
    found under the directory, in the increasing order of the paths, and
    the animation it leaves at the output path shows the pictures of
    these images in that order, except that a picture that is the same
    as the frame before it is merged into that frame.  For still images
    the animation so has at most as many frames as there are files, and
    as many exactly when no file holds the same picture as the file
    before it. *)
Theorem build_gif_frames_are_the_pictures_in_path_order_merged
  {pathlib : Pathlib} {pillow : Pillow}
  (TODAY : datetime) (model : string) (w : world) (imgs : list image) :
  glob_rec (w_fs w) (DATA_DIR ++ [model]) "*" <> [] ->
  model <> "gifs" ->
  is_ok (fs_open_w (w_fs w) (gif_path TODAY model)) = true ->
  traverse (image_open (w_fs w)) (frame_files (w_fs w) model) = Ok imgs ->
  fst (build_gif TODAY model w) = Ok tt
  /\ Forall2 (fun f img => image_open (w_fs w) f = Ok img)
       (frame_files (w_fs w) model) imgs
  /\ StronglySorted path_le (frame_files (w_fs w) model)
  /\ Permutation (glob_rec (w_fs w) (DATA_DIR ++ [model]) "*")
       (frame_files (w_fs w) model)
  /\ exists bytes,
       fs_read (w_fs (snd (build_gif TODAY model w))) (gif_path TODAY model)
       = Ok bytes
       /\ gif_pictures bytes
          = map fst (im_frames (flat_map image_frames imgs))
       /\ frames_of_blocks (flat_map image_frames imgs)
            (im_frames (flat_map image_frames imgs))
       /\ adjacent_differ (gif_pictures bytes) = true
       /\ ((forall img, In img imgs -> List.length (image_frames img) = 1%nat) ->
           (List.length (gif_pictures bytes)
            <= List.length (glob_rec (w_fs w) (DATA_DIR ++ [model]) "*"))%nat
           /\ (List.length (gif_pictures bytes)
               = List.length (glob_rec (w_fs w) (DATA_DIR ++ [model]) "*")
               <-> adjacent_differ (flat_map image_frames imgs) = true)).
Proof.
  intros Hne Hm Hopen Htr.
  assert (Hperm : Permutation (glob_rec (w_fs w) (DATA_DIR ++ [model]) "*")
                    (frame_files (w_fs w) model)) by apply sorted_perm.
  assert (Hne' : frame_files (w_fs w) model <> []).
  { intros E. rewrite E in Hperm. apply Permutation_sym, Permutation_nil in Hperm.
    contradiction. }
  destruct (fs_open_w (w_fs w) (gif_path TODAY model)) as [fs1|] eqn:Eo;
    [|discriminate].
  rewrite (build_gif_saves TODAY model w fs1 imgs Hne' Hm Eo Htr).
  cbn [fst snd w_fs w_trace].
  pose proof (traverse_Forall2 _ _ _ Htr) as HF.
  split; [reflexivity|]. split; [exact HF|].
  split; [apply sorted_is_sorted|]. split; [exact Hperm|].
  exists (gif_encode imgs 300 3).
  assert (Hpics : gif_pictures (gif_encode imgs 300 3)
                  = map fst (im_frames (flat_map image_frames imgs)))
    by apply gif_pictures_write.
  split; [unfold fs_read; now rewrite fs_lookup_set_same|].
  split; [exact Hpics|]. split; [apply im_frames_blocks|].
  rewrite Hpics. split; [apply im_frames_adjacent|].
  intros Hstill. rewrite length_map.
  rewrite (Permutation_length Hperm), (Forall2_length HF),
    <- (still_images_pictures imgs Hstill).
  split; [apply im_frames_length_le | apply im_frames_length_eq].
Qed.

Lemma build_gif_frames_are_the_pictures_in_path_order_merged_witness :
  @frame_files wildcard_pathlib fs_two_days "KFWD"
  = [ ["data"; "KFWD"; "20240108_000000_KFWD.png"];
      ["data"; "KFWD"; "20240108_120000_KFWD.png"];
      ["data"; "KFWD"; "20240109_000000_KFWD.png"];
      ["data"; "KFWD"; "20240109_120000_KFWD.png"] ]
  /\ @traverse path (@image bytes_pillow)
       (@image_open bytes_pillow fs_two_days)
       (@frame_files wildcard_pathlib fs_two_days "KFWD")
     = Ok ["a"; "b"; "c"; "d"]
  /\ fst (@build_gif wildcard_pathlib bytes_pillow today_2024_01_10 "KFWD"
            world_two_days) = Ok tt
  /\ exists bytes,
       fs_read
         (w_fs (snd (@build_gif wildcard_pathlib bytes_pillow today_2024_01_10
                       "KFWD" world_two_days)))
         ["data"; "gifs"; "KFWD_2024-01-10.gif"]
       = Ok bytes
       /\ @gif_pictures bytes_pillow bytes = ["a"; "b"; "c"; "d"]%char.
Proof.
  split; [reflexivity|]. split; [reflexivity|].
  pose proof (@build_gif_frames_are_the_pictures_in_path_order_merged
                wildcard_pathlib bytes_pillow today_2024_01_10 "KFWD"
                world_two_days ["a"; "b"; "c"; "d"]) as H.
  destruct H as [H1 [_ [_ [_ [bytes [H2 [H3 _]]]]]]];
    [ vm_compute; discriminate | vm_compute; discriminate
    | reflexivity | reflexivity | ].
  split; [exact H1|]. exists bytes. split; [exact H2 | exact H3].
Defined.

(** With three files of which the second holds the picture of the first,
    the animation shows two frames: it does not hold a frame per file. *)
Lemma build_gif_merges_a_repeated_picture :
  fst (@build_gif wildcard_pathlib bytes_pillow today_2024_01_10 "KFWD"
         (mk_world fs_repeated_frame [])) = Ok tt
  /\ List.length
       (@glob_rec wildcard_pathlib fs_repeated_frame (DATA_DIR ++ ["KFWD"]) "*")
     = 3%nat
  /\ (exists bytes,
         fs_read
           (w_fs (snd (@build_gif wildcard_pathlib bytes_pillow
                         today_2024_01_10 "KFWD"
                         (mk_world fs_repeated_frame []))))
           (gif_path today_2024_01_10 "KFWD") = Ok bytes
         /\ @gif_pictures bytes_pillow bytes = ["a"; "b"]%char)
  /\ ~ @one_frame_per_file wildcard_pathlib bytes_pillow today_2024_01_10
         "KFWD" (mk_world fs_repeated_frame []).
Proof.
  split; [reflexivity|]. split; [reflexivity|]. split.
  - eexists. split; reflexivity.
  - intros [bytes [Hr Hl]]. vm_compute in Hr. injection Hr as <-.
    vm_compute in Hl. discriminate Hl.
Qed.

(** C8.  When nothing lies under the model's cache directory, be it
    empty or absent, [build_gif] raises [StopIteration] on taking the
    first frame; the world is left as it was, so no animation is
    written, and whatever was to follow the call is not run. *)
Theorem build_gif_empty_cache_raises_StopIteration
  {pathlib : Pathlib} {pillow : Pillow}
  (TODAY : datetime) (model : string) (w : world) :
  (forall p n, In (p, n) (w_fs w) -> is_below (DATA_DIR ++ [model]) p = false) ->
  build_gif TODAY model w = (Raise StopIteration, w)
  /\ writes (w_trace (snd (build_gif TODAY model w))) = writes (w_trace w)
  /\ fs_lookup (w_fs (snd (build_gif TODAY model w))) (gif_path TODAY model)
     = fs_lookup (w_fs w) (gif_path TODAY model)
  /\ forall (B : Type) (k : unit -> M B),
       bind (build_gif TODAY model) k w = (Raise StopIteration, w).
Proof.
  intros Hempty.
  pose proof (glob_rec_nothing_below _ _ "*" Hempty) as Hg.
  assert (Hb : build_gif TODAY model w = (Raise StopIteration, w)).
  { unfold build_gif, frame_files. now rewrite Hg. }
  rewrite Hb. repeat split. intros B k. unfold bind. now rewrite Hb.
Qed.

Lemma build_gif_empty_cache_raises_StopIteration_witness :
  (forall p n, In (p, n) fs_two_days ->
               is_below (DATA_DIR ++ ["upaCNTR_200"]) p = false)
  /\ @build_gif wildcard_pathlib bytes_pillow today_2024_01_10 "upaCNTR_200"
       world_two_days
     = (Raise StopIteration, world_two_days).
Proof.
  assert (H : forall p n, In (p, n) fs_two_days ->
                          is_below (DATA_DIR ++ ["upaCNTR_200"]) p = false).
  { intros p n Hin. simpl in Hin.
    repeat (destruct Hin as [Hin|Hin]; [injection Hin as <- <-; reflexivity|]).
    destruct Hin. }
  split; [exact H|].
  exact (proj1 (@build_gif_empty_cache_raises_StopIteration
                  wildcard_pathlib bytes_pillow today_2024_01_10
                  "upaCNTR_200" world_two_days H)).
Defined.

(** ** [send_slack_message_blocks] *)

Lemma append_model_blocks_ok (model_map : model_map_t) (blocks : list block) :
  (forall mname model_dict,
      In (mname, model_dict) model_map ->
      dict_get "name" model_dict <> None
      /\ dict_get "gif-file-id" model_dict <> None) ->
  append_model_blocks model_map blocks
  = Ok (blocks ++ flat_map blocks_of_model model_map).
Proof.
  revert blocks. induction model_map as [|[m d] rest IH]; intros blocks H; simpl.
  - now rewrite app_nil_r.
  - destruct (H m d (or_introl eq_refl)) as [Hn Hi].
    unfold model_blocks, dict_item, blocks_of_model. simpl.
    destruct (dict_get "name" d) as [name|]; [|contradiction].
    destruct (dict_get "gif-file-id" d) as [id|]; [|contradiction].
    rewrite IH by (intros; apply (H mname); now right).
    now rewrite <- app_assoc.
Qed.

Lemma blocks_of_models_nth (model_map : model_map_t) (i : nat)
  (mname : string) (model_dict : dict string) (name id : string) :
  (forall mname model_dict,
      In (mname, model_dict) model_map ->
      dict_get "name" model_dict <> None
      /\ dict_get "gif-file-id" model_dict <> None) ->
  nth_error model_map i = Some (mname, model_dict) ->
  dict_get "name" model_dict = Some name ->
  dict_get "gif-file-id" model_dict = Some id ->
  nth_error (flat_map blocks_of_model model_map) (2 * i)
  = Some (ImageBlock name id "poopie")
  /\ nth_error (flat_map blocks_of_model model_map) (2 * i + 1)
     = Some DividerBlock.
Proof.
  revert i. induction model_map as [|[m d] rest IH]; intros i H Hnth Hn Hi.
  - destruct i; discriminate.
  - destruct i as [|i].
    + simpl in Hnth. injection Hnth as -> ->.
      simpl. unfold blocks_of_model. simpl. rewrite Hn, Hi. auto.
    + simpl in Hnth.
      destruct (H m d (or_introl eq_refl)) as [Hn' Hi'].
      assert (E : blocks_of_model (m, d)
                  = [ImageBlock (match dict_get "name" d with
                                 | Some x => x | None => "" end)
                       (match dict_get "gif-file-id" d with
                        | Some x => x | None => "" end) "poopie";
                     DividerBlock]).
      { unfold blocks_of_model. simpl.
        destruct (dict_get "name" d); [|contradiction].
        destruct (dict_get "gif-file-id" d); [|contradiction]. reflexivity. }
      cbn [flat_map]. rewrite E.
      replace (2 * S i)%nat with (S (S (2 * i))) by lia.
      replace (S (S (2 * i)) + 1)%nat with (S (S (2 * i + 1))) by lia.
      simpl nth_error. apply IH; auto.
      intros; apply (H mname0); now right.
Qed.

Lemma blocks_of_models_length (model_map : model_map_t) :
  (forall mname model_dict,
      In (mname, model_dict) model_map ->
      dict_get "name" model_dict <> None
      /\ dict_get "gif-file-id" model_dict <> None) ->
  List.length (flat_map blocks_of_model model_map)
  = (2 * List.length model_map)%nat.
Proof.
  induction model_map as [|[m d] rest IH]; intros H; [reflexivity|].
  cbn [flat_map]. rewrite length_app, IH by (intros; apply (H mname); now right).
  destruct (H m d (or_introl eq_refl)) as [Hn Hi].
  unfold blocks_of_model. simpl.
  destruct (dict_get "name" d); [|contradiction].
  destruct (dict_get "gif-file-id" d); [|contradiction]. simpl. lia.
Qed.

(** An entry without ['gif-file-id'] makes the composition raise a
    [KeyError]. *)
Lemma append_model_blocks_gap (model_map : model_map_t) (blocks : list block)
  (mname : string) (model_dict : dict string) :
  In (mname, model_dict) model_map ->
  dict_get "gif-file-id" model_dict = None ->
  exists key, append_model_blocks model_map blocks = Raise (KeyError key).
Proof.
  revert blocks. induction model_map as [|[m d] rest IH]; intros blocks Hin Hgap.
  - destruct Hin.
  - simpl. unfold model_blocks, dict_item.
    destruct (dict_get "name" d) as [name|]; [|eauto].
    destruct (dict_get "gif-file-id" d) as [id|] eqn:Ei; [|eauto].
    destruct Hin as [E|Hin]; [injection E as -> ->; congruence|].
    now apply IH.
Qed.

(** The error is that of the first incomplete entry: with complete
    entries before it and a display name of its own, it is the missing
    ['gif-file-id']. *)
Lemma append_model_blocks_first_gap (before after : model_map_t)
  (blocks : list block) (mname : string) (model_dict : dict string) :
  (forall m d, In (m, d) before ->
               dict_get "name" d <> None /\ dict_get "gif-file-id" d <> None) ->
  dict_get "name" model_dict <> None ->
  dict_get "gif-file-id" model_dict = None ->
  append_model_blocks (before ++ (mname, model_dict) :: after) blocks
  = Raise (KeyError "gif-file-id").
Proof.
  revert blocks. induction before as [|[m d] rest IH]; intros blocks H Hn Hgap.
  - simpl. unfold model_blocks, dict_item.
    destruct (dict_get "name" model_dict); [|contradiction].
    now rewrite Hgap.
  - simpl. destruct (H m d (or_introl eq_refl)) as [Hn' Hi'].
    unfold model_blocks, dict_item.
    destruct (dict_get "name" d); [|contradiction].
    destruct (dict_get "gif-file-id" d); [|contradiction].
    apply IH; auto. intros; apply (H m0); now right.
Qed.

Section PublishProofs.

Context {pathlib : Pathlib} {slack : SlackApi}.

Lemma upload_one_unfold (props : dict string) (bot_client : WebClient)
  (model_map : model_map_t) (gif : path) (w : world) :
  upload_one props bot_client model_map gif w
  = let mname := model_of_gif_name (path_name gif) in
    let channel := dict_get "private-chan" props in
    match fs_read (w_fs w) gif with
    | Raise e => (Raise e, w)
    | Ok bytes =>
        let w1 := mk_world (w_fs w) (w_trace w ++ [Upload channel bytes mname]) in
        match files_upload_v2 bot_client channel bytes mname with
        | Raise e => (Raise e, w1)
        | Ok r =>
            if ok r then
              match file_id r with
              | None => (Raise (KeyError "file"), w1)
              | Some id =>
                  match dict_get mname model_map with
                  | None => (Raise (KeyError mname), w1)
                  | Some model_dict =>
                      (Ok (dict_set mname
                             (dict_set "gif-file-id" id model_dict) model_map),
                       w1)
                  end
              end
            else (Ok model_map, w1)
        end
    end.
Proof.
  unfold upload_one, bind, get_fs, lift, emit, dict_item, ret. cbv zeta.
  destruct (fs_read (w_fs w) gif) as [bytes|]; [|reflexivity].
  cbn [w_fs w_trace].
  destruct (files_upload_v2 _ _ _ _) as [r|]; [|reflexivity].
  destruct (ok r); [|reflexivity].
  destruct (file_id r); [|reflexivity].
  destruct (dict_get _ model_map); reflexivity.
Qed.

Lemma upload_one_world (props : dict string) (bot_client : WebClient)
  (model_map : model_map_t) (gif : path) (w : world) :
  w_fs (snd (upload_one props bot_client model_map gif w)) = w_fs w
  /\ posts (w_trace (snd (upload_one props bot_client model_map gif w)))
     = posts (w_trace w).
Proof.
  rewrite upload_one_unfold. cbv zeta.
  assert (Hp : forall e, posts (w_trace w ++ [e]) = posts (w_trace w) ++ posts [e])
    by (intros; apply flat_map_app).
  destruct (fs_read (w_fs w) gif) as [bytes|]; [|auto].
  destruct (files_upload_v2 _ _ _ _) as [r|];
    [|simpl; rewrite Hp; simpl; now rewrite app_nil_r].
  destruct (ok r); [|simpl; rewrite Hp; simpl; now rewrite app_nil_r].
  destruct (file_id r); [|simpl; rewrite Hp; simpl; now rewrite app_nil_r].
  destruct (dict_get _ model_map);
    simpl; rewrite Hp; simpl; now rewrite app_nil_r.
Qed.

Lemma upload_loop_world (props : dict string) (bot_client : WebClient)
  (gifs : list path) (model_map : model_map_t) (w : world) :
  w_fs (snd (upload_loop props bot_client model_map gifs w)) = w_fs w
  /\ posts (w_trace (snd (upload_loop props bot_client model_map gifs w)))
     = posts (w_trace w).
Proof.
  revert model_map w. induction gifs as [|gif rest IH]; intros model_map w.
  - auto.
  - simpl. unfold bind.
    pose proof (upload_one_world props bot_client model_map gif w) as [Hf Hp].
    destruct (upload_one props bot_client model_map gif w) as [[mm|e] w1];
      simpl in *.
    + destruct (IH mm w1) as [Hf' Hp']. split; congruence.
    + auto.
Qed.

(** A refused upload changes nothing in the map and the loop goes on to
    the next animation. *)
Lemma upload_loop_skips_refused (props : dict string) (bot_client : WebClient)
  (model_map : model_map_t) (gif : path) (rest : list path) (w : world)
  (bytes : string) (r : upload_response) :
  fs_read (w_fs w) gif = Ok bytes ->
  files_upload_v2 bot_client (dict_get "private-chan" props) bytes
    (model_of_gif_name (path_name gif)) = Ok r ->
  ok r = false ->
  upload_loop props bot_client model_map (gif :: rest) w
  = upload_loop props bot_client model_map rest
      (mk_world (w_fs w)
         (w_trace w
          ++ [Upload (dict_get "private-chan" props) bytes
                (model_of_gif_name (path_name gif))])).
Proof.
  intros Hr Hu Hok. simpl. unfold bind. rewrite upload_one_unfold. cbv zeta.
  now rewrite Hr, Hu, Hok.
Qed.

(** The entry of a model whose uploads are all refused stays without
    ['gif-file-id'] through the loop. *)
Lemma upload_loop_keeps_gap (props : dict string) (bot_client : WebClient)
  (mname : string) (gifs : list path) (model_map mm' : model_map_t)
  (w w' : world) :
  (exists d, dict_get mname model_map = Some d
             /\ dict_get "gif-file-id" d = None) ->
  (forall gif bytes r,
      In gif gifs -> model_of_gif_name (path_name gif) = mname ->
      fs_read (w_fs w) gif = Ok bytes ->
      files_upload_v2 bot_client (dict_get "private-chan" props) bytes mname
      = Ok r ->
      ok r = false) ->
  upload_loop props bot_client model_map gifs w = (Ok mm', w') ->
  exists d, dict_get mname mm' = Some d /\ dict_get "gif-file-id" d = None.
Proof.
  revert model_map w. induction gifs as [|gif rest IH];
    intros model_map w Hgap Hrefused Hloop.
  - simpl in Hloop. injection Hloop as <- <-. exact Hgap.
  - simpl in Hloop. unfold bind in Hloop.
    pose proof (upload_one_world props bot_client model_map gif w) as [Hfs _].
    destruct (upload_one props bot_client model_map gif w) as [[mm1|e] w1] eqn:E1;
      [|discriminate].
    simpl in Hfs. apply (IH mm1 w1); [| |exact Hloop].
    + rewrite upload_one_unfold in E1. cbv zeta in E1.
      destruct (fs_read (w_fs w) gif) as [bytes|] eqn:Er; [|discriminate].
      destruct (files_upload_v2 _ _ _ _) as [r|] eqn:Eu; [|discriminate].
      destruct (ok r) eqn:Eok; [|injection E1 as <- _; exact Hgap].
      destruct (file_id r) as [id|]; [|discriminate].
      destruct (dict_get (model_of_gif_name (path_name gif)) model_map)
        as [d0|] eqn:Ed; [|discriminate].
      injection E1 as <- _.
      destruct (string_dec mname (model_of_gif_name (path_name gif))) as [En|En].
      * rewrite <- En in Eu.
        rewrite (Hrefused gif bytes r (or_introl eq_refl) (eq_sym En) Er Eu) in Eok.
        discriminate.
      * rewrite dict_get_set_other by exact En. exact Hgap.
    + intros g b r Hin Hm Hr Hu. rewrite Hfs in Hr.
      apply (Hrefused g b r); auto. now right.
Qed.

Lemma send_slack_message_blocks_unfold (TODAY : datetime)
  (props : dict string) (bot_client : WebClient) (model_map : model_map_t)
  (w : world) :
  send_slack_message_blocks TODAY props bot_client model_map w
  = match upload_loop props bot_client model_map
            (todays_gifs TODAY (w_fs w)) w with
    | (Raise e, w1) => (Raise e, w1)
    | (Ok mm', w1) =>
        match compose_blocks TODAY mm' with
        | Raise e => (Raise e, w1)
        | Ok blocks =>
            match dict_get "public-chan" props with
            | None =>
                (Raise (KeyError "public-chan"),
                 mk_world (w_fs w1) (w_trace w1 ++ [Sleep 3]))
            | Some channel =>
                (match chat_postMessage bot_client channel
                         "Daily WX report incoming!" blocks with
                 | Ok _ => Ok mm'
                 | Raise e => Raise e
                 end,
                 mk_world (w_fs w1)
                   (w_trace w1
                    ++ [Sleep 3; Post channel "Daily WX report incoming!" blocks]))
            end
        end
    end.
Proof.
  unfold send_slack_message_blocks, bind, get_fs, lift, sleep, emit, ret,
    dict_item.
  destruct (upload_loop _ _ _ _ _) as [[mm'|e] w1]; [|reflexivity].
  destruct (compose_blocks TODAY mm'); [|reflexivity].
  cbn [w_fs w_trace].
  destruct (dict_get "public-chan" props); [|reflexivity].
  cbn [w_fs w_trace]. rewrite <- app_assoc.
  destruct (chat_postMessage _ _ _ _) as [[]|]; reflexivity.
Qed.

End PublishProofs.

(** C9.  When every entry of the model map, as the uploads left it, has
    a display name and an uploaded file identifier, the message is one
    header block with today's date followed, for each model in the
    order of the map, by the image block holding the model's file
    identifier and a divider block: [1 + 2 * n] blocks for [n] models.
    These are the blocks [send_slack_message_blocks] posts. *)
Theorem message_is_header_then_image_and_divider_per_model
  {pathlib : Pathlib} {slack : SlackApi}
  (TODAY : datetime) (props : dict string) (bot_client : WebClient)
  (model_map mm' : model_map_t) (w w1 : world) (channel : string) :
  upload_loop props bot_client model_map (todays_gifs TODAY (w_fs w)) w
  = (Ok mm', w1) ->
  (forall mname model_dict,
      In (mname, model_dict) mm' ->
      dict_get "name" model_dict <> None
      /\ dict_get "gif-file-id" model_dict <> None) ->
  dict_get "public-chan" props = Some channel ->
  let blocks :=
    HeaderBlock ("WX Report for " ++ strftime_F TODAY)
    :: flat_map blocks_of_model mm' in
  compose_blocks TODAY mm' = Ok blocks
  /\ List.length blocks = (1 + 2 * List.length mm')%nat
  /\ (forall i mname model_dict,
         nth_error mm' i = Some (mname, model_dict) ->
         exists name id,
           dict_get "name" model_dict = Some name
           /\ dict_get "gif-file-id" model_dict = Some id
           /\ nth_error blocks (1 + 2 * i) = Some (ImageBlock name id "poopie")
           /\ nth_error blocks (2 + 2 * i) = Some DividerBlock)
  /\ posts (w_trace (snd (send_slack_message_blocks TODAY props bot_client
                            model_map w)))
     = posts (w_trace w) ++ [(channel, "Daily WX report incoming!", blocks)].
Proof.
  intros Hloop Hall Hchan blocks.
  assert (Hc : compose_blocks TODAY mm' = Ok blocks).
  { unfold compose_blocks. now rewrite append_model_blocks_ok. }
  split; [exact Hc|]. split; [|split].
  - unfold blocks. simpl. now rewrite blocks_of_models_length.
  - intros i mname model_dict Hnth.
    destruct (Hall mname model_dict (nth_error_In _ _ Hnth)) as [Hn Hi].
    destruct (dict_get "name" model_dict) as [name|] eqn:En; [|contradiction].
    destruct (dict_get "gif-file-id" model_dict) as [id|] eqn:Ei;
      [|contradiction].
    exists name, id.
    destruct (blocks_of_models_nth mm' i mname model_dict name id
                Hall Hnth En Ei) as [H1 H2].
    repeat split; unfold blocks.
    + exact H1.
    + replace (2 + 2 * i)%nat with (S (2 * i + 1)) by lia. exact H2.
  - rewrite send_slack_message_blocks_unfold, Hloop, Hc, Hchan.
    cbn [snd w_trace].
    pose proof (upload_loop_world props bot_client (todays_gifs TODAY (w_fs w))
                  model_map w) as [_ Hp].
    rewrite Hloop in Hp. simpl in Hp.
    unfold posts in *. rewrite flat_map_app, Hp. reflexivity.
Qed.

Lemma message_is_header_then_image_and_divider_per_model_witness :
  @send_slack_message_blocks wildcard_pathlib (refusing_slack "")
    today_2024_01_10 props_0 (mk_WebClient "xoxb-1") model_map_0
    (mk_world fs_with_gifs [])
  = (Ok [ ("upaCNTR_200",
           [("name", "Winds @ 200mb"); ("filetype", ".gif");
            ("gif-file-id", "F-upaCNTR_200")]);
          ("KFWD",
           [("name", "Skew-T/Log-P"); ("filetype", ".png");
            ("gif-file-id", "F-KFWD")]) ],
     mk_world fs_with_gifs
       [ Upload (Some "C1") "winds" "upaCNTR_200";
         Upload (Some "C1") "skewt" "KFWD";
         Sleep 3;
         Post "C2" "Daily WX report incoming!"
           [ HeaderBlock "WX Report for 2024-01-10";
             ImageBlock "Winds @ 200mb" "F-upaCNTR_200" "poopie"; DividerBlock;
             ImageBlock "Skew-T/Log-P" "F-KFWD" "poopie"; DividerBlock ] ])
  /\ posts (w_trace (snd (@send_slack_message_blocks wildcard_pathlib
                            (refusing_slack "") today_2024_01_10 props_0
                            (mk_WebClient "xoxb-1") model_map_0
                            (mk_world fs_with_gifs []))))
     = [ ("C2", "Daily WX report incoming!",
          [ HeaderBlock "WX Report for 2024-01-10";
            ImageBlock "Winds @ 200mb" "F-upaCNTR_200" "poopie"; DividerBlock;
            ImageBlock "Skew-T/Log-P" "F-KFWD" "poopie"; DividerBlock ]) ].
Proof.
  split; [reflexivity|].
  refine (proj2 (proj2 (proj2
    (@message_is_header_then_image_and_divider_per_model
       wildcard_pathlib (refusing_slack "") today_2024_01_10 props_0
       (mk_WebClient "xoxb-1") model_map_0
       [ ("upaCNTR_200",
          [("name", "Winds @ 200mb"); ("filetype", ".gif");
           ("gif-file-id", "F-upaCNTR_200")]);
         ("KFWD",
          [("name", "Skew-T/Log-P"); ("filetype", ".png");
           ("gif-file-id", "F-KFWD")]) ]
       (mk_world fs_with_gifs [])
       (mk_world fs_with_gifs
          [ Upload (Some "C1") "winds" "upaCNTR_200";
            Upload (Some "C1") "skewt" "KFWD" ])
       "C2" _ _ _)))).
  - reflexivity.
  - intros mname model_dict Hin. simpl in Hin.
    destruct Hin as [E|[E|[]]]; injection E as <- <-;
      split; discriminate.
  - reflexivity.
Defined.

(** C5.  A refused upload leaves the map as it was and the loop goes on
    with the next animation.  If every upload for one model is refused,
    that model's entry is still without ['gif-file-id'] when the loop
    ends, the composition of the message raises a [KeyError], which is
    the missing ['gif-file-id'] when the entries before that model are
    complete, and [send_slack_message_blocks] raises it without posting
    anything. *)
Theorem refused_upload_leaves_gap_and_composition_raises
  {pathlib : Pathlib} {slack : SlackApi}
  (TODAY : datetime) (props : dict string) (bot_client : WebClient)
  (model_map : model_map_t) (w : world)
  (mname : string) (model_dict : dict string) :
  dict_get mname model_map = Some model_dict ->
  dict_get "gif-file-id" model_dict = None ->
  (forall gif bytes r,
      In gif (todays_gifs TODAY (w_fs w)) ->
      model_of_gif_name (path_name gif) = mname ->
      fs_read (w_fs w) gif = Ok bytes ->
      files_upload_v2 bot_client (dict_get "private-chan" props) bytes mname
      = Ok r ->
      ok r = false) ->
  (forall mm gif rest w0 bytes r,
      fs_read (w_fs w0) gif = Ok bytes ->
      files_upload_v2 bot_client (dict_get "private-chan" props) bytes
        (model_of_gif_name (path_name gif)) = Ok r ->
      ok r = false ->
      upload_loop props bot_client mm (gif :: rest) w0
      = upload_loop props bot_client mm rest
          (mk_world (w_fs w0)
             (w_trace w0
              ++ [Upload (dict_get "private-chan" props) bytes
                    (model_of_gif_name (path_name gif))])))
  /\ (forall mm' w',
         upload_loop props bot_client model_map (todays_gifs TODAY (w_fs w)) w
         = (Ok mm', w') ->
         (exists d, dict_get mname mm' = Some d
                    /\ dict_get "gif-file-id" d = None)
         /\ (exists key,
                compose_blocks TODAY mm' = Raise (KeyError key)
                /\ send_slack_message_blocks TODAY props bot_client model_map w
                   = (Raise (KeyError key), w'))
         /\ (forall before after d,
                mm' = before ++ (mname, d) :: after ->
                (forall m0 d0, In (m0, d0) before ->
                               dict_get "name" d0 <> None
                               /\ dict_get "gif-file-id" d0 <> None) ->
                dict_get "name" d <> None ->
                dict_get "gif-file-id" d = None ->
                send_slack_message_blocks TODAY props bot_client model_map w
                = (Raise (KeyError "gif-file-id"), w')))
  /\ (exists e,
         fst (send_slack_message_blocks TODAY props bot_client model_map w)
         = Raise e)
  /\ posts (w_trace (snd (send_slack_message_blocks TODAY props bot_client
                            model_map w)))
     = posts (w_trace w).
Proof.
  intros Hentry Hgap Hrefused.
  split; [intros; eapply upload_loop_skips_refused; eassumption|].
  assert (Hafter : forall mm' w',
             upload_loop props bot_client model_map
               (todays_gifs TODAY (w_fs w)) w = (Ok mm', w') ->
             (exists d, dict_get mname mm' = Some d
                        /\ dict_get "gif-file-id" d = None)
             /\ exists key, compose_blocks TODAY mm' = Raise (KeyError key)).
  { intros mm' w' Hloop.
    assert (Hd : exists d, dict_get mname mm' = Some d
                           /\ dict_get "gif-file-id" d = None).
    { eapply upload_loop_keeps_gap; eauto. }
    split; [exact Hd|]. destruct Hd as [d [Hd Hg]].
    apply dict_get_In in Hd. unfold compose_blocks.
    eapply append_model_blocks_gap; eauto. }
  pose proof (upload_loop_world props bot_client (todays_gifs TODAY (w_fs w))
                model_map w) as [_ Hposts].
  split; [|split].
  - intros mm' w' Hloop. destruct (Hafter mm' w' Hloop) as [Hd [key Hkey]].
    split; [exact Hd|]. split.
    + exists key. split; [exact Hkey|].
      now rewrite send_slack_message_blocks_unfold, Hloop, Hkey.
    + intros before after d -> Hbefore Hn Hg.
      rewrite send_slack_message_blocks_unfold, Hloop.
      unfold compose_blocks.
      now rewrite (append_model_blocks_first_gap before after _ mname d
                     Hbefore Hn Hg).
  - rewrite send_slack_message_blocks_unfold.
    destruct (upload_loop _ _ _ _ _) as [[mm'|e] w'] eqn:Hloop.
    + destruct (Hafter mm' w' eq_refl) as [_ [key Hkey]]. rewrite Hkey.
      eexists. reflexivity.
    + eexists. reflexivity.
  - rewrite send_slack_message_blocks_unfold.
    destruct (upload_loop _ _ _ _ _) as [[mm'|e] w'] eqn:Hloop.
    + destruct (Hafter mm' w' eq_refl) as [_ [key Hkey]]. rewrite Hkey.
      exact Hposts.
    + exact Hposts.
Qed.

Lemma refused_upload_leaves_gap_and_composition_raises_witness :
  @send_slack_message_blocks wildcard_pathlib (refusing_slack "KFWD")
    today_2024_01_10 props_0 (mk_WebClient "xoxb-1") model_map_0
    (mk_world fs_with_gifs [])
  = (Raise (KeyError "gif-file-id"),
     mk_world fs_with_gifs
       [ Upload (Some "C1") "winds" "upaCNTR_200";
         Upload (Some "C1") "skewt" "KFWD" ])
  /\ posts (w_trace (snd (@send_slack_message_blocks wildcard_pathlib
                            (refusing_slack "KFWD") today_2024_01_10 props_0
                            (mk_WebClient "xoxb-1") model_map_0
                            (mk_world fs_with_gifs []))))
     = [].
Proof.
  split; [reflexivity|].
  refine (proj2 (proj2 (proj2
    (@refused_upload_leaves_gap_and_composition_raises
       wildcard_pathlib (refusing_slack "KFWD") today_2024_01_10 props_0
       (mk_WebClient "xoxb-1") model_map_0 (mk_world fs_with_gifs [])
       "KFWD" [("name", "Skew-T/Log-P"); ("filetype", ".png")] _ _ _)))).
  - reflexivity.
  - reflexivity.
  - intros gif bytes r Hin Hm Hr Hu. simpl in Hu.
    injection Hu as <-. reflexivity.
Defined.

(** ** The script as a whole *)

(** With an archive that answers 204 to everything and no frame of the
    first model in the cache, the script stops at [build_gif] with
    [StopIteration]: nothing is written and nothing is posted. *)
Example main_stops_on_empty_cache :
  let run :=
    @main wildcard_pathlib (constant_archive 204) bytes_pillow
      (refusing_slack "") today_2024_01_10 world_two_days in
  fst run = Raise StopIteration
  /\ w_fs (snd run) = fs_two_days ++ [(["data"; "upaCNTR_200"], Dir)]
  /\ writes (w_trace (snd run)) = []
  /\ posts (w_trace (snd run)) = [].
Proof. vm_compute. repeat split. Qed.

(** With blanks around the key [user-token] in the credential file, the
    script stops at [props['user-token']]. *)
Example main_stops_on_padded_key :
  @main wildcard_pathlib (constant_archive 200) bytes_pillow
    (refusing_slack "") today_2024_01_10 (mk_world fs_padded_key [])
  = (Raise (KeyError "user-token"), mk_world fs_padded_key []).
Proof. reflexivity. Qed.

(** * Further properties *)

(** ** More on [read_secrets] *)

Lemma read_secrets_loop_app (a b : list string) (secrets : dict string) :
  read_secrets_loop (a ++ b) secrets
  = match read_secrets_loop a secrets with
    | Ok d => read_secrets_loop b d
    | Raise e => Raise e
    end.
Proof.
  revert secrets. induction a as [|item rest IH]; intros secrets; simpl.
  - reflexivity.
  - destruct (skipped item); [apply IH|].
    destruct (Str.split_1 "=" item) as [|k [|v [|x l]]]; auto.
Qed.

Lemma read_secrets_loop_line (k v : string) (secrets : dict string) :
  Str.contains "=" k = false ->
  skipped (k ++ "=" ++ v) = false ->
  read_secrets_loop [(k ++ "=" ++ v)%string] secrets
  = Ok (dict_set k (Str.strip v) secrets).
Proof.
  intros Hk Hs. cbn [read_secrets_loop]. rewrite Hs. unfold Str.split_1.
  change (k ++ "=" ++ v)%string with (k ++ String "=" v)%string.
  now rewrite (cut_app "=" k v Hk).
Qed.

(** X1.  A line that is not skipped is cut at its first [=] only: the key
    is the text before it, the value the stripped rest, further [=]
    included.  Read after other lines, it sets its key to that value,
    replacing an earlier value of the same key in place and leaving the
    other keys as they were. *)
Theorem read_secrets_splits_at_first_separator
  (items : list string) (k v : string) (secrets d : dict string) :
  Str.contains "=" k = false ->
  skipped (k ++ "=" ++ v) = false ->
  read_secrets_loop items secrets = Ok d ->
  read_secrets_loop (items ++ [(k ++ "=" ++ v)%string]) secrets
  = Ok (dict_set k (Str.strip v) d)
  /\ dict_item k (dict_set k (Str.strip v) d) = Ok (Str.strip v)
  /\ (forall k', k' <> k ->
                 dict_item k' (dict_set k (Str.strip v) d) = dict_item k' d)
  /\ (str_in k (dict_keys d) = true ->
      dict_keys (dict_set k (Str.strip v) d) = dict_keys d).
Proof.
  intros Hk Hs Hd. rewrite read_secrets_loop_app, Hd.
  rewrite (read_secrets_loop_line k v d Hk Hs).
  split; [reflexivity|]. split; [|split].
  - unfold dict_item. now rewrite dict_get_set_same.
  - intros k' Hne. unfold dict_item. now rewrite dict_get_set_other.
  - intros Hin. rewrite dict_keys_set. now rewrite Hin.
Qed.

Lemma read_secrets_splits_at_first_separator_witness :
  Str.contains "=" "url" = false
  /\ skipped "url=https://x/?a=b " = false
  /\ read_secrets_loop ["# c"; "url=old"; "k=1"] [] = Ok [("url", "old"); ("k", "1")]
  /\ read_secrets_loop (["# c"; "url=old"; "k=1"] ++ ["url=https://x/?a=b "]) []
     = Ok [("url", "https://x/?a=b"); ("k", "1")].
Proof.
  split; [reflexivity|]. split; [reflexivity|]. split; [reflexivity|].
  exact (proj1 (read_secrets_splits_at_first_separator
                  ["# c"; "url=old"; "k=1"] "url" "https://x/?a=b " []
                  [("url", "old"); ("k", "1")]
                  eq_refl eq_refl eq_refl)).
Defined.

Lemma dict_set_keys_NoDup {V} (k : string) (v : V) (d : dict V) :
  NoDup (dict_keys d) -> NoDup (dict_keys (dict_set k v d)).
Proof.
  intros H. rewrite dict_keys_set.
  destruct (str_in k (dict_keys d)) eqn:E; [exact H|].
  apply NoDup_app_remove_l with (l := []). simpl.
  assert (Hn : ~ In k (dict_keys d)).
  { intros Hin. apply str_in_In in Hin. congruence. }
  clear E. induction (dict_keys d) as [|a l IH]; simpl.
  - constructor; [auto | constructor].
  - inversion H; subst. constructor.
    + intros Hin. apply in_app_or in Hin as [Hin|[<-|[]]]; [contradiction|].
      apply Hn. now left.
    + apply IH; auto. intros Hin. apply Hn. now right.
Qed.

Lemma read_secrets_loop_NoDup (items : list string) (secrets d : dict string) :
  NoDup (dict_keys secrets) ->
  read_secrets_loop items secrets = Ok d -> NoDup (dict_keys d).
Proof.
  revert secrets. induction items as [|item rest IH]; intros secrets Hn; simpl.
  - intros H. injection H as <-. exact Hn.
  - destruct (skipped item); [now apply IH|].
    destruct (Str.split_1 "=" item) as [|k [|v [|x l]]]; try discriminate.
    apply IH. now apply dict_set_keys_NoDup.
Qed.

(** A line that is read leaves the values of the keys other than its own
    as they were. *)
Lemma read_secrets_loop_keeps_key (k : string) (items : list string)
  (secrets d : dict string) :
  (forall item, In item items -> skipped item = false ->
                hd EmptyString (Str.split_1 "=" item) <> k) ->
  read_secrets_loop items secrets = Ok d ->
  dict_get k d = dict_get k secrets.
Proof.
  revert secrets. induction items as [|item rest IH]; intros secrets Hk; simpl.
  - intros H. now injection H as <-.
  - pose proof (Hk item (or_introl eq_refl)) as Hitem.
    assert (Hrest : forall i, In i rest -> skipped i = false ->
                              hd EmptyString (Str.split_1 "=" i) <> k)
      by (intros i Hi; apply Hk; now right).
    destruct (skipped item); [now apply IH|].
    destruct (Str.split_1 "=" item) as [|q [|v [|x l]]]; try discriminate.
    intros H. rewrite (IH _ Hrest H).
    apply dict_get_set_other. intros E. now apply (Hitem eq_refl).
Qed.

Lemma dict_item_of_entry {V} (d : dict V) :
  NoDup (dict_keys d) ->
  forall k v, In (k, v) d -> dict_item k d = Ok v.
Proof.
  induction d as [|[q w] r IH]; intros Hn k v Hin; [destruct Hin|].
  unfold dict_item. simpl. inversion Hn; subst.
  destruct Hin as [E|Hin].
  - injection E as -> ->. now rewrite String.eqb_refl.
  - destruct (q =? k) eqn:E.
    + apply String.eqb_eq in E. subst q. exfalso. apply H1.
      apply (in_map fst) in Hin. exact Hin.
    + apply (IH H2 k v Hin).
Qed.

(** X2.  When several lines of the credential file give the same key, the
    map [read_secrets] returns holds the value of the last of them: a
    line that is read and that no later line with the same key follows
    decides the value found under its key, whatever the lines before it
    say.  The map holds each key once, so that looking up the key of any
    of its entries gives that entry's value. *)
Theorem read_secrets_repeated_key_keeps_last_value
  (fs : filesystem) (path_obj : path) (text : string)
  (before after : list string) (k v : string) (secrets : dict string) :
  fs_read fs path_obj = Ok text ->
  Str.readlines text = before ++ (k ++ "=" ++ v)%string :: after ->
  Str.contains "=" k = false ->
  skipped (k ++ "=" ++ v) = false ->
  (forall item, In item after -> skipped item = false ->
                hd EmptyString (Str.split_1 "=" item) <> k) ->
  read_secrets fs path_obj = Ok secrets ->
  dict_item k secrets = Ok (Str.strip v)
  /\ In (k, Str.strip v) secrets
  /\ NoDup (dict_keys secrets)
  /\ forall k' v', In (k', v') secrets -> dict_item k' secrets = Ok v'.
Proof.
  intros Hr Hlines Hk Hs Hafter H. unfold read_secrets in H.
  rewrite Hr, Hlines in H.
  assert (Hn : NoDup (dict_keys secrets)).
  { eapply read_secrets_loop_NoDup; [|exact H]. constructor. }
  rewrite read_secrets_loop_app in H.
  destruct (read_secrets_loop before []) as [d0|]; [|discriminate].
  change ((k ++ "=" ++ v)%string :: after)
    with ([(k ++ "=" ++ v)%string] ++ after) in H.
  rewrite read_secrets_loop_app, (read_secrets_loop_line k v d0 Hk Hs) in H.
  pose proof (read_secrets_loop_keeps_key k after _ secrets Hafter H) as Hget.
  rewrite dict_get_set_same in Hget.
  split; [|split; [|split]].
  - unfold dict_item. now rewrite Hget.
  - now apply dict_get_In.
  - exact Hn.
  - now apply dict_item_of_entry.
Qed.

Lemma read_secrets_repeated_key_keeps_last_value_witness :
  read_secrets
    [(SECRETS_FILE,
      File ("a=1" ++ String "010" ("b=2" ++ String "010"
            ("a= 3 " ++ String "010" ("# a=4" ++ String "010" "c=a=5")))))]
    SECRETS_FILE
  = Ok [("a", "3"); ("b", "2"); ("c", "a=5")]
  /\ dict_item "a" [("a", "3"); ("b", "2"); ("c", "a=5")] = Ok (Str.strip " 3 ").
Proof.
  split; [reflexivity|].
  refine (proj1 (read_secrets_repeated_key_keeps_last_value
                   [(SECRETS_FILE,
                     File ("a=1" ++ String "010" ("b=2" ++ String "010"
                           ("a= 3 " ++ String "010"
                            ("# a=4" ++ String "010" "c=a=5")))))]
                   SECRETS_FILE
                   ("a=1" ++ String "010" ("b=2" ++ String "010"
                    ("a= 3 " ++ String "010" ("# a=4" ++ String "010" "c=a=5"))))
                   [("a=1" ++ String "010" "")%string;
                    ("b=2" ++ String "010" "")%string]
                   [("# a=4" ++ String "010" "")%string; "c=a=5"]
                   "a" (" 3 " ++ String "010" "")%string
                   [("a", "3"); ("b", "2"); ("c", "a=5")]
                   eq_refl eq_refl eq_refl eq_refl _ eq_refl)).
  intros item [<-|[<-|[]]] Hs; [discriminate Hs|].
  vm_compute. discriminate.
Defined.

(** X3.  A credential file that is empty or holds only comments and
    blank lines loads as the empty map, without error. *)
Theorem read_secrets_only_skipped_lines_gives_empty_map
  (fs : filesystem) (path_obj : path) (text : string) :
  fs_read fs path_obj = Ok text ->
  (forall item, In item (Str.readlines text) -> skipped item = true) ->
  read_secrets fs path_obj = Ok [].
Proof.
  intros Hr Hall. unfold read_secrets. rewrite Hr.
  induction (Str.readlines text) as [|item rest IH]; simpl; [reflexivity|].
  rewrite (Hall item) by (now left). apply IH. intros; apply Hall; now right.
Qed.

Lemma read_secrets_only_skipped_lines_gives_empty_map_witness :
  read_secrets [(SECRETS_FILE, File "")] SECRETS_FILE = Ok []
  /\ read_secrets
       [(SECRETS_FILE, File ("# a=1" ++ String "010" ("  " ++ String "013" "   #")))]
       SECRETS_FILE = Ok [].
Proof.
  split.
  - refine (read_secrets_only_skipped_lines_gives_empty_map
              [(SECRETS_FILE, File "")] SECRETS_FILE "" eq_refl _).
    intros item [].
  - refine (read_secrets_only_skipped_lines_gives_empty_map
              [(SECRETS_FILE,
                File ("# a=1" ++ String "010" ("  " ++ String "013" "   #")))]
              SECRETS_FILE
              ("# a=1" ++ String "010" ("  " ++ String "013" "   #"))
              eq_refl _).
    intros item Hin. vm_compute in Hin.
    destruct Hin as [<-|[<-|[<-|[]]]]; reflexivity.
Defined.

(** X4.  When the credential file cannot be read or parsed, or lacks
    ['bot-token'] or ['user-token'], the script stops with that error
    before it requests, writes, uploads or posts anything. *)
Section MainTokens.
Context {pathlib : Pathlib} {requests : Requests} {pillow : Pillow}
  {slack : SlackApi}.

Theorem main_stops_before_any_effect_without_credentials
  (TODAY : datetime) (w : world) :
  (forall e, read_secrets (w_fs w) SECRETS_FILE = Raise e ->
             main TODAY w = (Raise e, w))
  /\ (forall props,
         read_secrets (w_fs w) SECRETS_FILE = Ok props ->
         dict_get "bot-token" props = None ->
         main TODAY w = (Raise (KeyError "bot-token"), w))
  /\ (forall props,
         read_secrets (w_fs w) SECRETS_FILE = Ok props ->
         dict_get "bot-token" props <> None ->
         dict_get "user-token" props = None ->
         main TODAY w = (Raise (KeyError "user-token"), w)).
Proof.
  unfold main, bind, get_fs, lift, dict_item. repeat split.
  - intros e ->. reflexivity.
  - intros props -> ->. reflexivity.
  - intros props -> Hb ->. destruct (dict_get "bot-token" props); [|contradiction].
    reflexivity.
Qed.
End MainTokens.

Lemma main_stops_before_any_effect_without_credentials_witness :
  @main wildcard_pathlib (constant_archive 200) bytes_pillow (refusing_slack "")
    today_2024_01_10 (mk_world [] [])
  = (Raise (FileNotFoundError SECRETS_FILE), mk_world [] [])
  /\ @main wildcard_pathlib (constant_archive 200) bytes_pillow (refusing_slack "")
       today_2024_01_10 (mk_world [(SECRETS_FILE, File "user-token=x")] [])
     = (Raise (KeyError "bot-token"), mk_world [(SECRETS_FILE, File "user-token=x")] [])
  /\ @main wildcard_pathlib (constant_archive 200) bytes_pillow (refusing_slack "")
       today_2024_01_10 (mk_world fs_padded_key [])
     = (Raise (KeyError "user-token"), mk_world fs_padded_key []).
Proof.
  pose proof (@main_stops_before_any_effect_without_credentials
                wildcard_pathlib (constant_archive 200) bytes_pillow
                (refusing_slack "") today_2024_01_10) as H.
  split; [|split].
  - exact (proj1 (H (mk_world [] [])) _ eq_refl).
  - exact (proj1 (proj2 (H (mk_world [(SECRETS_FILE, File "user-token=x")] [])))
             [("user-token", "x")] eq_refl eq_refl).
  - refine (proj2 (proj2 (H (mk_world fs_padded_key [])))
              [("bot-token", "xoxb-1"); (" user-token ", "xoxp-2")]
              eq_refl _ eq_refl).
    discriminate.
Defined.

(** ** The queue of [retrieve_imgs] *)

Lemma traverse_NoDup {A B} (f : A -> result B) (xs : list A) (ys : list B) :
  traverse f xs = Ok ys ->
  NoDup xs ->
  (forall x x' y, In x xs -> In x' xs -> f x = Ok y -> f x' = Ok y -> x = x') ->
  NoDup ys.
Proof.
  intros H. apply traverse_Forall2 in H.
  induction H as [|x y xs' ys' Hxy HF IH]; intros Hnd Hinj.
  - constructor.
  - inversion Hnd; subst. constructor.
    + intros Hin.
      assert (Hex : exists x', In x' xs' /\ f x' = Ok y).
      { clear -HF Hin. induction HF as [|a b l l' Hab HF IH]; [destruct Hin|].
        destruct Hin as [<-|Hin]; [exists a; auto with datatypes|].
        destruct (IH Hin) as [x' [Hx' Hf]]. exists x'. auto with datatypes. }
      destruct Hex as [x' [Hx' Hf]].
      assert (x = x') by (apply (Hinj x x' y); auto with datatypes).
      subst x'. contradiction.
    + apply IH; auto. intros a a' b Ha Ha'. apply Hinj; auto with datatypes.
Qed.

Lemma range_down_NoDup (n : Z) : NoDup (range_down n).
Proof. apply countdown_NoDup. Qed.

(** The dates of a window are distinct, whatever the day. *)
Lemma dates_str_NoDup (TODAY : datetime) (span_days : Z) (dates : list string) :
  dates_str TODAY span_days = Ok dates -> NoDup dates.
Proof.
  intros H. eapply traverse_NoDup; [exact H | apply range_down_NoDup |].
  intros x x' y _ _ Hx Hx'.
  unfold sub_days in Hx, Hx'.
  destruct ((0 <? ordinal TODAY - x)%Z && (ordinal TODAY - x <=? MAXORDINAL)%Z)
    eqn:E; [|discriminate].
  destruct ((0 <? ordinal TODAY - x')%Z && (ordinal TODAY - x' <=? MAXORDINAL)%Z)
    eqn:E'; [|discriminate].
  apply andb_true_iff in E as [E1 E2]. apply andb_true_iff in E' as [E1' E2'].
  apply Z.ltb_lt in E1, E1'. apply Z.leb_le in E2, E2'.
  injection Hx as Hx. injection Hx' as Hx'. rewrite <- Hx' in Hx.
  apply strftime_Ymd_inj in Hx; [simpl in Hx; lia | |];
    unfold valid; simpl; lia.
Qed.

Lemma NoDup_map_on {A B} (f : A -> B) (l : list A) :
  NoDup l ->
  (forall x y, In x l -> In y l -> f x = f y -> x = y) ->
  NoDup (map f l).
Proof.
  induction 1 as [|a l Hnin Hnd IH]; intros Hinj; simpl; constructor.
  - intros Hin. apply in_map_iff in Hin as [y [Hy Hin]].
    assert (y = a) by (apply Hinj; auto with datatypes). subst y. contradiction.
  - apply IH. intros x y Hx Hy. apply Hinj; auto with datatypes.
Qed.

Lemma date_run_times_NoDup (dates : list string) :
  NoDup dates -> NoDup (date_run_times dates).
Proof.
  induction 1 as [|dt l Hnin Hnd IH]; [constructor|].
  change (date_run_times (dt :: l))
    with ((dt, "00") :: (dt, "12") :: date_run_times l).
  constructor.
  - intros [E|Hin]; [discriminate|].
    apply in_date_run_times in Hin as [Hin _]. contradiction.
  - constructor; [|exact IH].
    intros Hin. apply in_date_run_times in Hin as [Hin _]. contradiction.
Qed.

Lemma remote_filename_inj (dt dt' tod tod' model filetype : string) :
  String.length dt = String.length dt' ->
  String.length tod = String.length tod' ->
  remote_filename dt tod model filetype = remote_filename dt' tod' model filetype ->
  dt = dt' /\ tod = tod'.
Proof.
  unfold remote_filename. intros Hd Ht H.
  apply string_app_inj_length in H as [-> H]; [|exact Hd].
  apply (string_app_inv_head "_") in H.
  apply string_app_inj_length in H as [-> _]; [auto | exact Ht].
Qed.

Lemma run_times_length (tod : string) :
  In tod run_times -> String.length tod = 2.
Proof. intros [<-|[<-|[]]]; reflexivity. Qed.

(** The file names of the pairs of a window are distinct. *)
Lemma window_filenames_distinct (model filetype : string) (dates : list string) :
  NoDup dates ->
  (forall dt, In dt dates -> String.length dt = 8) ->
  forall p q,
    In p (date_run_times dates) -> In q (date_run_times dates) ->
    remote_filename (fst p) (snd p) model filetype
    = remote_filename (fst q) (snd q) model filetype ->
    p = q.
Proof.
  intros Hnd Hlen [dt tod] [dt' tod'] Hp Hq H. simpl in H.
  apply in_date_run_times in Hp as [Hd Ht], Hq as [Hd' Ht'].
  apply remote_filename_inj in H as [-> ->]; [reflexivity | |].
  - now rewrite (Hlen dt Hd), (Hlen dt' Hd').
  - now rewrite (run_times_length _ Ht), (run_times_length _ Ht').
Qed.

Lemma dict_set_fresh {V} (k : string) (v : V) (d : dict V) :
  ~ In k (dict_keys d) -> dict_set k v d = d ++ [(k, v)].
Proof.
  induction d as [|[q w] r IH]; simpl; intros H; [reflexivity|].
  destruct (q =? k) eqn:E.
  - apply String.eqb_eq in E. subst q. exfalso. apply H. now left.
  - rewrite IH; [reflexivity|]. intros Hin. apply H. now right.
Qed.

Lemma fold_visit_fresh (model filetype : string) (filenames : list string)
  (pairs : list (string * string)) (d : dict string) :
  NoDup (map (fun p => remote_filename (fst p) (snd p) model filetype) pairs) ->
  (forall p, In p pairs ->
             ~ In (remote_filename (fst p) (snd p) model filetype) (dict_keys d)) ->
  fold_left (visit model filetype filenames) pairs d
  = d ++ map (queue_entry model filetype)
         (filter
            (fun p => negb (str_in (remote_filename (fst p) (snd p) model filetype)
                              filenames))
            pairs).
Proof.
  revert d. induction pairs as [|p rest IH]; intros d Hnd Hfresh; simpl.
  - now rewrite app_nil_r.
  - inversion Hnd as [|? ? Hnin Hnd']; subst.
    unfold visit at 2, add_url.
    destruct (str_in (remote_filename (fst p) (snd p) model filetype) filenames)
      eqn:E; simpl.
    + apply IH; auto. intros q Hq. apply Hfresh. now right.
    + rewrite dict_set_fresh by (apply Hfresh; now left).
      rewrite IH; [now rewrite <- app_assoc | exact Hnd' |].
      intros q Hq Hin. unfold dict_keys in Hin. rewrite map_app in Hin.
      apply in_app_or in Hin as [Hin|[Hin|[]]].
      * apply (Hfresh q); [now right | exact Hin].
      * apply Hnin. simpl in Hin. rewrite Hin.
        apply (in_map (fun p => remote_filename (fst p) (snd p) model filetype)).
        exact Hq.
Qed.

(** The URL dictionary is the list of the frames of the window that are
    not in the cache, in the order of the loops. *)
Lemma build_url_dict_window_queue
  (TODAY : datetime) (span_days : Z) (dates : list string)
  (model filetype : string) (filenames : list string) :
  dates_str TODAY span_days = Ok dates ->
  build_url_dict model filetype filenames dates
  = window_queue model filetype filenames dates
  /\ NoDup (dict_keys (build_url_dict model filetype filenames dates))
  /\ NoDup (map snd (build_url_dict model filetype filenames dates))
  /\ (List.length (build_url_dict model filetype filenames dates)
      <= 2 * Z.to_nat span_days)%nat.
Proof.
  intros Hd.
  pose proof (dates_str_NoDup _ _ _ Hd) as Hnd.
  assert (Hlen : forall dt, In dt dates -> String.length dt = 8)
    by (intros dt; apply (dates_str_length _ _ _ _ Hd)).
  pose proof (window_filenames_distinct model filetype dates Hnd Hlen) as Hinj.
  assert (Hq : build_url_dict model filetype filenames dates
               = window_queue model filetype filenames dates).
  { unfold build_url_dict, window_queue. rewrite build_url_dict_flat.
    rewrite fold_visit_fresh; [reflexivity | | intros p _ []].
    apply NoDup_map_on; [now apply date_run_times_NoDup | exact Hinj]. }
  rewrite Hq. unfold window_queue.
  set (keep := filter _ (date_run_times dates)).
  assert (Hk : NoDup keep) by (apply NoDup_filter; now apply date_run_times_NoDup).
  assert (Hin : forall p, In p keep -> In p (date_run_times dates)).
  { intros p Hp. unfold keep in Hp. now apply filter_In in Hp. }
  split; [reflexivity|]. split; [|split].
  - unfold dict_keys. rewrite map_map. apply NoDup_map_on; [exact Hk|].
    intros p q Hp Hq'. simpl. apply Hinj; auto.
  - rewrite map_map. apply NoDup_map_on; [exact Hk|].
    intros p q Hp Hq' H. simpl in H.
    apply Hin in Hp, Hq'.
    apply remote_url_inj in H as [_ H]; [now apply Hinj|].
    destruct p as [dt tod], q as [dt' tod']. simpl.
    apply in_date_run_times in Hp as [Hp _], Hq' as [Hq' _].
    now rewrite (Hlen _ Hp), (Hlen _ Hq').
  - rewrite length_map. unfold keep.
    etransitivity; [apply filter_length_le|].
    unfold date_run_times.
    assert (Hl : List.length dates = Z.to_nat span_days).
    { unfold dates_str in Hd. apply traverse_Forall2, Forall2_length in Hd.
      rewrite <- Hd. unfold range_down.
      clear. induction (Z.to_nat span_days) as [|n IH]; [reflexivity|].
      change (countdown (S n)) with (Z.of_nat (S n) :: countdown n).
      simpl. now rewrite IH. }
    rewrite <- Hl. clear. unfold run_times.
    induction dates as [|dt l IH]; simpl in *; lia.
Qed.

(** X6.  Whenever the date window can be computed, the URL dictionary of
    [retrieve_imgs] is exactly the list of the window's frames whose file
    name is not in the cache, oldest day first and ["00"] before ["12"],
    each with its URL; its file names and its URLs are distinct, and it
    holds at most two entries per day of the span. *)
Theorem url_dict_is_the_uncached_window_in_order
  (TODAY : datetime) (span_days : Z) (dates : list string)
  (model filetype : string) (filenames : list string) :
  dates_str TODAY span_days = Ok dates ->
  build_url_dict model filetype filenames dates
  = window_queue model filetype filenames dates
  /\ NoDup (dict_keys (build_url_dict model filetype filenames dates))
  /\ NoDup (map snd (build_url_dict model filetype filenames dates))
  /\ (List.length (build_url_dict model filetype filenames dates)
      <= 2 * Z.to_nat span_days)%nat.
Proof. apply build_url_dict_window_queue. Qed.


Lemma url_dict_is_the_uncached_window_in_order_witness :
  dates_str today_2024_01_10 2 = Ok ["20240108"; "20240109"]
  /\ build_url_dict "KFWD" ".png" ["20240108_120000_KFWD.png"]
       ["20240108"; "20240109"]
     = window_queue "KFWD" ".png" ["20240108_120000_KFWD.png"]
         ["20240108"; "20240109"]
  /\ dict_keys (window_queue "KFWD" ".png" ["20240108_120000_KFWD.png"]
                  ["20240108"; "20240109"])
     = ["20240108_000000_KFWD.png"; "20240109_000000_KFWD.png";
        "20240109_120000_KFWD.png"].
Proof.
  split; [reflexivity|]. split; [|reflexivity].
  exact (proj1 (url_dict_is_the_uncached_window_in_order
                  today_2024_01_10 2 ["20240108"; "20240109"] "KFWD" ".png"
                  ["20240108_120000_KFWD.png"] eq_refl)).
Defined.

Section MoreRetrieve.
Context {pathlib : Pathlib} {requests : Requests}.

(** X5.  For [span_days] zero or negative the window is empty:
    [retrieve_imgs] returns without a request and leaves the world as it
    found it. *)
Theorem retrieve_imgs_nonpositive_span_does_nothing
  (TODAY : datetime) (model filetype : string) (span_days : Z) (w : world) :
  (span_days <= 0)%Z ->
  retrieve_imgs TODAY model filetype span_days w = (Ok tt, w).
Proof.
  intros H. rewrite retrieve_imgs_unfold. unfold dates_str, range_down.
  replace (Z.to_nat span_days) with 0%nat by lia. reflexivity.
Qed.

Lemma firstn_length_le' {A} (k : nat) (l : list A) :
  (List.length (firstn k l) <= List.length l)%nat.
Proof.
  revert l. induction k as [|k IH]; intros [|a l]; simpl; try lia.
  specialize (IH l). lia.
Qed.

Lemma NoDup_firstn {A} (k : nat) (l : list A) : NoDup l -> NoDup (firstn k l).
Proof.
  revert l. induction k as [|k IH]; intros [|a l] H; simpl; try constructor.
  - inversion H; subst. intros Hin. apply In_firstn in Hin. contradiction.
  - inversion H; subst. auto.
Qed.

Lemma sleeps_app (a b : list event) : sleeps (a ++ b) = sleeps a ++ sleeps b.
Proof. apply flat_map_app. Qed.

Lemma prepare_events (model : string) (i : nat) (filename : string) (w : world) :
  exists evs,
    w_trace (snd (prepare model i filename w)) = w_trace w ++ evs
    /\ gets evs = [] /\ writes evs = [] /\ sleeps evs = [].
Proof.
  unfold prepare. destruct (Nat.eqb i 0).
  - unfold mkdir_parents. destruct (mkdir_from _ _ _); simpl.
    + exists [Mkdir (parent (DATA_DIR ++ [model; filename]))]. auto.
    + exists []. now rewrite app_nil_r.
  - exists []. simpl. now rewrite app_nil_r.
Qed.

Lemma prepare_keeps (model : string) (i : nat) (filename : string) (w : world)
  (p : path) (n : node) :
  fs_lookup (w_fs w) p = Some n ->
  fs_lookup (w_fs (snd (prepare model i filename w))) p = Some n.
Proof.
  unfold prepare. destruct (Nat.eqb i 0); [|auto].
  unfold mkdir_parents.
  destruct (mkdir_from (w_fs w) [] _) as [fs'|] eqn:E; [|auto].
  cbn [snd w_fs]. now apply (mkdir_from_keeps _ _ _ _ _ _ E).
Qed.

(** One turn of the loop: the pauses are of three seconds, one after each
    file written; nothing is written without a request; an entry that
    was there is still there, unchanged unless it is the file written. *)
Lemma fetch_one_polite (model : string) (i : nat) (filename url : string)
  (w : world) :
  exists evs,
    w_trace (snd (fetch_one model i filename url w)) = w_trace w ++ evs
    /\ sleeps evs = map (fun _ => 3%Z) (writes evs)
    /\ (List.length (writes evs) <= List.length (gets evs))%nat
    /\ (forall p n,
           fs_lookup (w_fs w) p = Some n ->
           fs_lookup (w_fs (snd (fetch_one model i filename url w))) p = Some n
           \/ (In p (writes evs)
               /\ exists c,
                    fs_lookup (w_fs (snd (fetch_one model i filename url w))) p
                    = Some (File c))).
Proof.
  destruct (prepare_events model i filename w) as [evs0 [Ht0 [Hg0 [Hw0 Hs0]]]].
  pose proof (prepare_keeps model i filename w) as Hk0.
  destruct (prepare model i filename w) as [[[]|e] w1] eqn:Hp;
    cbn [snd] in Ht0, Hk0.
  - destruct (requests_get url) as [resp|e] eqn:Hg.
    + destruct (Z.eq_dec (status_code resp) 200) as [Hs|Hs].
      * rewrite (fetch_one_200 _ _ _ _ _ _ _ Hp Hg Hs).
        destruct (fs_open_w (w_fs w1) (DATA_DIR ++ [model; filename]))
          as [fs1|] eqn:Eo; cbn [snd w_fs w_trace];
          rewrite Ht0, <- app_assoc; eexists; (split; [reflexivity|]);
          rewrite sleeps_app, gets_app, writes_app, Hw0, Hs0, Hg0.
        -- apply fs_open_w_spec in Eo. subst fs1. rewrite fs_set_set.
           split; [reflexivity|]. split; [simpl; lia|].
           intros p n Hl.
           destruct (list_eq_dec string_dec (DATA_DIR ++ [model; filename]) p)
             as [<-|Hne].
           ++ right. split; [now left|]. rewrite fs_lookup_set_same. eauto.
           ++ left. rewrite fs_lookup_set_other by exact Hne. auto.
        -- split; [reflexivity|]. split; [simpl; lia|]. auto.
      * rewrite (fetch_one_not_200 _ _ _ _ _ _ _ Hp Hg Hs).
        cbn [snd w_fs w_trace]. rewrite Ht0, <- app_assoc.
        eexists. split; [reflexivity|].
        rewrite sleeps_app, gets_app, writes_app, Hw0, Hs0, Hg0.
        split; [reflexivity|]. split; [simpl; lia|]. auto.
    + rewrite (fetch_one_get_fails _ _ _ _ _ _ _ Hp Hg).
      cbn [snd w_fs w_trace]. rewrite Ht0, <- app_assoc.
      eexists. split; [reflexivity|].
      rewrite sleeps_app, gets_app, writes_app, Hw0, Hs0, Hg0.
      split; [reflexivity|]. split; [simpl; lia|]. auto.
  - rewrite (fetch_one_prepare_fails _ _ _ _ _ _ _ Hp). cbn [snd].
    exists []. rewrite app_nil_r. split; [reflexivity|].
    split; [reflexivity|]. split; [simpl; lia|]. auto.
Qed.

Lemma fetch_loop_polite (model : string) (items : dict string) (i : nat)
  (w : world) :
  exists evs,
    w_trace (snd (fetch_loop model i items w)) = w_trace w ++ evs
    /\ sleeps evs = map (fun _ => 3%Z) (writes evs)
    /\ (List.length (writes evs) <= List.length (gets evs))%nat
    /\ (forall p n,
           fs_lookup (w_fs w) p = Some n ->
           fs_lookup (w_fs (snd (fetch_loop model i items w))) p = Some n
           \/ (In p (writes evs)
               /\ exists c,
                    fs_lookup (w_fs (snd (fetch_loop model i items w))) p
                    = Some (File c))).
Proof.
  revert i w. induction items as [|[filename url] rest IH]; intros i w.
  - exists []. simpl. rewrite app_nil_r. auto.
  - simpl. unfold bind.
    destruct (fetch_one_polite model i filename url w)
      as [e1 [Ht1 [Hs1 [Hl1 Hk1]]]].
    destruct (fetch_one model i filename url w) as [[[]|e] w1]; cbn [snd] in *.
    + destruct (IH (S i) w1) as [e2 [Ht2 [Hs2 [Hl2 Hk2]]]].
      exists (e1 ++ e2). rewrite Ht2, Ht1, app_assoc. split; [reflexivity|].
      rewrite sleeps_app, writes_app, gets_app, map_app, Hs1, Hs2, !length_app.
      split; [reflexivity|]. split; [lia|].
      intros p n Hl. destruct (Hk1 p n Hl) as [H1|[Hin [c Hc]]].
      * destruct (Hk2 p n H1) as [H2|[Hin [c Hc]]]; [now left|].
        right. split; [apply in_or_app; now right | eauto].
      * destruct (Hk2 p _ Hc) as [H2|[Hin' [c' Hc']]].
        -- right. split; [apply in_or_app; now left | eauto].
        -- right. split; [apply in_or_app; now left | eauto].
    + exists e1. auto.
Qed.

(** X7.  In any run, whatever the archive answers, [retrieve_imgs] never
    requests the same URL twice, issues at most two requests per day of
    the span, and writes no more files than it issued requests. *)
Theorem retrieve_imgs_requests_each_frame_at_most_once
  (TODAY : datetime) (model filetype : string) (span_days : Z) (w : world) :
  exists evs,
    w_trace (snd (retrieve_imgs TODAY model filetype span_days w))
    = w_trace w ++ evs
    /\ NoDup (gets evs)
    /\ (List.length (gets evs) <= 2 * Z.to_nat span_days)%nat
    /\ (List.length (writes evs) <= List.length (gets evs))%nat.
Proof.
  rewrite retrieve_imgs_unfold.
  destruct (dates_str TODAY span_days) as [dates|e] eqn:Hd.
  - set (items := build_url_dict model filetype
                    (cached_filenames (w_fs w) model filetype) dates).
    destruct (build_url_dict_window_queue TODAY span_days dates
                model filetype (cached_filenames (w_fs w) model filetype) Hd)
      as [_ [_ [Hnd Hlen]]].
    fold items in Hnd, Hlen.
    destruct (fetch_loop_trace model items 0 w) as [evs [Ht [[k Hk] _]]].
    destruct (fetch_loop_polite model items 0 w) as [evs' [Ht' [_ [Hl _]]]].
    assert (evs' = evs) as ->.
    { rewrite Ht in Ht'. now apply app_inv_head in Ht'. }
    exists evs. split; [exact Ht|]. rewrite Hk. split; [|split].
    + now apply NoDup_firstn.
    + etransitivity; [apply firstn_length_le'|]. now rewrite length_map.
    + now rewrite <- Hk.
  - exists []. cbn [snd]. rewrite app_nil_r. split; [reflexivity|].
    simpl. split; [constructor | lia].
Qed.

(** X8.  In any run of [retrieve_imgs] every pause lasts three seconds
    and there is exactly one pause per file written. *)
Theorem retrieve_imgs_pauses_three_seconds_after_each_file
  (TODAY : datetime) (model filetype : string) (span_days : Z) (w : world) :
  exists evs,
    w_trace (snd (retrieve_imgs TODAY model filetype span_days w))
    = w_trace w ++ evs
    /\ sleeps evs = map (fun _ => 3%Z) (writes evs).
Proof.
  rewrite retrieve_imgs_unfold.
  destruct (dates_str TODAY span_days) as [dates|e].
  - destruct (fetch_loop_polite model
                (build_url_dict model filetype
                   (cached_filenames (w_fs w) model filetype) dates) 0 w)
      as [evs [Ht [Hs _]]]. eauto.
  - exists []. cbn [snd]. now rewrite app_nil_r.
Qed.

(** X9.  A run of [retrieve_imgs] writes only files of the model's cache
    directory whose names the scan did not report, and it removes
    nothing: every entry that was there is there afterwards, unchanged
    unless it is one of the files just written. *)
Theorem retrieve_imgs_changes_only_the_files_it_writes
  (TODAY : datetime) (model filetype : string) (span_days : Z) (w : world) :
  exists evs,
    w_trace (snd (retrieve_imgs TODAY model filetype span_days w))
    = w_trace w ++ evs
    /\ (forall p, In p (writes evs) ->
                  exists filename,
                    p = DATA_DIR ++ [model; filename]
                    /\ ~ In filename (cached_filenames (w_fs w) model filetype))
    /\ (forall p n,
           fs_lookup (w_fs w) p = Some n ->
           fs_lookup
             (w_fs (snd (retrieve_imgs TODAY model filetype span_days w))) p
           = Some n
           \/ (In p (writes evs)
               /\ exists c,
                    fs_lookup
                      (w_fs (snd (retrieve_imgs TODAY model filetype span_days w)))
                      p
                    = Some (File c))).
Proof.
  rewrite retrieve_imgs_unfold.
  destruct (dates_str TODAY span_days) as [dates|e].
  - set (items := build_url_dict model filetype
                    (cached_filenames (w_fs w) model filetype) dates).
    destruct (fetch_loop_trace model items 0 w) as [evs [Ht [_ [Hw _]]]].
    destruct (fetch_loop_polite model items 0 w) as [evs' [Ht' [_ [_ Hk]]]].
    assert (evs' = evs) as ->.
    { rewrite Ht in Ht'. now apply app_inv_head in Ht'. }
    exists evs. split; [exact Ht|]. split; [|exact Hk].
    intros p Hin. apply Hw in Hin. apply in_map_iff in Hin as [f [<- Hin]].
    exists f. split; [reflexivity|].
    apply in_map_iff in Hin as [[f' u] [Hf Hin]]. simpl in Hf. subst f'.
    apply url_dict_entry in Hin as [dt [tod [_ [_ [_ [_ Hn]]]]]]. exact Hn.
  - exists []. cbn [snd]. rewrite app_nil_r. split; [reflexivity|].
    split; [intros p []| auto].
Qed.

End MoreRetrieve.

(** ** Downloads that succeed *)

Lemma fs_lookup_app_none (fs l : filesystem) (p : path) :
  fs_lookup fs p = None -> fs_lookup (fs ++ l) p = fs_lookup l p.
Proof.
  induction fs as [|[q m] r IH]; simpl; [auto|].
  destruct (path_eqb q p); [discriminate | exact IH].
Qed.

Lemma is_dir_lookup (fs : filesystem) (p : path) :
  fs_lookup fs p = Some Dir -> is_dir fs p = true.
Proof.
  intros H. unfold is_dir. destruct p; [reflexivity|]. now rewrite H.
Qed.

Lemma mkdir_from_makes_dir (todo : list string) (fs fs' : filesystem)
  (done : path) :
  mkdir_from fs done todo = Ok fs' ->
  (todo = [] -> is_dir fs done = true) ->
  is_dir fs' (done ++ todo) = true.
Proof.
  revert fs done. induction todo as [|c rest IH]; intros fs done H Hd.
  - simpl in H. injection H as <-. rewrite app_nil_r. auto.
  - simpl in H. replace (done ++ c :: rest) with ((done ++ [c]) ++ rest)
      by (now rewrite <- app_assoc).
    destruct (fs_lookup fs (done ++ [c])) as [[|]|] eqn:E.
    + destruct rest; discriminate.
    + apply (IH fs); [exact H|]. intros _. now apply is_dir_lookup.
    + apply (IH _ _ H). intros _. apply is_dir_lookup.
      rewrite (fs_lookup_app_none _ _ _ E). simpl. now rewrite path_eqb_refl.
Qed.

Lemma is_dir_set_file (fs : filesystem) (p q : path) (c : string) :
  is_dir fs q = true -> p <> q \/ q = [] ->
  is_dir (fs_set fs p (File c)) q = true.
Proof.
  intros H Hne. destruct q as [|a q]; [reflexivity|].
  unfold is_dir in *. rewrite fs_lookup_set_other; [exact H|].
  destruct Hne as [Hne|Hne]; [exact Hne | discriminate].
Qed.

Lemma is_dir_set_other (fs : filesystem) (p q : path) (n : node) :
  p <> q -> is_dir (fs_set fs p n) q = is_dir fs q.
Proof.
  intros Hne. destruct q as [|a q]; [reflexivity|].
  unfold is_dir. now rewrite fs_lookup_set_other.
Qed.

Section Success.
Context {pathlib : Pathlib} {requests : Requests}.

Lemma fs_open_w_in_dir (fs : filesystem) (p : path) :
  is_dir fs p = false -> is_dir fs (parent p) = true ->
  fs_open_w fs p = Ok (fs_set fs p (File EmptyString)).
Proof.
  intros Hp Hd. unfold fs_open_w. rewrite Hp, Hd.
  now destruct (is_file fs p).
Qed.

Lemma fetch_one_stores (model : string) (i : nat) (filename url : string)
  (w w1 : world) (resp : response) :
  prepare model i filename w = (Ok tt, w1) ->
  requests_get url = Ok resp ->
  status_code resp = 200%Z ->
  is_dir (w_fs w1) (DATA_DIR ++ [model]) = true ->
  is_dir (w_fs w1) (DATA_DIR ++ [model; filename]) = false ->
  fetch_one model i filename url w
  = (Ok tt,
     mk_world
       (fs_set (w_fs w1) (DATA_DIR ++ [model; filename]) (File (content resp)))
       (w_trace w1 ++ download_events model (filename, url))).
Proof.
  intros Hp Hg Hs Hd Hn. rewrite (fetch_one_200 _ _ _ _ _ _ _ Hp Hg Hs).
  rewrite fs_open_w_in_dir; [|exact Hn|exact Hd].
  now rewrite fs_set_set.
Qed.

Lemma cache_path_inj (model f f' : string) :
  DATA_DIR ++ [model; f] = DATA_DIR ++ [model; f'] -> f = f'.
Proof. intros H. apply app_inv_head in H. now injection H. Qed.

Lemma cache_path_not_dir (model f : string) :
  DATA_DIR ++ [model; f] <> DATA_DIR ++ [model].
Proof. intros H. apply app_inv_head in H. discriminate. Qed.

(** The turns after the first, when every answer is a 200. *)
Lemma fetch_loop_stores (model : string) (items : dict string) (i : nat)
  (w : world) :
  NoDup (dict_keys items) ->
  is_dir (w_fs w) (DATA_DIR ++ [model]) = true ->
  (forall f u, In (f, u) items ->
               is_dir (w_fs w) (DATA_DIR ++ [model; f]) = false) ->
  (forall f u, In (f, u) items ->
               exists resp, requests_get u = Ok resp /\ status_code resp = 200%Z) ->
  exists fs',
    fetch_loop model (S i) items w
    = (Ok tt,
       mk_world fs' (w_trace w ++ flat_map (download_events model) items))
    /\ (forall f u resp,
           In (f, u) items -> requests_get u = Ok resp ->
           fs_read fs' (DATA_DIR ++ [model; f]) = Ok (content resp))
    /\ (forall p,
           (forall f, In f (dict_keys items) -> p <> DATA_DIR ++ [model; f]) ->
           fs_lookup fs' p = fs_lookup (w_fs w) p).
Proof.
  revert i w. induction items as [|[f u] rest IH]; intros i w Hnd Hd Hn H200.
  - exists (w_fs w). simpl. rewrite app_nil_r. destruct w. split; [reflexivity|].
    split; [intros ? ? ? []| reflexivity].
  - inversion Hnd as [|? ? Hnin Hnd']; subst.
    destruct (H200 f u (or_introl eq_refl)) as [resp [Hg Hs]].
    cbn [fetch_loop]. unfold bind.
    rewrite (fetch_one_stores model (S i) f u w w resp eq_refl Hg Hs Hd
               (Hn f u (or_introl eq_refl))).
    set (fs1 := fs_set (w_fs w) (DATA_DIR ++ [model; f]) (File (content resp))).
    destruct (IH (S i) (mk_world fs1 (w_trace w ++ download_events model (f, u))))
      as [fs' [Hrun [Hread Hother]]]; cbn [w_fs w_trace].
    + exact Hnd'.
    + unfold fs1. apply is_dir_set_file; [exact Hd|]. left. apply cache_path_not_dir.
    + intros f' u' Hin. unfold fs1. rewrite is_dir_set_other.
      * apply (Hn f' u'). now right.
      * intros E. apply cache_path_inj in E. subst f'. apply Hnin.
        apply (in_map fst) in Hin. exact Hin.
    + intros f' u' Hin. apply (H200 f' u'). now right.
    + exists fs'. rewrite Hrun. cbn [w_trace flat_map]. rewrite <- app_assoc.
      split; [reflexivity|]. split.
      * intros f' u' resp' [E|Hin] Hg'.
        -- injection E as <- <-. rewrite Hg in Hg'. injection Hg' as <-.
           unfold fs_read. rewrite Hother.
           ++ cbn [w_fs]. unfold fs1. now rewrite fs_lookup_set_same.
           ++ intros f' Hf' E. apply cache_path_inj in E. subst f'. contradiction.
        -- apply (Hread f' u' resp' Hin Hg').
      * intros p Hp. rewrite Hother.
        -- cbn [w_fs]. unfold fs1. rewrite fs_lookup_set_other; [reflexivity|].
           intros E. apply (Hp f); [now left | now symmetry].
        -- intros f' Hf'. apply Hp. now right.
Qed.

(** X10.  When the model's directory exists or can be made, no queued
    path is a directory and the archive answers 200 to every queued URL,
    [retrieve_imgs] returns normally after a request, a write and a
    pause of three seconds for each queued file in turn; each file then
    holds the body of its answer byte for byte, and every other entry is
    as the making of the directory left it. *)
Theorem retrieve_imgs_stores_every_answer_verbatim
  (TODAY : datetime) (model filetype : string) (span_days : Z) (w : world)
  (dates : list string) (fs0 : filesystem) :
  dates_str TODAY span_days = Ok dates ->
  mkdir_from (w_fs w) [] (DATA_DIR ++ [model]) = Ok fs0 ->
  (forall f u,
      In (f, u) (build_url_dict model filetype
                   (cached_filenames (w_fs w) model filetype) dates) ->
      is_dir fs0 (DATA_DIR ++ [model; f]) = false
      /\ exists resp, requests_get u = Ok resp /\ status_code resp = 200%Z) ->
  let queue :=
    build_url_dict model filetype
      (cached_filenames (w_fs w) model filetype) dates in
  let run := retrieve_imgs TODAY model filetype span_days w in
  fst run = Ok tt
  /\ w_trace (snd run)
     = w_trace w
       ++ match queue with
          | [] => []
          | _ => Mkdir (DATA_DIR ++ [model])
                 :: flat_map (download_events model) queue
          end
  /\ (forall f u resp,
         In (f, u) queue -> requests_get u = Ok resp ->
         fs_read (w_fs (snd run)) (DATA_DIR ++ [model; f]) = Ok (content resp))
  /\ (forall p,
         (forall f, In f (dict_keys queue) -> p <> DATA_DIR ++ [model; f]) ->
         fs_lookup (w_fs (snd run)) p
         = fs_lookup (match queue with [] => w_fs w | _ => fs0 end) p).
Proof.
  intros Hd Hmk Hq queue run. unfold run. rewrite retrieve_imgs_unfold, Hd.
  fold queue. fold queue in Hq.
  destruct (build_url_dict_window_queue TODAY span_days dates
              model filetype (cached_filenames (w_fs w) model filetype) Hd)
    as [_ [Hnd _]].
  fold queue in Hnd. clearbody queue.
  destruct queue as [|[f u] rest].
  - simpl. rewrite app_nil_r. split; [reflexivity|]. split; [reflexivity|].
    split; [intros ? ? ? []| reflexivity].
  - inversion Hnd as [|? ? Hnin Hnd']; subst.
    destruct (Hq f u (or_introl eq_refl)) as [Hn [resp [Hg Hs]]].
    assert (Hdir : is_dir fs0 (DATA_DIR ++ [model]) = true).
    { apply (mkdir_from_makes_dir _ _ _ [] Hmk). discriminate. }
    assert (Hp : prepare model 0 f w
                 = (Ok tt, mk_world fs0 (w_trace w ++ [Mkdir (DATA_DIR ++ [model])]))).
    { unfold prepare, mkdir_parents. cbn [Nat.eqb].
      change (parent (DATA_DIR ++ [model; f])) with (DATA_DIR ++ [model]).
      now rewrite Hmk. }
    cbn [fetch_loop]. unfold bind.
    rewrite (fetch_one_stores model 0 f u w _ resp Hp Hg Hs Hdir Hn).
    cbn [w_fs w_trace].
    set (fs1 := fs_set fs0 (DATA_DIR ++ [model; f]) (File (content resp))).
    destruct (fetch_loop_stores model rest 0
                (mk_world fs1
                   ((w_trace w ++ [Mkdir (DATA_DIR ++ [model])])
                    ++ download_events model (f, u))))
      as [fs' [Hrun [Hread Hother]]]; cbn [w_fs w_trace].
    + exact Hnd'.
    + unfold fs1. apply is_dir_set_file; [exact Hdir|]. left.
      apply cache_path_not_dir.
    + intros f' u' Hin. unfold fs1. rewrite is_dir_set_other.
      * apply (Hq f' u'). now right.
      * intros E. apply cache_path_inj in E. subst f'. apply Hnin.
        apply (in_map fst) in Hin. exact Hin.
    + intros f' u' Hin. apply (Hq f' u'). now right.
    + rewrite Hrun. cbn [fst snd w_fs w_trace flat_map].
      rewrite <- !app_assoc. split; [reflexivity|]. split; [reflexivity|]. split.
      * intros f' u' resp' [E|Hin] Hg'.
        -- injection E as <- <-. rewrite Hg in Hg'. injection Hg' as <-.
           unfold fs_read. rewrite Hother.
           ++ cbn [w_fs]. unfold fs1. now rewrite fs_lookup_set_same.
           ++ intros f' Hf' E. apply cache_path_inj in E. subst f'. contradiction.
        -- apply (Hread f' u' resp' Hin Hg').
      * intros p Hp'. rewrite Hother.
        -- cbn [w_fs]. unfold fs1. rewrite fs_lookup_set_other; [reflexivity|].
           intros E. apply (Hp' f); [now left | now symmetry].
        -- intros f' Hf'. apply Hp'. now right.
Qed.

End Success.

Lemma retrieve_imgs_stores_every_answer_verbatim_witness :
  let run :=
    @retrieve_imgs wildcard_pathlib (constant_archive 200)
      today_2024_01_10 "KFWD" ".png" 3 world_two_days in
  fst run = Ok tt
  /\ w_trace (snd run)
     = [ Mkdir ["data"; "KFWD"];
         Get "https://weather.ral.ucar.edu/data/upper/20240107/20240107_000000_KFWD.png";
         Write ["data"; "KFWD"; "20240107_000000_KFWD.png"];
         Sleep 3;
         Get "https://weather.ral.ucar.edu/data/upper/20240107/20240107_120000_KFWD.png";
         Write ["data"; "KFWD"; "20240107_120000_KFWD.png"];
         Sleep 3 ]
  /\ fs_read (w_fs (snd run)) ["data"; "KFWD"; "20240107_120000_KFWD.png"]
     = Ok "frame".
Proof.
  pose proof (@retrieve_imgs_stores_every_answer_verbatim
                wildcard_pathlib (constant_archive 200)
                today_2024_01_10 "KFWD" ".png" 3 world_two_days
                ["20240107"; "20240108"; "20240109"] fs_two_days
                eq_refl eq_refl) as H.
  destruct H as [H1 [H2 [H3 _]]].
  - intros f u Hin. vm_compute in Hin.
    destruct Hin as [E|[E|[]]]; injection E as <- <-;
      (split; [reflexivity | eexists; split; reflexivity]).
  - split; [exact H1|]. split; [exact H2|].
    apply (H3 "20240107_120000_KFWD.png"
              "https://weather.ral.ucar.edu/data/upper/20240107/20240107_120000_KFWD.png"
              (mk_response 200 "frame")); [|reflexivity].
    vm_compute. auto.
Defined.

(** ** More on [build_gif] *)

Lemma fs_lookup_remove_other (fs : filesystem) (p q : path) :
  p <> q -> fs_lookup (fs_remove fs p) q = fs_lookup fs q.
Proof.
  intros Hne. unfold fs_remove. induction fs as [|[x n] r IH]; simpl; [reflexivity|].
  destruct (path_eqb x p) eqn:E; simpl.
  - apply path_eqb_eq in E. subst x. now rewrite (path_eqb_neq p q Hne).
  - destruct (path_eqb x q); [reflexivity | exact IH].
Qed.

Section MoreGif.
Context {pathlib : Pathlib} {pillow : Pillow}.

(** X13.  [build_gif] returns normally only if the model's directory holds
    at least one entry and every entry found under it opens as an image;
    the animation written then holds all of them. *)
Theorem build_gif_succeeds_only_if_every_entry_opens
  (TODAY : datetime) (model : string) (w : world) :
  model <> "gifs" ->
  fst (build_gif TODAY model w) = Ok tt ->
  exists imgs,
    imgs <> []
    /\ traverse (image_open (w_fs w)) (frame_files (w_fs w) model) = Ok imgs
    /\ fs_read (w_fs (snd (build_gif TODAY model w))) (gif_path TODAY model)
       = Ok (gif_encode imgs 300 3)
    /\ w_trace (snd (build_gif TODAY model w))
       = w_trace w ++ [Write (gif_path TODAY model)].
Proof.
  intros Hm. pose proof (gif_path_not_a_frame TODAY model (w_fs w) Hm) as Hnin.
  unfold build_gif.
  destruct (frame_files (w_fs w) model) as [|f rest]; [discriminate|].
  cbn [traverse].
  destruct (image_open (w_fs w) f) as [img|]; [|discriminate].
  unfold save_gif.
  destruct (fs_open_w (w_fs w) (gif_path TODAY model)) as [fs1|] eqn:Eo;
    [|discriminate].
  apply fs_open_w_spec in Eo. subst fs1.
  rewrite (traverse_ext _ (image_open (w_fs w))).
  - destruct (traverse (image_open (w_fs w)) rest) as [imgs|]; [|discriminate].
    intros _. exists (img :: imgs). cbn [snd w_fs w_trace].
    split; [discriminate|]. split; [reflexivity|]. split; [|reflexivity].
    unfold fs_read. now rewrite fs_lookup_set_same.
  - intros x Hx. apply image_open_after_set.
    intros E. apply Hnin. rewrite E. now right.
Qed.

(** What [build_gif] leaves alone. *)
Lemma build_gif_frame
  (TODAY : datetime) (model : string) (w : world) :
  (forall p, p <> gif_path TODAY model ->
             fs_lookup (w_fs (snd (build_gif TODAY model w))) p
             = fs_lookup (w_fs w) p)
  /\ (w_trace (snd (build_gif TODAY model w)) = w_trace w
      \/ w_trace (snd (build_gif TODAY model w))
         = w_trace w ++ [Write (gif_path TODAY model)]).
Proof.
  unfold build_gif.
  destruct (frame_files (w_fs w) model) as [|f rest]; [auto|].
  destruct (image_open (w_fs w) f) as [img|]; [|auto].
  unfold save_gif.
  destruct (fs_open_w (w_fs w) (gif_path TODAY model)) as [fs1|] eqn:Eo;
    [|auto].
  apply fs_open_w_spec in Eo. subst fs1.
  destruct (traverse _ rest) as [imgs|]; cbn [snd w_fs w_trace].
  - split; [|now right]. intros p Hp.
    now rewrite !fs_lookup_set_other by (intros E; apply Hp; now rewrite E).
  - split; [|now left]. intros p Hp.
    destruct (negb (fs_exists (w_fs w) (gif_path TODAY model))).
    + rewrite fs_lookup_remove_other by (intros E; apply Hp; now rewrite E).
      now rewrite fs_lookup_set_other by (intros E; apply Hp; now rewrite E).
    + now rewrite fs_lookup_set_other by (intros E; apply Hp; now rewrite E).
Qed.

(** X14.  Whether it returns or raises, [build_gif] leaves every entry of
    the file system other than its output path as it was, and does
    nothing else to the world than, on success, write that one file. *)
Theorem build_gif_touches_only_its_output
  (TODAY : datetime) (model : string) (w : world) :
  (forall p, p <> gif_path TODAY model ->
             fs_lookup (w_fs (snd (build_gif TODAY model w))) p
             = fs_lookup (w_fs w) p)
  /\ (w_trace (snd (build_gif TODAY model w)) = w_trace w
      \/ w_trace (snd (build_gif TODAY model w))
         = w_trace w ++ [Write (gif_path TODAY model)]).
Proof. apply build_gif_frame. Qed.


End MoreGif.

Lemma build_gif_succeeds_only_if_every_entry_opens_witness :
  fst (@build_gif wildcard_pathlib bytes_pillow today_2024_01_10 "KFWD"
         world_two_days) = Ok tt
  /\ exists imgs,
       imgs <> []
       /\ traverse (@image_open bytes_pillow fs_two_days)
            (@frame_files wildcard_pathlib fs_two_days "KFWD") = Ok imgs
       /\ fs_read
            (w_fs (snd (@build_gif wildcard_pathlib bytes_pillow today_2024_01_10
                          "KFWD" world_two_days)))
            (@gif_path today_2024_01_10 "KFWD")
          = Ok (@gif_encode bytes_pillow imgs 300 3)
       /\ w_trace (snd (@build_gif wildcard_pathlib bytes_pillow today_2024_01_10
                          "KFWD" world_two_days))
          = [] ++ [Write (gif_path today_2024_01_10 "KFWD")].
Proof.
  split; [reflexivity|].
  apply (@build_gif_succeeds_only_if_every_entry_opens
           wildcard_pathlib bytes_pillow today_2024_01_10 "KFWD" world_two_days).
  - discriminate.
  - reflexivity.
Defined.

Lemma build_gif_touches_only_its_output_witness :
  fs_lookup
    (w_fs (snd (@build_gif wildcard_pathlib bytes_pillow today_2024_01_10 "KFWD"
                  world_two_days)))
    ["data"; "KFWD"; "20240108_000000_KFWD.png"]
  = Some (File "a").
Proof.
  refine (eq_trans
            (proj1 (@build_gif_touches_only_its_output
                      wildcard_pathlib bytes_pillow today_2024_01_10 "KFWD"
                      world_two_days) _ _) eq_refl).
  discriminate.
Defined.

(** ** Names of animations *)

Lemma split_nonempty (c : ascii) (s : string) : Str.split c s <> [].
Proof.
  destruct s as [|a r]; simpl; [discriminate|].
  destruct (Ascii.eqb a c); [discriminate|].
  destruct (Str.split c r); discriminate.
Qed.

Lemma split_no_separator (c : ascii) (s : string) :
  Str.contains c s = false -> Str.split c s = [s].
Proof.
  induction s as [|a r IH]; simpl; [reflexivity|].
  intros H. apply orb_false_iff in H as [Ha Hr].
  rewrite Ha, (IH Hr). reflexivity.
Qed.

Lemma split_app (c : ascii) (a b : string) :
  Str.split c (a ++ String c b) = Str.split c a ++ Str.split c b.
Proof.
  induction a as [|x a IH]; simpl.
  - now rewrite Ascii.eqb_refl.
  - destruct (Ascii.eqb x c); [now rewrite IH|].
    rewrite IH. pose proof (split_nonempty c a) as Hn.
    destruct (Str.split c a); [contradiction | reflexivity].
Qed.

(** ['_'.join(s.split('_'))] is [s]. *)
Lemma join_cons (sep a h : string) (t : list string) :
  Str.join sep (a :: h :: t) = (a ++ sep ++ Str.join sep (h :: t))%string.
Proof. reflexivity. Qed.

Lemma join_split (c : ascii) (s : string) :
  Str.join (String c EmptyString) (Str.split c s) = s.
Proof.
  induction s as [|x s IH]; [reflexivity|].
  cbn [Str.split]. pose proof (split_nonempty c s) as Hn.
  destruct (Str.split c s) as [|h t]; [contradiction|].
  destruct (Ascii.eqb x c) eqn:E.
  - apply Ascii.eqb_eq in E. subst x. rewrite join_cons, IH. reflexivity.
  - destruct t as [|h' t'].
    + simpl in *. now rewrite IH.
    + rewrite join_cons. rewrite join_cons in IH. rewrite <- IH at 1.
      reflexivity.
Qed.

Lemma model_of_gif_name_app (model rest : string) :
  Str.contains "_" rest = false ->
  model_of_gif_name (model ++ "_" ++ rest) = model.
Proof.
  intros H. unfold model_of_gif_name.
  change (model ++ "_" ++ rest)%string with (model ++ String "_" rest)%string.
  rewrite split_app, (split_no_separator _ _ H), removelast_last.
  apply join_split.
Qed.

Lemma digit_not_underscore (z : Z) :
  (0 <= z < 10)%Z -> Ascii.eqb (digit z) "_" = false.
Proof.
  intros H.
  assert (Hc : (z = 0 \/ z = 1 \/ z = 2 \/ z = 3 \/ z = 4 \/ z = 5 \/ z = 6
                \/ z = 7 \/ z = 8 \/ z = 9)%Z) by lia.
  repeat (destruct Hc as [->|Hc]; [reflexivity|]). subst. reflexivity.
Qed.

Lemma strftime_F_no_underscore (t : datetime) :
  Str.contains "_" (strftime_F t ++ ".gif") = false.
Proof.
  unfold strftime_F. destruct (ord2ymd (ordinal t)) as [[y m] d].
  unfold pad4, pad2. cbn [append Str.contains].
  rewrite !digit_not_underscore by (apply Z.mod_pos_bound; lia).
  reflexivity.
Qed.

(** The name of an animation gives its model back. *)
Lemma model_of_gif_path
  (TODAY : datetime) (model : string) :
  model_of_gif_name (path_name (@gif_path TODAY model)) = model.
Proof.
  unfold gif_path, path_name, DATA_DIR, ROOT. cbn [app last].
  apply model_of_gif_name_app. apply strftime_F_no_underscore.
Qed.

(** X15.  The model identifier that [send_slack_message_blocks] reads off
    the name of an animation is the identifier [build_gif] put into it,
    whatever the identifier, underscores included. *)
Theorem model_of_gif_name_recovers_the_model
  (TODAY : datetime) (model : string) :
  model_of_gif_name (path_name (@gif_path TODAY model)) = model.
Proof. apply model_of_gif_path. Qed.


(** ** More on [send_slack_message_blocks] *)

Lemma dict_get_str_in {V} (k : string) (d : dict V) (v : V) :
  dict_get k d = Some v -> str_in k (dict_keys d) = true.
Proof.
  intros H. apply str_in_In. apply dict_get_In in H.
  apply (in_map fst) in H. exact H.
Qed.

Section MorePublish.
Context {pathlib : Pathlib} {slack : SlackApi}.

Lemma uploads_app (a b : list event) :
  uploads (a ++ b) = uploads a ++ uploads b.
Proof. apply flat_map_app. Qed.

Lemma posts_app (a b : list event) : posts (a ++ b) = posts a ++ posts b.
Proof. apply flat_map_app. Qed.

Lemma upload_one_events (props : dict string) (bot_client : WebClient)
  (model_map : model_map_t) (gif : path) (w : world) :
  exists evs,
    w_trace (snd (upload_one props bot_client model_map gif w)) = w_trace w ++ evs
    /\ gets evs = [] /\ writes evs = [] /\ posts evs = [] /\ sleeps evs = []
    /\ (List.length (uploads evs) <= 1)%nat.
Proof.
  rewrite upload_one_unfold. cbv zeta.
  destruct (fs_read (w_fs w) gif) as [bytes|];
    [|exists []; cbn [snd]; rewrite app_nil_r; repeat split; simpl; lia].
  destruct (files_upload_v2 _ _ _ _) as [r|];
    [|eexists; cbn [snd w_trace]; repeat split; simpl; lia].
  destruct (ok r); [|eexists; cbn [snd w_trace]; repeat split; simpl; lia].
  destruct (file_id r); [|eexists; cbn [snd w_trace]; repeat split; simpl; lia].
  destruct (dict_get _ model_map);
    eexists; cbn [snd w_trace]; repeat split; simpl; lia.
Qed.

Lemma upload_loop_events (props : dict string) (bot_client : WebClient)
  (gifs : list path) (model_map : model_map_t) (w : world) :
  exists evs,
    w_trace (snd (upload_loop props bot_client model_map gifs w)) = w_trace w ++ evs
    /\ gets evs = [] /\ writes evs = [] /\ posts evs = [] /\ sleeps evs = []
    /\ (List.length (uploads evs) <= List.length gifs)%nat.
Proof.
  revert model_map w. induction gifs as [|gif rest IH]; intros model_map w.
  - exists []. simpl. rewrite app_nil_r. repeat split. lia.
  - cbn [upload_loop]. unfold bind.
    destruct (upload_one_events props bot_client model_map gif w)
      as [e1 [Ht1 [Hg1 [Hw1 [Hp1 [Hs1 Hu1]]]]]].
    destruct (upload_one props bot_client model_map gif w) as [[mm|e] w1];
      cbn [snd] in *.
    + destruct (IH mm w1) as [e2 [Ht2 [Hg2 [Hw2 [Hp2 [Hs2 Hu2]]]]]].
      exists (e1 ++ e2). rewrite Ht2, Ht1, <- app_assoc.
      rewrite gets_app, writes_app, sleeps_app, posts_app, uploads_app.
      rewrite Hg1, Hg2, Hw1, Hw2, Hp1, Hp2, Hs1, Hs2, length_app.
      repeat split. simpl. lia.
    + exists e1. repeat split; try assumption. simpl. lia.
Qed.

(** What the publisher does to the world. *)
Lemma send_slack_message_blocks_events
  (TODAY : datetime) (props : dict string) (bot_client : WebClient)
  (model_map : model_map_t) (w : world) :
  w_fs (snd (send_slack_message_blocks TODAY props bot_client model_map w))
  = w_fs w
  /\ exists evs,
       w_trace (snd (send_slack_message_blocks TODAY props bot_client
                       model_map w))
       = w_trace w ++ evs
       /\ gets evs = [] /\ writes evs = []
       /\ (List.length (posts evs) <= 1)%nat
       /\ (List.length (uploads evs)
           <= List.length (todays_gifs TODAY (w_fs w)))%nat.
Proof.
  rewrite send_slack_message_blocks_unfold.
  pose proof (upload_loop_world props bot_client (todays_gifs TODAY (w_fs w))
                model_map w) as [Hfs _].
  destruct (upload_loop_events props bot_client (todays_gifs TODAY (w_fs w))
              model_map w) as [evs [Ht [Hg [Hw [Hp [_ Hu]]]]]].
  destruct (upload_loop _ _ _ _ _) as [[mm'|e] w1]; cbn [snd] in *.
  - destruct (compose_blocks TODAY mm') as [blocks|].
    + destruct (dict_get "public-chan" props) as [channel|];
        cbn [snd w_fs w_trace]; (split; [exact Hfs|]);
        rewrite Ht, <- app_assoc; eexists; (split; [reflexivity|]);
        rewrite gets_app, writes_app, posts_app, uploads_app, Hg, Hw, Hp;
        simpl; rewrite app_nil_r; repeat split; lia.
    + cbn [snd]. split; [exact Hfs|]. exists evs. rewrite Hp.
      repeat split; auto; simpl; lia.
  - split; [exact Hfs|]. exists evs. rewrite Hp.
    repeat split; auto; simpl; lia.
Qed.

(** X21.  [send_slack_message_blocks] never changes the file system and
    issues no request to the archive; it uploads at most once per
    animation of the day and posts at most one message. *)
Theorem send_slack_message_blocks_leaves_the_files_alone
  (TODAY : datetime) (props : dict string) (bot_client : WebClient)
  (model_map : model_map_t) (w : world) :
  w_fs (snd (send_slack_message_blocks TODAY props bot_client model_map w))
  = w_fs w
  /\ exists evs,
       w_trace (snd (send_slack_message_blocks TODAY props bot_client
                       model_map w))
       = w_trace w ++ evs
       /\ gets evs = [] /\ writes evs = []
       /\ (List.length (posts evs) <= 1)%nat
       /\ (List.length (uploads evs)
           <= List.length (todays_gifs TODAY (w_fs w)))%nat.
Proof. apply send_slack_message_blocks_events. Qed.


(** The loop keeps the models, their order and their other fields. *)
Lemma upload_one_preserves_models (props : dict string) (bot_client : WebClient)
  (model_map mm' : model_map_t) (gif : path) (w w' : world) :
  upload_one props bot_client model_map gif w = (Ok mm', w') ->
  dict_keys mm' = dict_keys model_map
  /\ forall m d,
       dict_get m model_map = Some d ->
       exists d',
         dict_get m mm' = Some d'
         /\ forall k, k <> "gif-file-id" -> dict_get k d' = dict_get k d.
Proof.
  rewrite upload_one_unfold. cbv zeta.
  destruct (fs_read (w_fs w) gif) as [bytes|]; [|discriminate].
  destruct (files_upload_v2 _ _ _ _) as [r|]; [|discriminate].
  destruct (ok r).
  - destruct (file_id r) as [id|]; [|discriminate].
    destruct (dict_get (model_of_gif_name (path_name gif)) model_map)
      as [d0|] eqn:E0; [|discriminate].
    intros H. injection H as <- _. split.
    + rewrite dict_keys_set. now rewrite (dict_get_str_in _ _ _ E0).
    + intros m d Hm.
      destruct (string_dec m (model_of_gif_name (path_name gif))) as [->|Hne].
      * rewrite dict_get_set_same. rewrite E0 in Hm. injection Hm as <-.
        eexists. split; [reflexivity|]. intros k Hk.
        now apply dict_get_set_other.
      * rewrite dict_get_set_other by exact Hne. eauto.
  - intros H. injection H as <- _. split; [reflexivity|]. eauto.
Qed.

(** X17.  When the upload loop ends normally the model map has the same
    models in the same order, and every field of every model other than
    ['gif-file-id'] is as it was. *)
Theorem upload_loop_keeps_models_and_their_fields
  (props : dict string) (bot_client : WebClient) (gifs : list path)
  (model_map mm' : model_map_t) (w w' : world) :
  upload_loop props bot_client model_map gifs w = (Ok mm', w') ->
  dict_keys mm' = dict_keys model_map
  /\ forall m d,
       dict_get m model_map = Some d ->
       exists d',
         dict_get m mm' = Some d'
         /\ forall k, k <> "gif-file-id" -> dict_get k d' = dict_get k d.
Proof.
  revert model_map w. induction gifs as [|gif rest IH]; intros model_map w H.
  - simpl in H. injection H as <- _. split; [reflexivity|]. eauto.
  - simpl in H. unfold bind in H.
    destruct (upload_one props bot_client model_map gif w) as [[mm1|e] w1] eqn:E1;
      [|discriminate].
    destruct (upload_one_preserves_models _ _ _ _ _ _ _ E1) as [Hk1 Hf1].
    destruct (IH _ _ H) as [Hk2 Hf2]. split; [congruence|].
    intros m d Hm. destruct (Hf1 m d Hm) as [d1 [Hm1 Hd1]].
    destruct (Hf2 m d1 Hm1) as [d2 [Hm2 Hd2]].
    exists d2. split; [exact Hm2|]. intros k Hk.
    now rewrite (Hd2 k Hk), (Hd1 k Hk).
Qed.

(** X18.  An accepted upload stores the returned file identifier under
    ['gif-file-id'] in the entry of the animation's model, so that the
    image block of that model refers to it; the entries of the other
    models are as they were. *)
Theorem upload_one_records_the_file_id
  (props : dict string) (bot_client : WebClient) (model_map : model_map_t)
  (gif : path) (w : world) (bytes id : string) (r : upload_response)
  (model_dict : dict string) :
  fs_read (w_fs w) gif = Ok bytes ->
  files_upload_v2 bot_client (dict_get "private-chan" props) bytes
    (model_of_gif_name (path_name gif)) = Ok r ->
  ok r = true ->
  file_id r = Some id ->
  dict_get (model_of_gif_name (path_name gif)) model_map = Some model_dict ->
  exists mm',
    upload_one props bot_client model_map gif w
    = (Ok mm',
       mk_world (w_fs w)
         (w_trace w
          ++ [Upload (dict_get "private-chan" props) bytes
                (model_of_gif_name (path_name gif))]))
    /\ (exists d',
           dict_get (model_of_gif_name (path_name gif)) mm' = Some d'
           /\ dict_get "gif-file-id" d' = Some id
           /\ model_blocks d'
              = match dict_get "name" model_dict with
                | Some name => Ok [ImageBlock name id "poopie"; DividerBlock]
                | None => Raise (KeyError "name")
                end)
    /\ forall m, m <> model_of_gif_name (path_name gif) ->
                 dict_get m mm' = dict_get m model_map.
Proof.
  intros Hr Hu Hok Hid Hm. rewrite upload_one_unfold. cbv zeta.
  rewrite Hr, Hu, Hok, Hid, Hm. eexists. split; [reflexivity|]. split.
  - eexists. split; [apply dict_get_set_same|].
    split; [apply dict_get_set_same|].
    unfold model_blocks, dict_item.
    rewrite dict_get_set_other by discriminate.
    rewrite dict_get_set_same. now destruct (dict_get "name" model_dict).
  - intros m Hne. now apply dict_get_set_other.
Qed.

(** X19.  An accepted upload of an animation whose name gives a model
    that is not in the model map raises [KeyError] for that model right
    after the upload; the animations after it are not uploaded. *)
Theorem upload_of_unknown_model_raises_KeyError
  (props : dict string) (bot_client : WebClient) (model_map : model_map_t)
  (gif : path) (rest : list path) (w : world) (bytes id : string)
  (r : upload_response) :
  fs_read (w_fs w) gif = Ok bytes ->
  files_upload_v2 bot_client (dict_get "private-chan" props) bytes
    (model_of_gif_name (path_name gif)) = Ok r ->
  ok r = true ->
  file_id r = Some id ->
  dict_get (model_of_gif_name (path_name gif)) model_map = None ->
  upload_loop props bot_client model_map (gif :: rest) w
  = (Raise (KeyError (model_of_gif_name (path_name gif))),
     mk_world (w_fs w)
       (w_trace w
        ++ [Upload (dict_get "private-chan" props) bytes
              (model_of_gif_name (path_name gif))])).
Proof.
  intros Hr Hu Hok Hid Hm. simpl. unfold bind.
  rewrite upload_one_unfold. cbv zeta. now rewrite Hr, Hu, Hok, Hid, Hm.
Qed.

(** X20.  Without ['public-chan'] among the credentials,
    [send_slack_message_blocks] raises [KeyError] only after all the
    uploads and the pause, and posts nothing. *)
Theorem send_slack_message_blocks_without_public_channel
  (TODAY : datetime) (props : dict string) (bot_client : WebClient)
  (model_map mm' : model_map_t) (w w1 : world) (blocks : list block) :
  dict_get "public-chan" props = None ->
  upload_loop props bot_client model_map (todays_gifs TODAY (w_fs w)) w
  = (Ok mm', w1) ->
  compose_blocks TODAY mm' = Ok blocks ->
  send_slack_message_blocks TODAY props bot_client model_map w
  = (Raise (KeyError "public-chan"),
     mk_world (w_fs w1) (w_trace w1 ++ [Sleep 3]))
  /\ posts (w_trace w1 ++ [Sleep 3]) = posts (w_trace w).
Proof.
  intros Hc Hl Hb. rewrite send_slack_message_blocks_unfold, Hl, Hb, Hc.
  split; [reflexivity|].
  pose proof (upload_loop_world props bot_client (todays_gifs TODAY (w_fs w))
                model_map w) as [_ Hp].
  rewrite Hl in Hp. cbn [snd] in Hp. unfold posts in *.
  rewrite flat_map_app, Hp. simpl. now rewrite app_nil_r.
Qed.

End MorePublish.

(** ** From [build_gif] to the upload *)

Section Pipeline.
Context {pathlib : Pathlib} {pillow : Pillow}.

(** X16.  The animation a successful [build_gif] writes is among the files
    [send_slack_message_blocks] then finds for the day, provided the
    matcher lets its name through, and it is uploaded under the model's
    identifier. *)
Theorem build_gif_output_is_among_todays_gifs
  (TODAY : datetime) (model : string) (w : world) :
  fst (build_gif TODAY model w) = Ok tt ->
  fnmatch (path_name (gif_path TODAY model)) ("*" ++ strftime_F TODAY ++ ".gif")
  = true ->
  In (gif_path TODAY model)
    (todays_gifs TODAY (w_fs (snd (build_gif TODAY model w))))
  /\ model_of_gif_name (path_name (gif_path TODAY model)) = model.
Proof.
  intros Hok Hm. split; [|apply model_of_gif_path].
  assert (Hf : exists c,
             fs_lookup (w_fs (snd (build_gif TODAY model w))) (gif_path TODAY model)
             = Some (File c)).
  { revert Hok. unfold build_gif.
    destruct (frame_files (w_fs w) model) as [|f rest]; [discriminate|].
    destruct (image_open (w_fs w) f) as [img|]; [|discriminate].
    unfold save_gif.
    destruct (fs_open_w (w_fs w) (gif_path TODAY model)) as [fs1|];
      [|discriminate].
    destruct (traverse _ rest) as [imgs|]; [|discriminate].
    intros _. cbn [snd w_fs]. rewrite fs_lookup_set_same. eauto. }
  destruct Hf as [c Hc].
  unfold todays_gifs. apply filter_In. split.
  - unfold glob_dir. apply filter_In. split.
    + eapply fs_lookup_In; eauto.
    + rewrite Hm, andb_true_r. unfold is_child, gif_path, DATA_DIR, ROOT.
      cbn [app parent removelast]. apply path_eqb_refl.
  - unfold is_file. now rewrite Hc.
Qed.

End Pipeline.

Lemma build_gif_output_is_among_todays_gifs_witness :
  @todays_gifs wildcard_pathlib today_2024_01_10
    (w_fs (snd (@build_gif wildcard_pathlib bytes_pillow today_2024_01_10 "KFWD"
                  world_two_days)))
  = [["data"; "gifs"; "KFWD_2024-01-10.gif"]]
  /\ In (gif_path today_2024_01_10 "KFWD")
       (@todays_gifs wildcard_pathlib today_2024_01_10
          (w_fs (snd (@build_gif wildcard_pathlib bytes_pillow today_2024_01_10
                        "KFWD" world_two_days)))).
Proof.
  split; [reflexivity|].
  exact (proj1 (@build_gif_output_is_among_todays_gifs
                  wildcard_pathlib bytes_pillow today_2024_01_10 "KFWD"
                  world_two_days eq_refl eq_refl)).
Defined.

(** ** The order of the stages *)

Section Stages.
Context {pathlib : Pathlib} {requests : Requests} {pillow : Pillow}
  {slack : SlackApi}.

Lemma prepare_quiet (model : string) (i : nat) (filename : string) (w : world) :
  exists evs,
    w_trace (snd (prepare model i filename w)) = w_trace w ++ evs
    /\ uploads evs = [] /\ posts evs = [].
Proof.
  unfold prepare. destruct (Nat.eqb i 0).
  - unfold mkdir_parents. destruct (mkdir_from _ _ _); simpl.
    + eexists. split; [reflexivity|]. auto.
    + exists []. now rewrite app_nil_r.
  - exists []. simpl. now rewrite app_nil_r.
Qed.

Lemma fetch_one_quiet (model : string) (i : nat) (filename url : string)
  (w : world) :
  exists evs,
    w_trace (snd (fetch_one model i filename url w)) = w_trace w ++ evs
    /\ uploads evs = [] /\ posts evs = [].
Proof.
  destruct (prepare_quiet model i filename w) as [evs0 [Ht0 [Hu0 Hp0]]].
  destruct (prepare model i filename w) as [[[]|e] w1] eqn:Hp; cbn [snd] in Ht0.
  - destruct (requests_get url) as [resp|e] eqn:Hg.
    + destruct (Z.eq_dec (status_code resp) 200) as [Hs|Hs].
      * rewrite (fetch_one_200 _ _ _ _ _ _ _ Hp Hg Hs).
        destruct (fs_open_w _ _); cbn [snd w_trace];
          rewrite Ht0, <- app_assoc; eexists; (split; [reflexivity|]);
          rewrite uploads_app, posts_app, Hu0, Hp0; auto.
      * rewrite (fetch_one_not_200 _ _ _ _ _ _ _ Hp Hg Hs). cbn [snd w_trace].
        rewrite Ht0, <- app_assoc. eexists. split; [reflexivity|].
        rewrite uploads_app, posts_app, Hu0, Hp0. auto.
    + rewrite (fetch_one_get_fails _ _ _ _ _ _ _ Hp Hg). cbn [snd w_trace].
      rewrite Ht0, <- app_assoc. eexists. split; [reflexivity|].
      rewrite uploads_app, posts_app, Hu0, Hp0. auto.
  - rewrite (fetch_one_prepare_fails _ _ _ _ _ _ _ Hp). cbn [snd].
    exists []. now rewrite app_nil_r.
Qed.

Lemma fetch_loop_quiet (model : string) (items : dict string) (i : nat)
  (w : world) :
  exists evs,
    w_trace (snd (fetch_loop model i items w)) = w_trace w ++ evs
    /\ uploads evs = [] /\ posts evs = [].
Proof.
  revert i w. induction items as [|[filename url] rest IH]; intros i w.
  - exists []. simpl. now rewrite app_nil_r.
  - cbn [fetch_loop]. unfold bind.
    destruct (fetch_one_quiet model i filename url w) as [e1 [Ht1 [Hu1 Hp1]]].
    destruct (fetch_one model i filename url w) as [[[]|e] w1]; cbn [snd] in *.
    + destruct (IH (S i) w1) as [e2 [Ht2 [Hu2 Hp2]]].
      exists (e1 ++ e2). rewrite Ht2, Ht1, <- app_assoc.
      rewrite uploads_app, posts_app, Hu1, Hu2, Hp1, Hp2. auto.
    + eauto.
Qed.

Lemma retrieve_imgs_quiet (TODAY : datetime) (model filetype : string)
  (span_days : Z) (w : world) :
  exists evs,
    w_trace (snd (retrieve_imgs TODAY model filetype span_days w))
    = w_trace w ++ evs
    /\ uploads evs = [] /\ posts evs = [].
Proof.
  rewrite retrieve_imgs_unfold.
  destruct (dates_str TODAY span_days); [apply fetch_loop_quiet|].
  exists []. cbn [snd]. now rewrite app_nil_r.
Qed.

Lemma build_gif_quiet (TODAY : datetime) (model : string) (w : world) :
  exists evs,
    w_trace (snd (build_gif TODAY model w)) = w_trace w ++ evs
    /\ uploads evs = [] /\ posts evs = [].
Proof.
  destruct (build_gif_frame TODAY model w) as [_ [H|H]];
    rewrite H.
  - exists []. now rewrite app_nil_r.
  - eexists. split; [reflexivity|]. auto.
Qed.

Lemma per_model_quiet (TODAY : datetime) (items : model_map_t) (w : world) :
  exists evs,
    w_trace (snd (per_model TODAY items w)) = w_trace w ++ evs
    /\ uploads evs = [] /\ posts evs = [].
Proof.
  revert w. induction items as [|[model_name model_dict] rest IH]; intros w.
  - exists []. simpl. now rewrite app_nil_r.
  - cbn [per_model]. unfold bind, lift.
    destruct (dict_item "filetype" model_dict) as [filetype|];
      [|exists []; cbn [snd]; now rewrite app_nil_r].
    destruct (retrieve_imgs_quiet TODAY model_name filetype 5 w)
      as [e1 [Ht1 [Hu1 Hp1]]].
    destruct (retrieve_imgs TODAY model_name filetype 5 w) as [[[]|e] w1];
      cbn [snd] in *; [|eauto].
    destruct (build_gif_quiet TODAY model_name w1) as [e2 [Ht2 [Hu2 Hp2]]].
    destruct (build_gif TODAY model_name w1) as [[[]|e] w2]; cbn [snd] in *.
    + destruct (IH w2) as [e3 [Ht3 [Hu3 Hp3]]].
      exists (e1 ++ e2 ++ e3). rewrite Ht3, Ht2, Ht1, <- !app_assoc.
      rewrite !uploads_app, !posts_app, Hu1, Hu2, Hu3, Hp1, Hp2, Hp3. auto.
    + exists (e1 ++ e2). rewrite Ht2, Ht1, <- app_assoc.
      rewrite uploads_app, posts_app, Hu1, Hu2, Hp1, Hp2. auto.
Qed.

(** X22.  The script uploads or posts something only if retrieval and
    animation building returned normally for every model. *)
Theorem main_publishes_only_after_every_model_succeeded
  (TODAY : datetime) (w : world) :
  exists evs,
    w_trace (snd (main TODAY w)) = w_trace w ++ evs
    /\ ((uploads evs = [] /\ posts evs = [])
        \/ exists w1, per_model TODAY model_map_0 w = (Ok tt, w1)).
Proof.
  unfold main, bind, get_fs, lift, ret.
  destruct (read_secrets (w_fs w) SECRETS_FILE) as [props|];
    [|exists []; cbn [snd]; rewrite app_nil_r; auto].
  destruct (dict_item "bot-token" props) as [bot|];
    [|exists []; cbn [snd]; rewrite app_nil_r; auto].
  destruct (dict_item "user-token" props) as [user|];
    [|exists []; cbn [snd]; rewrite app_nil_r; auto].
  destruct (per_model_quiet TODAY model_map_0 w) as [e1 [Ht1 [Hu1 Hp1]]].
  destruct (per_model TODAY model_map_0 w) as [[[]|e] w1]; cbn [snd] in *.
  - destruct (send_slack_message_blocks_events
                TODAY props (mk_WebClient bot) model_map_0 w1)
      as [_ [e2 [Ht2 _]]].
    destruct (send_slack_message_blocks _ _ _ _ w1) as [[mm|e] w2];
      cbn [snd] in *; exists (e1 ++ e2); rewrite Ht2, Ht1, <- app_assoc;
      (split; [reflexivity|]); right; eauto.
  - exists e1. split; [exact Ht1|]. left. auto.
Qed.

End Stages.

Section Chronology.
Local Open Scope Z_scope.

Ltac euclidean := Z.div_mod_to_equations; lia.

Lemma month_day_fits_spec (leapyear : bool) (n : Z) :
  0 <= n < (if leapyear then 366 else 365) -> month_day_fits leapyear n = true.
Proof.
  destruct leapyear; intros Hn.
  - apply (forallb_range (month_day_fits true) 366);
      [vm_compute; reflexivity | lia].
  - apply (forallb_range (month_day_fits false) 365);
      [vm_compute; reflexivity | lia].
Qed.

Lemma is_leap_spec (n400 n100 n4 n1 : Z) :
  0 <= n400 -> 0 <= n100 <= 3 -> 0 <= n4 <= 24 -> 0 <= n1 <= 3 ->
  is_leap (n400 * 400 + 1 + n100 * 100 + n4 * 4 + n1)
  = (n1 =? 3) && (negb (n4 =? 24) || (n100 =? 3)).
Proof.
  intros H400 H100 H4 H1. unfold is_leap.
  destruct (n1 =? 3) eqn:E1'; [apply Z.eqb_eq in E1' | apply Z.eqb_neq in E1'].
  - destruct (n4 =? 24) eqn:E4'; [apply Z.eqb_eq in E4' | apply Z.eqb_neq in E4'].
    + destruct (n100 =? 3) eqn:E100;
        [apply Z.eqb_eq in E100 | apply Z.eqb_neq in E100]; simpl.
      * apply andb_true_iff; split; [apply Z.eqb_eq; euclidean|].
        apply orb_true_iff; right. apply Z.eqb_eq. euclidean.
      * apply andb_false_iff; right. apply orb_false_iff. split.
        -- apply negb_false_iff, Z.eqb_eq. euclidean.
        -- apply Z.eqb_neq. euclidean.
    + simpl. apply andb_true_iff; split; [apply Z.eqb_eq; euclidean|].
      apply orb_true_iff; left. apply negb_true_iff, Z.eqb_neq. euclidean.
  - simpl. apply andb_false_iff; left. apply Z.eqb_neq. euclidean.
Qed.

(** The date of an ordinal is a date of the calendar. *)
Lemma ord2ymd_in_month (n : Z) :
  1 <= n ->
  let '(y, m, d) := ord2ymd n in
  1 <= y /\ 1 <= m <= 12 /\ 1 <= d <= days_in_month y m.
Proof.
  intros Hn. rewrite ord2ymd_unfold. cbv zeta.
  set (n0 := n - 1).
  set (n400 := n0 / 146097). set (r1 := n0 mod 146097).
  set (n100 := r1 / 36524). set (r2 := r1 mod 36524).
  set (n4 := r2 / 1461). set (r3 := r2 mod 1461).
  set (n1 := r3 / 365). set (r4 := r3 mod 365).
  assert (H0 : 0 <= n0) by (unfold n0; lia).
  assert (E1 : n0 = 146097 * n400 + r1 /\ 0 <= r1 < 146097 /\ 0 <= n400)
    by (unfold n400, r1; euclidean).
  assert (E2 : r1 = 36524 * n100 + r2 /\ 0 <= r2 < 36524 /\ 0 <= n100 <= 4)
    by (unfold n100, r2; euclidean).
  assert (E3 : r2 = 1461 * n4 + r3 /\ 0 <= r3 < 1461 /\ 0 <= n4 <= 24)
    by (unfold n4, r3; euclidean).
  assert (E4 : r3 = 365 * n1 + r4 /\ 0 <= r4 < 365 /\ 0 <= n1 <= 4)
    by (unfold n1, r4; euclidean).
  clearbody n400 r1 n100 r2 n4 r3 n1 r4.
  destruct ((n1 =? 4) || (n100 =? 4)) eqn:Eedge.
  - unfold days_in_month. simpl. apply orb_true_iff in Eedge.
    destruct Eedge as [E|E]; apply Z.eqb_eq in E; lia.
  - apply orb_false_iff in Eedge as [Ea Eb]. apply Z.eqb_neq in Ea, Eb.
    rewrite <- (is_leap_spec n400 n100 n4 n1) by lia.
    set (y := n400 * 400 + 1 + n100 * 100 + n4 * 4 + n1).
    assert (Hr4 : 0 <= r4 < (if is_leap y then 366 else 365))
      by (destruct (is_leap y); lia).
    pose proof (month_day_fits_spec (is_leap y) r4 Hr4) as Hmd.
    unfold month_day_fits in Hmd.
    destruct (month_day (is_leap y) r4) as [m d].
    repeat (apply andb_true_iff in Hmd; destruct Hmd as [Hmd ?]).
    unfold days_in_month.
    apply Z.leb_le in Hmd, H1, H2, H0. unfold y in *. lia.
Qed.

Lemma days_before_next_year (y : Z) :
  days_before_year (y + 1)
  = days_before_year y + 365 + (if is_leap y then 1 else 0).
Proof.
  unfold days_before_year, is_leap.
  destruct (y mod 4 =? 0) eqn:E4; [apply Z.eqb_eq in E4 | apply Z.eqb_neq in E4].
  - destruct (y mod 100 =? 0) eqn:E100;
      [apply Z.eqb_eq in E100 | apply Z.eqb_neq in E100]; simpl.
    + destruct (y mod 400 =? 0) eqn:E400;
        [apply Z.eqb_eq in E400 | apply Z.eqb_neq in E400]; euclidean.
    + euclidean.
  - simpl. euclidean.
Qed.

Lemma days_before_year_mono (y y' : Z) :
  y <= y' -> days_before_year y <= days_before_year y'.
Proof. intros H. unfold days_before_year. euclidean. Qed.

Lemma month_cases (m : Z) :
  1 <= m <= 12 ->
  m = 1 \/ m = 2 \/ m = 3 \/ m = 4 \/ m = 5 \/ m = 6 \/ m = 7 \/ m = 8
  \/ m = 9 \/ m = 10 \/ m = 11 \/ m = 12.
Proof. lia. Qed.

(** A day of a month comes before the first day of every later month,
    and before the end of the year. *)
Ltac calendar :=
  cbv beta iota delta
    [DAYS_BEFORE_MONTH DAYS_IN_MONTH Z.ltb Z.eqb Z.compare Pos.compare
     Pos.compare_cont Pos.eqb andb].

Lemma day_of_year_bounds (y m d : Z) :
  1 <= m <= 12 -> 1 <= d <= days_in_month y m ->
  days_before_month y m + d <= 365 + (if is_leap y then 1 else 0)
  /\ forall m', m < m' <= 12 ->
                days_before_month y m + d <= days_before_month y m'.
Proof.
  intros Hm Hd. unfold days_before_month, days_in_month in *.
  apply month_cases in Hm. split.
  - revert Hd. destruct (is_leap y);
      repeat (destruct Hm as [->|Hm]); subst; calendar; lia.
  - intros m' Hm'. assert (Hc : 1 <= m' <= 12) by lia.
    apply month_cases in Hc. revert Hd Hm'.
    destruct (is_leap y);
      repeat (destruct Hm as [->|Hm]); subst;
      repeat (destruct Hc as [->|Hc]); subst; calendar; lia.
Qed.

(** Later ordinals are later dates. *)
Lemma ord2ymd_mono (n n' : Z) :
  1 <= n -> n < n' -> ymd_lt (ord2ymd n) (ord2ymd n').
Proof.
  intros Hn Hlt.
  pose proof (ymd2ord_ord2ymd n Hn) as R. pose proof (ord2ymd_in_month n Hn) as B.
  assert (Hn' : 1 <= n') by lia.
  pose proof (ymd2ord_ord2ymd n' Hn') as R'.
  pose proof (ord2ymd_in_month n' Hn') as B'.
  destruct (ord2ymd n) as [[y m] d]. destruct (ord2ymd n') as [[y' m'] d'].
  destruct R as [R _], R' as [R' _].
  destruct B as [Hy [Hm Hd]], B' as [Hy' [Hm' Hd']].
  unfold ymd_lt. unfold ymd2ord in R, R'.
  destruct (day_of_year_bounds y m d Hm Hd) as [Hend Hnext].
  destruct (day_of_year_bounds y' m' d' Hm' Hd') as [Hend' Hnext'].
  assert (Hpos : forall yy mm, 1 <= mm <= 12 -> 0 <= days_before_month yy mm).
  { intros yy mm Hmm. unfold days_before_month.
    apply month_cases in Hmm.
    destruct (is_leap yy);
      repeat (destruct Hmm as [->|Hmm]); subst; calendar; lia. }
  pose proof (Hpos y m Hm). pose proof (Hpos y' m' Hm').
  destruct (Z.lt_trichotomy y y') as [Hlt'|[->|Hgt]].
  - now left.
  - right. split; [reflexivity|].
    destruct (Z.lt_trichotomy m m') as [Hl|[->|Hg]].
    + now left.
    + right. split; [reflexivity | lia].
    + exfalso. specialize (Hnext' m). lia.
  - exfalso.
    pose proof (days_before_next_year y').
    pose proof (days_before_year_mono (y' + 1) y). lia.
Qed.

Lemma digit_code (z : Z) :
  0 <= z < 10 -> nat_of_ascii (digit z) = (48 + Z.to_nat z)%nat.
Proof.
  intros H. unfold digit. apply nat_ascii_embedding. lia.
Qed.

Lemma ltb_digits (a b : Z) (s t : string) :
  0 <= a < 10 -> 0 <= b < 10 ->
  Str.ltb (String (digit a) s) (String (digit b) t)
  = (a <? b) || ((a =? b) && Str.ltb s t).
Proof.
  intros Ha Hb. cbn [Str.ltb]. rewrite !digit_code by assumption.
  f_equal.
  - destruct (Z.ltb_spec a b); [apply Nat.ltb_lt | apply Nat.ltb_ge]; lia.
  - f_equal.
    destruct (Z.eqb_spec a b); [apply Nat.eqb_eq | apply Nat.eqb_neq]; lia.
Qed.

Lemma ltb_same_prefix (p s t : string) :
  Str.ltb (p ++ s) (p ++ t) = Str.ltb s t.
Proof.
  induction p as [|c p IH]; simpl; [reflexivity|].
  now rewrite Nat.ltb_irrefl, Nat.eqb_refl, IH.
Qed.

(** The text of a date followed by anything sorts before the text of a
    later date followed by anything. *)
Lemma ymd_text_lt (y m d y' m' d' : Z) (s t : string) :
  0 <= y < 10000 -> 0 <= y' < 10000 ->
  0 <= m < 100 -> 0 <= m' < 100 -> 0 <= d < 100 -> 0 <= d' < 100 ->
  ymd_lt (y, m, d) (y', m', d') ->
  Str.ltb (pad4 y ++ pad2 m ++ pad2 d ++ s) (pad4 y' ++ pad2 m' ++ pad2 d' ++ t)
  = true.
Proof.
  intros Hy Hy' Hm Hm' Hd Hd' Hlt. unfold ymd_lt in Hlt.
  unfold pad4, pad2. cbn [append].
  set (a1 := y / 1000 mod 10). set (a2 := y / 100 mod 10).
  set (a3 := y / 10 mod 10). set (a4 := y mod 10).
  set (a5 := m / 10 mod 10). set (a6 := m mod 10).
  set (a7 := d / 10 mod 10). set (a8 := d mod 10).
  set (b1 := y' / 1000 mod 10). set (b2 := y' / 100 mod 10).
  set (b3 := y' / 10 mod 10). set (b4 := y' mod 10).
  set (b5 := m' / 10 mod 10). set (b6 := m' mod 10).
  set (b7 := d' / 10 mod 10). set (b8 := d' mod 10).
  assert (Ey : y = 1000 * a1 + 100 * a2 + 10 * a3 + a4
               /\ 0 <= a1 < 10 /\ 0 <= a2 < 10 /\ 0 <= a3 < 10 /\ 0 <= a4 < 10)
    by (unfold a1, a2, a3, a4; euclidean).
  assert (Ey' : y' = 1000 * b1 + 100 * b2 + 10 * b3 + b4
               /\ 0 <= b1 < 10 /\ 0 <= b2 < 10 /\ 0 <= b3 < 10 /\ 0 <= b4 < 10)
    by (unfold b1, b2, b3, b4; euclidean).
  assert (Em : m = 10 * a5 + a6 /\ 0 <= a5 < 10 /\ 0 <= a6 < 10)
    by (unfold a5, a6; euclidean).
  assert (Em' : m' = 10 * b5 + b6 /\ 0 <= b5 < 10 /\ 0 <= b6 < 10)
    by (unfold b5, b6; euclidean).
  assert (Ed : d = 10 * a7 + a8 /\ 0 <= a7 < 10 /\ 0 <= a8 < 10)
    by (unfold a7, a8; euclidean).
  assert (Ed' : d' = 10 * b7 + b8 /\ 0 <= b7 < 10 /\ 0 <= b8 < 10)
    by (unfold b7, b8; euclidean).
  clearbody a1 a2 a3 a4 a5 a6 a7 a8 b1 b2 b3 b4 b5 b6 b7 b8.
  rewrite !ltb_digits by lia.
  repeat match goal with
         | |- context [?a <? ?b] => destruct (Z.ltb_spec a b); cbn [orb andb]
         | |- context [?a =? ?b] => destruct (Z.eqb_spec a b); cbn [orb andb]
         end; try reflexivity; exfalso; lia.
Qed.

Lemma ord2ymd_bounds (n : Z) :
  1 <= n <= MAXORDINAL ->
  let '(y, m, d) := ord2ymd n in
  0 <= y < 10000 /\ 0 <= m < 100 /\ 0 <= d < 100.
Proof.
  intros H. pose proof (ymd2ord_ord2ymd n (proj1 H)) as R.
  pose proof (ord2ymd_year_bound n H) as B.
  destruct (ord2ymd n) as [[y m] d]. simpl in B. lia.
Qed.

(** The text of a later day sorts after the text of an earlier one. *)
Lemma strftime_Ymd_mono (t1 t2 : datetime) (s t : string) :
  valid t1 -> valid t2 -> ordinal t1 < ordinal t2 ->
  Str.ltb (strftime_Ymd t1 ++ s) (strftime_Ymd t2 ++ t) = true.
Proof.
  unfold valid. intros V1 V2 Hlt.
  pose proof (ord2ymd_mono _ _ (proj1 V1) Hlt) as Hm.
  pose proof (ord2ymd_bounds _ V1) as B1.
  pose proof (ord2ymd_bounds _ V2) as B2.
  unfold strftime_Ymd.
  destruct (ord2ymd (ordinal t1)) as [[y m] d].
  destruct (ord2ymd (ordinal t2)) as [[y' m'] d'].
  rewrite !string_app_assoc.
  apply ymd_text_lt; tauto.
Qed.

End Chronology.

(** X23.  From the year 1000 on, the file name, and so the cache path, of
    a frame sorts before that of every frame of a later day and before
    that of the ["12"] frame of its own day: the sorted order [build_gif]
    uses is the chronological one. *)
Theorem cached_frames_sort_chronologically
  (t1 t2 : datetime) (tod1 tod2 model filetype : string) :
  valid t1 -> valid t2 ->
  (1000 <= year t1)%Z -> (1000 <= year t2)%Z ->
  (ordinal t1 < ordinal t2)%Z
  \/ (ordinal t1 = ordinal t2 /\ tod1 = "00" /\ tod2 = "12") ->
  Str.ltb (remote_filename (strftime_Ymd t1) tod1 model filetype)
    (remote_filename (strftime_Ymd t2) tod2 model filetype) = true
  /\ path_ltb
       (DATA_DIR ++ [model; remote_filename (strftime_Ymd t1) tod1 model filetype])
       (DATA_DIR ++ [model; remote_filename (strftime_Ymd t2) tod2 model filetype])
     = true.
Proof.
  intros V1 V2 _ _ Hord.
  assert (Hf : Str.ltb (remote_filename (strftime_Ymd t1) tod1 model filetype)
                 (remote_filename (strftime_Ymd t2) tod2 model filetype) = true).
  { unfold remote_filename. destruct Hord as [Hlt|[He [-> ->]]].
    - now apply strftime_Ymd_mono.
    - unfold strftime_Ymd. rewrite He. apply eq_trans with (y := Str.ltb
        ("_" ++ "00" ++ "0000_" ++ model ++ filetype)
        ("_" ++ "12" ++ "0000_" ++ model ++ filetype)).
      + apply ltb_same_prefix.
      + reflexivity. }
  split; [exact Hf|].
  unfold DATA_DIR, ROOT. cbn [app path_ltb].
  rewrite !str_ltb_irrefl, !String.eqb_refl, Hf. reflexivity.
Qed.

Lemma cached_frames_sort_chronologically_witness :
  Str.ltb "20231231_120000_KFWD.png" "20240101_000000_KFWD.png" = true
  /\ path_ltb ["data"; "KFWD"; "20231231_120000_KFWD.png"]
       ["data"; "KFWD"; "20240101_000000_KFWD.png"] = true.
Proof.
  assert (V1 : valid (of_ymd 2023 12 31)) by (vm_compute; split; discriminate).
  assert (V2 : valid (of_ymd 2024 1 1)) by (vm_compute; split; discriminate).
  assert (Y1 : (1000 <= year (of_ymd 2023 12 31))%Z)
    by (vm_compute; discriminate).
  assert (Y2 : (1000 <= year (of_ymd 2024 1 1))%Z)
    by (vm_compute; discriminate).
  refine (cached_frames_sort_chronologically
            (of_ymd 2023 12 31) (of_ymd 2024 1 1) "12" "00" "KFWD" ".png"
            V1 V2 Y1 Y2 _).
  left. reflexivity.
Defined.

(** ** Runs of the fixtures *)

Lemma retrieve_imgs_nonpositive_span_does_nothing_witness :
  @retrieve_imgs wildcard_pathlib (constant_archive 200)
    today_2024_01_10 "KFWD" ".png" (-2) world_two_days
  = (Ok tt, world_two_days).
Proof.
  apply (@retrieve_imgs_nonpositive_span_does_nothing wildcard_pathlib
           (constant_archive 200) today_2024_01_10 "KFWD" ".png" (-2)%Z
           world_two_days).
  lia.
Defined.

Lemma error_status_aborts_queue_witness :
  @fetch_loop (constant_archive 404) "KFWD" 1
    [("a.png", "https://host/a.png"); ("b.png", "https://host/b.png")]
    world_two_days
  = (Raise (HTTPError 404),
     mk_world fs_two_days [Get "https://host/a.png"]).
Proof.
  apply (@error_status_aborts_queue (constant_archive 404) "KFWD" 1
           "a.png" "https://host/a.png" [("b.png", "https://host/b.png")]
           world_two_days world_two_days (mk_response 404 "frame")).
  - reflexivity.
  - reflexivity.
  - simpl. lia.
Defined.

Lemma other_status_continues_queue_witness :
  @fetch_loop (constant_archive 204) "KFWD" 1
    [("a.png", "https://host/a.png"); ("b.png", "https://host/b.png")]
    world_two_days
  = @fetch_loop (constant_archive 204) "KFWD" 2
      [("b.png", "https://host/b.png")]
      (mk_world fs_two_days [Get "https://host/a.png"]).
Proof.
  apply (@other_status_continues_queue (constant_archive 204) "KFWD" 1
           "a.png" "https://host/a.png" [("b.png", "https://host/b.png")]
           world_two_days world_two_days (mk_response 204 "frame")).
  - reflexivity.
  - reflexivity.
  - simpl. lia.
  - simpl. lia.
Defined.

Lemma upload_loop_keeps_models_and_their_fields_witness :
  dict_keys
    [("upaCNTR_200",
      [("name", "Winds @ 200mb"); ("filetype", ".gif");
       ("gif-file-id", "F-upaCNTR_200")]);
     ("KFWD", [("name", "Skew-T/Log-P"); ("filetype", ".png")])]
  = dict_keys model_map_0
  /\ forall m d,
       dict_get m model_map_0 = Some d ->
       exists d',
         dict_get m
           [("upaCNTR_200",
             [("name", "Winds @ 200mb"); ("filetype", ".gif");
              ("gif-file-id", "F-upaCNTR_200")]);
            ("KFWD", [("name", "Skew-T/Log-P"); ("filetype", ".png")])]
         = Some d'
         /\ forall k, k <> "gif-file-id" -> dict_get k d' = dict_get k d.
Proof.
  apply (@upload_loop_keeps_models_and_their_fields (refusing_slack "KFWD")
           props_0 (mk_WebClient "xoxb-1")
           [["data"; "gifs"; "upaCNTR_200_2024-01-10.gif"];
            ["data"; "gifs"; "KFWD_2024-01-10.gif"]]
           model_map_0 _ (mk_world fs_with_gifs [])
           (mk_world fs_with_gifs
              [Upload (Some "C1") "winds" "upaCNTR_200";
               Upload (Some "C1") "skewt" "KFWD"])).
  reflexivity.
Defined.

Lemma upload_one_records_the_file_id_witness :
  exists mm',
    @upload_one (refusing_slack "KFWD") props_0 (mk_WebClient "xoxb-1")
      model_map_0 ["data"; "gifs"; "upaCNTR_200_2024-01-10.gif"]
      (mk_world fs_with_gifs [])
    = (Ok mm',
       mk_world fs_with_gifs [Upload (Some "C1") "winds" "upaCNTR_200"])
    /\ (exists d',
           dict_get "upaCNTR_200" mm' = Some d'
           /\ dict_get "gif-file-id" d' = Some "F-upaCNTR_200"
           /\ model_blocks d'
              = Ok [ImageBlock "Winds @ 200mb" "F-upaCNTR_200" "poopie";
                    DividerBlock])
    /\ forall m, m <> "upaCNTR_200" -> dict_get m mm' = dict_get m model_map_0.
Proof.
  apply (@upload_one_records_the_file_id (refusing_slack "KFWD") props_0
           (mk_WebClient "xoxb-1") model_map_0
           ["data"; "gifs"; "upaCNTR_200_2024-01-10.gif"]
           (mk_world fs_with_gifs []) "winds" "F-upaCNTR_200"
           (mk_upload_response true (Some "F-upaCNTR_200"))
           [("name", "Winds @ 200mb"); ("filetype", ".gif")]).
  - reflexivity.
  - reflexivity.
  - reflexivity.
  - reflexivity.
  - reflexivity.
Defined.

Lemma upload_of_unknown_model_raises_KeyError_witness :
  @upload_loop (refusing_slack "KFWD") props_0 (mk_WebClient "xoxb-1")
    model_map_0
    [["data"; "gifs"; "GFS_2024-01-10.gif"];
     ["data"; "gifs"; "upaCNTR_200_2024-01-10.gif"]]
    (mk_world
       (fs_with_gifs ++ [(["data"; "gifs"; "GFS_2024-01-10.gif"], File "gfs")])
       [])
  = (Raise (KeyError "GFS"),
     mk_world
       (fs_with_gifs ++ [(["data"; "gifs"; "GFS_2024-01-10.gif"], File "gfs")])
       [Upload (Some "C1") "gfs" "GFS"]).
Proof.
  apply (@upload_of_unknown_model_raises_KeyError (refusing_slack "KFWD")
           props_0 (mk_WebClient "xoxb-1") model_map_0
           ["data"; "gifs"; "GFS_2024-01-10.gif"]
           [["data"; "gifs"; "upaCNTR_200_2024-01-10.gif"]]
           (mk_world
              (fs_with_gifs
               ++ [(["data"; "gifs"; "GFS_2024-01-10.gif"], File "gfs")])
              [])
           "gfs" "F-GFS" (mk_upload_response true (Some "F-GFS"))).
  - reflexivity.
  - reflexivity.
  - reflexivity.
  - reflexivity.
  - reflexivity.
Defined.

Lemma send_slack_message_blocks_without_public_channel_witness :
  @send_slack_message_blocks wildcard_pathlib (refusing_slack "")
    today_2024_01_10 [("private-chan", "C1")] (mk_WebClient "xoxb-1")
    model_map_0 (mk_world fs_with_gifs [])
  = (Raise (KeyError "public-chan"),
     mk_world fs_with_gifs
       ([Upload (Some "C1") "winds" "upaCNTR_200";
         Upload (Some "C1") "skewt" "KFWD"] ++ [Sleep 3]))
  /\ posts ([Upload (Some "C1") "winds" "upaCNTR_200";
             Upload (Some "C1") "skewt" "KFWD"] ++ [Sleep 3])
     = posts [].
Proof.
  apply (@send_slack_message_blocks_without_public_channel wildcard_pathlib
           (refusing_slack "") today_2024_01_10 [("private-chan", "C1")]
           (mk_WebClient "xoxb-1") model_map_0
           [("upaCNTR_200",
             [("name", "Winds @ 200mb"); ("filetype", ".gif");
              ("gif-file-id", "F-upaCNTR_200")]);
            ("KFWD",
             [("name", "Skew-T/Log-P"); ("filetype", ".png");
              ("gif-file-id", "F-KFWD")])]
           (mk_world fs_with_gifs [])
           (mk_world fs_with_gifs
              [Upload (Some "C1") "winds" "upaCNTR_200";
               Upload (Some "C1") "skewt" "KFWD"])
           [HeaderBlock "WX Report for 2024-01-10";
            ImageBlock "Winds @ 200mb" "F-upaCNTR_200" "poopie"; DividerBlock;
            ImageBlock "Skew-T/Log-P" "F-KFWD" "poopie"; DividerBlock]).
  - reflexivity.
  - reflexivity.
  - reflexivity.
Defined.
